(** * deepwebide-yjs: the room multiplexer of the collaboration relay

    A shallow embedding of the relay's in-memory state machine and the
    properties its specification states about admission, quota,
    broadcast, grace timers and the document registry.

    Sources embedded:
    - src/server.ts: the classifier, the connection tracker, the
      connection, message and disconnection handlers;
    - class RoomManager, the one server.ts calls (with
      [getActiveClientCount], grace periods and the document manager; in
      this snapshot it follows the lint configuration in
      src/eslint.config.js, lines 74 to 413);
    - src/utils/yjsDocumentManager.ts and src/utils/saveManager.ts.

    Conventions of the embedding:
    - room ids, IPs and close reasons are [string]s (a room id is the
      request target without its leading slash, one byte per character);
    - JS numbers that count or measure time are [Z];
    - a JS [Map] is a [gmap]; a JS [Set] of sockets is the list of its
      members in insertion order (the order [forEach] visits them);
    - a socket object is a handle ([nat]) into a store of its fields, so
      that two references to one socket stay one socket;
    - [new Date()] and [Date.now()] read the clock field of the world;
    - [setTimeout] yields a handle and enters it in the pending timeouts
      with its due time, the clock plus the delay as the runtime takes
      it; a pending timeout can fire once the clock has reached its due
      time, and [clearTimeout] removes it;
    - logging writes nothing the relay reads back and is left out. *)

From Stdlib Require Import ZArith Ascii String List Bool Lia.
From stdpp Require Import gmap strings list fin_maps pretty.

Open Scope string_scope.
Open Scope list_scope.
Open Scope Z_scope.

(** ** Regular expressions of the room-id classifier *)

Module Regex.

(** The fragment of JS regular expressions the sources use: literals,
    character classes, concatenation, alternation (for [?]) and iteration. *)
Inductive regex : Type :=
| Void : regex
| Eps : regex
| Class : (ascii → bool) → regex
| Cat : regex → regex → regex
| Alt : regex → regex → regex
| Star : regex → regex.

(** The language of a regex, the reference the matcher is checked against. *)
Inductive lang : regex → string → Prop :=
| lang_eps : lang Eps ""
| lang_class p a : p a = true → lang (Class p) (String a "")
| lang_cat r1 r2 s1 s2 : lang r1 s1 → lang r2 s2 → lang (Cat r1 r2) (s1 +:+ s2)
| lang_alt_l r1 r2 s : lang r1 s → lang (Alt r1 r2) s
| lang_alt_r r1 r2 s : lang r2 s → lang (Alt r1 r2) s
| lang_star_nil r : lang (Star r) ""
| lang_star_app r s1 s2 : lang r s1 → lang (Star r) s2 → lang (Star r) (s1 +:+ s2).

Fixpoint nullable (r : regex) : bool :=
  match r with
  | Void => false
  | Eps => true
  | Class _ => false
  | Cat r1 r2 => nullable r1 && nullable r2
  | Alt r1 r2 => nullable r1 || nullable r2
  | Star _ => true
  end.

Fixpoint deriv (a : ascii) (r : regex) : regex :=
  match r with
  | Void => Void
  | Eps => Void
  | Class p => if p a then Eps else Void
  | Cat r1 r2 =>
      if nullable r1 then Alt (Cat (deriv a r1) r2) (deriv a r2)
      else Cat (deriv a r1) r2
  | Alt r1 r2 => Alt (deriv a r1) (deriv a r2)
  | Star r1 => Cat (deriv a r1) (Star r1)
  end.

(** Whole-string match: the regex between [^] and [$]. *)
Fixpoint matches (r : regex) (s : string) : bool :=
  match s with
  | EmptyString => nullable r
  | String a s' => matches (deriv a r) s'
  end.

(** Surface syntax. *)
Definition chr (c : ascii) : regex := Class (fun a => bool_decide (a = c)).

Fixpoint lit (s : string) : regex :=
  match s with
  | EmptyString => Eps
  | String a s' => Cat (chr a) (lit s')
  end.

Definition plus (r : regex) : regex := Cat r (Star r).
Definition opt (r : regex) : regex := Alt r Eps.

(** [\d]: the ten ASCII digits. *)
Definition is_digit (a : ascii) : bool :=
  let n := nat_of_ascii a in ((48 <=? n) && (n <=? 57))%nat.

(** [.] without the [s] flag: anything but a line terminator. *)
Definition is_dot (a : ascii) : bool :=
  let n := nat_of_ascii a in negb ((n =? 10) || (n =? 13))%nat.

(** [[^\/]]: anything but a slash. *)
Definition is_not_slash (a : ascii) : bool :=
  negb (nat_of_ascii a =? 47)%nat.

Definition any_char : regex := Class (fun _ => true).

(** [/^r$/.test(s)]. *)
Definition test_anchored (r : regex) (s : string) : bool := matches r s.

(** [/^r/.test(s)]: the match may stop before the end of [s]. *)
Definition test_prefix (r : regex) (s : string) : bool :=
  matches (Cat r (Star any_char)) s.

End Regex.

Import Regex.

(** ** server.ts: the admission classifier *)

(** JS: /^repo-\d+(-Z)?$/ where Z is dot-star. *)
Definition re_server_codeEditor : regex :=
  Cat (lit "repo-") (Cat (plus (Class is_digit))
    (opt (Cat (chr "-") (Star (Class is_dot))))).

(** JS: /^filetree-\d+$/ *)
Definition re_fileTree : regex := Cat (lit "filetree-") (plus (Class is_digit)).

(** JS: /^savepoint-\d+$/ *)
Definition re_savePoint : regex := Cat (lit "savepoint-") (plus (Class is_digit)).

Definition isCodeEditorRoom (roomId : string) : bool :=
  test_anchored re_server_codeEditor roomId.

Definition isFileTreeRoom (roomId : string) : bool :=
  test_anchored re_fileTree roomId.

Definition isSavePointRoom (roomId : string) : bool :=
  test_anchored re_savePoint roomId.

Definition isAllowedRoom (roomId : string) : bool :=
  isCodeEditorRoom roomId || isFileTreeRoom roomId || isSavePointRoom roomId.

(** ** server.ts: the connection tracker (quota table) *)

Definition MAX_CONNECTIONS_PER_IP_PER_ROOM : Z := 10.

(** [x || 0] on the result of [Map.get]: [undefined] and [0] both give [0]. *)
Definition or_zero (o : option Z) : Z := default 0 o.

(** [connectionTracker]: IP, then room id, then count. *)
Abbreviation Tracker := (gmap string (gmap string Z)).

Definition trackConnection (clientIP roomId : string) (t : Tracker) : Tracker * bool :=
  let t1 := match t !! clientIP with
            | None => <[clientIP := ∅]> t
            | Some _ => t
            end in
  let ipRooms := default ∅ (t1 !! clientIP) in
  let currentCount := or_zero (ipRooms !! roomId) in
  if MAX_CONNECTIONS_PER_IP_PER_ROOM <=? currentCount then (t1, false)
  else (<[clientIP := <[roomId := currentCount + 1]> ipRooms]> t1, true).

Definition untrackConnection (clientIP roomId : string) (t : Tracker) : Tracker :=
  match t !! clientIP with
  | Some ipRooms =>
      let currentCount := or_zero (ipRooms !! roomId) in
      if currentCount <=? 1 then
        let ipRooms' := delete roomId ipRooms in
        if bool_decide (size ipRooms' = 0%nat) then delete clientIP t
        else <[clientIP := ipRooms']> t
      else <[clientIP := <[roomId := currentCount - 1]> ipRooms]> t
  | None => t
  end.

(** The calls that touch the tracker: admission, release, and the
    [connectionTracker.clear()] of the emergency drain and of shutdown. *)
Inductive TrackerOp : Type :=
| OpTrack (clientIP roomId : string)
| OpUntrack (clientIP roomId : string)
| OpClear.

Definition tracker_step (op : TrackerOp) (t : Tracker) : Tracker :=
  match op with
  | OpTrack ip r => fst (trackConnection ip r t)
  | OpUntrack ip r => untrackConnection ip r t
  | OpClear => ∅
  end.

(** The tables the server can hold: start empty, apply any calls. *)
Definition tracker_after (ops : list TrackerOp) : Tracker :=
  foldl (fun t op => tracker_step op t) ∅ ops.

(** Every stored count lies in [lo, hi]. *)
Definition counts_within (lo hi : Z) (t : Tracker) : Prop :=
  ∀ ip ipRooms r n, t !! ip = Some ipRooms → ipRooms !! r = Some n → lo ≤ n ≤ hi.

(** No IP keeps an empty inner map. *)
Definition no_empty_ip (t : Tracker) : Prop :=
  ∀ ip ipRooms, t !! ip = Some ipRooms → ipRooms ≠ ∅.

Definition tracker_wf (t : Tracker) : Prop :=
  counts_within 1 MAX_CONNECTIONS_PER_IP_PER_ROOM t ∧ no_empty_ip t.

(** The count of a pair: what [trackConnection] reads. *)
Definition quota (t : Tracker) (clientIP roomId : string) : Z :=
  or_zero (default ∅ (t !! clientIP) !! roomId).

(** ** Completions: a call returns or throws *)

Inductive completion (A : Type) : Type :=
| Normal (a : A)
| Throw (e : string).
Arguments Normal {A} a.
Arguments Throw {A} e.

(** [try { body } catch (e) { handler }] over a state [S]: the state the
    body reached is the state the handler starts from. *)
Definition try_catch {S A : Type} (body : S * completion A)
    (handler : S → string → S * completion A) : S * completion A :=
  match body with
  | (s, Normal a) => (s, Normal a)
  | (s, Throw e) => handler s e
  end.

Definition Buffer : Type := list Byte.byte.

(** ** The CRDT library (yjs), an external collaborator

    The relay uses four entry points.  A call of the library may throw;
    [Y_applyUpdate] also says in what state it left the document. *)
Class YjsLib : Type := {
  Doc : Type;
  (** [new Y.Doc()] *)
  Y_newDoc : Doc;
  (** [Y.applyUpdate(doc, bytes)]: the document afterwards, and whether
      the call returned ([true]) or threw ([false]). *)
  Y_applyUpdate : Doc → Buffer → Doc * bool;
  (** [Y.encodeStateAsUpdate(doc)]; [None] when it throws. *)
  Y_encodeStateAsUpdate : Doc → option Buffer;
  (** [doc.getText(name).toString()]; [None] when it throws. *)
  Y_getText : Doc → string → option string;
}.

(** A library that refuses a frame leaves the document as it was. *)
Definition reject_is_atomic (Y : YjsLib) : Prop :=
  ∀ doc bytes, snd (Y_applyUpdate doc bytes) = false → fst (Y_applyUpdate doc bytes) = doc.

(** ** utils/yjsDocumentManager.ts *)

Record YjsDocumentManager {Y : YjsLib} : Type := {
  documents : gmap string Doc;
  documentStates : gmap string Buffer;
}.
Arguments YjsDocumentManager : clear implicits.

Section DocumentManager.
Context {Y : YjsLib}.

Definition set_documents (f : gmap string Doc → gmap string Doc)
    (m : YjsDocumentManager Y) : YjsDocumentManager Y :=
  {| documents := f (documents m); documentStates := documentStates m |}.

Definition set_documentStates (f : gmap string Buffer → gmap string Buffer)
    (m : YjsDocumentManager Y) : YjsDocumentManager Y :=
  {| documents := documents m; documentStates := f (documentStates m) |}.

Definition getDocumentContent (roomId : string) (m : YjsDocumentManager Y) : string :=
  match documents m !! roomId with
  | None => ""
  | Some doc =>
      match Y_getText doc "monaco-content" with
      | Some content => content
      | None => ""                       (* catch: log, return '' *)
      end
  end.

(** The inner [try] of [handleYjsMessage]: apply, encode, store. *)
Definition applyAndSnapshot (roomId : string) (message : Buffer) (doc : Doc)
    (m : YjsDocumentManager Y) : YjsDocumentManager Y * completion unit :=
  let '(doc', returned) := Y_applyUpdate doc message in
  let m1 := set_documents <[roomId := doc']> m in   (* the document object is updated in place *)
  if returned then
    match Y_encodeStateAsUpdate doc' with
    | Some state => (set_documentStates <[roomId := state]> m1, Normal tt)
    | None => (m1, Throw "encodeStateAsUpdate")
    end
  else (m1, Throw "applyUpdate").

Definition handleYjsMessage (roomId : string) (message : Buffer)
    (m : YjsDocumentManager Y) : YjsDocumentManager Y * completion unit :=
  try_catch
    (if bool_decide (length message = 0%nat) then (m, Normal tt)
     else
       let m1 := match documents m !! roomId with
                 | None => set_documents <[roomId := Y_newDoc]> m
                 | Some _ => m
                 end in
       try_catch
         (match documents m1 !! roomId with
          | None => (m1, Throw "TypeError")   (* not reached: the entry was just ensured *)
          | Some doc => applyAndSnapshot roomId message doc m1
          end)
         (fun m2 _ => (m2, Normal tt)))         (* catch (updateError): debug log *)
    (fun m' _ => (m', Normal tt)).              (* catch (error): error log *)

Definition getDocumentInfo (roomId : string) (m : YjsDocumentManager Y) : bool * Z * Z :=
  match documents m !! roomId with
  | None => (false, 0, 0)
  | Some _ =>
      (true, Z.of_nat (String.length (getDocumentContent roomId m)),
       match documentStates m !! roomId with
       | Some state => Z.of_nat (length state)
       | None => 0
       end)
  end.

(** [doc.destroy()] frees the library's object (taken not to throw); the
    registry forgets the document and its snapshot. *)
Definition cleanupDocument (roomId : string) (m : YjsDocumentManager Y) : YjsDocumentManager Y :=
  set_documentStates (delete roomId) (set_documents (delete roomId) m).

Definition cleanupAllDocuments (m : YjsDocumentManager Y) : YjsDocumentManager Y :=
  {| documents := ∅; documentStates := ∅ |}.

End DocumentManager.

(** ** utils/saveManager.ts *)

Fixpoint span_digits (s : string) : string * string :=
  match s with
  | EmptyString => ("", "")
  | String a s' =>
      if is_digit a then let '(d, r) := span_digits s' in (String a d, r)
      else ("", s)
  end.

Fixpoint string_strip_prefix (p s : string) : option string :=
  match p, s with
  | EmptyString, _ => Some s
  | String a p', String b s' => if bool_decide (a = b) then string_strip_prefix p' s' else None
  | String _ _, EmptyString => None
  end.

Fixpoint string_forallb (f : ascii → bool) (s : string) : bool :=
  match s with
  | EmptyString => true
  | String a s' => f a && string_forallb f s'
  end.

(** JS: /^repo-(\d+)-(.+)$/ *)
Definition re_parseRoomId : regex :=
  Cat (lit "repo-") (Cat (plus (Class is_digit))
    (Cat (chr "-") (plus (Class is_dot)))).

(** [roomId.match(re_parseRoomId)]: the two capture groups.  The digit run
    is followed by a dash, so group 1 is the longest digit run and group 2
    is all that follows the dash. *)
Definition match_parseRoomId (roomId : string) : option (string * string) :=
  match string_strip_prefix "repo-" roomId with
  | None => None
  | Some s1 =>
      let '(g1, s2) := span_digits s1 in
      if bool_decide (g1 = "") then None
      else match s2 with
           | String a g2 =>
               if bool_decide (a = "-"%char) && negb (bool_decide (g2 = ""))
                  && string_forallb is_dot g2
               then Some (g1, g2) else None
           | EmptyString => None
           end
  end.

Definition digit_value (a : ascii) : Z := Z.of_nat (nat_of_ascii a) - 48.

Fixpoint decimal_value (acc : Z) (s : string) : Z :=
  match s with
  | EmptyString => acc
  | String a s' => decimal_value (10 * acc + digit_value a) s'
  end.

(** [parseInt(s, 10)] on a string that starts with its digits (group 1 is
    a digit run, so no blank or sign precedes them): [None] is NaN.  The
    value is exact here; JS rounds it to a double above 2^53. *)
Definition parseInt10 (s : string) : option Z :=
  let '(d, _) := span_digits s in
  if bool_decide (d = "") then None else Some (decimal_value 0 d).

Record ParsedRoomId : Type := {
  repositoryId : Z;
  filePath : string;
}.

Definition parseRoomId (roomId : string) : option ParsedRoomId :=
  match match_parseRoomId roomId with
  | None => None
  | Some (g1, g2) =>
      match parseInt10 g1 with
      | None => None                                        (* isNaN(repositoryId) *)
      | Some n =>
          if bool_decide (g2 = "") then None                (* !filePath *)
          else Some {| repositoryId := n; filePath := g2 |}
      end
  end.

Record SaveApiRequest : Type := {
  req_filePath : string;
  req_content : string;
  req_source : string;
}.

(** What [fetch] is called with; the body is kept before [JSON.stringify]. *)
Record HttpRequest : Type := {
  http_url : string;
  http_method : string;
  http_contentType : string;
  http_body : SaveApiRequest;
}.

(** How the awaited [fetch] and [response.json()] end. *)
Inductive FetchResult : Type :=
| FetchRejected (message : string)
| FetchResponse (ok : bool) (status : Z) (statusText : string) (json : option string).

Module SaveManager.

(** JS: /^repo-\d+-[^\/]+/ (no end anchor) *)
Definition re_codeEditor : regex :=
  Cat (lit "repo-") (Cat (plus (Class is_digit))
    (Cat (chr "-") (plus (Class is_not_slash)))).

Definition isCodeEditorRoom (roomId : string) : bool :=
  test_prefix re_codeEditor roomId.

Definition isFileTreeRoom (roomId : string) : bool :=
  test_anchored re_fileTree roomId.

Definition isSupportedRoom (roomId : string) : bool :=
  isCodeEditorRoom roomId || isFileTreeRoom roomId.

(** The requests issued, in order, and how the returned promise settles. *)
Definition triggerSaveAPI (apiBaseUrl : string) (fetch : HttpRequest → FetchResult)
    (roomId content : string) : list HttpRequest * completion unit :=
  match parseRoomId roomId with
  | None => ([], Normal tt)                                 (* warn, return *)
  | Some parsedRoom =>
      let apiUrl := apiBaseUrl +:+ "/repositories/"
                    +:+ pretty (repositoryId parsedRoom) +:+ "/files/content" in
      let request := {| http_url := apiUrl;
                        http_method := "PUT";
                        http_contentType := "application/json";
                        http_body := {| req_filePath := filePath parsedRoom;
                                        req_content := content;
                                        req_source := "yjs-collaboration" |} |} in
      match fetch request with
      | FetchRejected message => ([request], Throw message)
      | FetchResponse ok status statusText json =>
          if negb ok then
            ([request], Throw ("API 호출 실패: " +:+ pretty status +:+ " " +:+ statusText))
          else match json with
               | None => ([request], Throw "SyntaxError")
               | Some _ => ([request], Normal tt)
               end
      end
  end.

End SaveManager.

(** ** types/server.types.ts *)

(** The fields of a socket the relay reads and writes.  [ws_socket] is
    [ws.socket], an object with an optional [remoteAddress]. *)
Record ExtendedWebSocket : Type := {
  readyState : Z;
  ws_roomId : option string;
  ws_clientId : option string;
  ws_isAlive : option bool;
  ws_connectedAt : option Z;
  ws_lastActivity : option Z;
  ws_socket : option (option string);
}.

(** [clients] is the [Set] in insertion order; its members are handles. *)
Record RoomInfo : Type := {
  room_id : string;
  clients : list nat;
  createdAt : Z;
  lastActivity : Z;
}.

Record IncomingMessage : Type := {
  req_url : option string;
  req_remoteAddress : option string;
}.

(** What the relay does to the outside, and the internal calls whose
    order the specification talks about. *)
Inductive Event : Type :=
| EvApplyUpdate (roomId : string) (message : Buffer)
| EvSend (client : nat) (message : Buffer) (returned : bool)
| EvEvict (roomId : string) (client : nat)
| EvInsert (roomId : string) (client : nat)
| EvClose (client : nat) (code : Z) (reason : string)
| EvSetTimeout (handle : nat) (due : Z) (roomId : string)
| EvClearTimeout (handle : nat)
| EvTrack (clientIP roomId : string) (accepted : bool)
| EvUntrack (clientIP roomId : string)
| EvListen (client : nat).

(** ** class RoomManager: the state *)

Record RoomManager {Y : YjsLib} : Type := {
  rooms : gmap string RoomInfo;
  gracePeriods : gmap string nat;
  yjsManager : YjsDocumentManager Y;
  gracePeriodMs : Z;
}.
Arguments RoomManager : clear implicits.

(** The process: the clock, the socket objects, the pending timeouts of
    the runtime (handle, then due time and the room the callback closes
    over), the two singletons of server.ts, and the events so far. *)
Record World {Y : YjsLib} : Type := {
  now : Z;
  sockets : gmap nat ExtendedWebSocket;
  timers : gmap nat (Z * string);
  nextTimer : nat;
  roomManager : RoomManager Y;
  connectionTracker : Tracker;
  trace : list Event;
}.
Arguments World : clear implicits.

Definition isTruthy (o : option string) : bool :=
  match o with
  | Some s => negb (bool_decide (s = ""))
  | None => false
  end.

(** [a || b] on strings. *)
Definition or_string (o : option string) (b : string) : string :=
  match o with
  | Some s => if bool_decide (s = "") then b else s
  | None => b
  end.

Definition set_readyState (n : Z) (s : ExtendedWebSocket) : ExtendedWebSocket :=
  {| readyState := n; ws_roomId := ws_roomId s; ws_clientId := ws_clientId s;
     ws_isAlive := ws_isAlive s; ws_connectedAt := ws_connectedAt s;
     ws_lastActivity := ws_lastActivity s; ws_socket := ws_socket s |}.

Definition set_ws_lastActivity (t : Z) (s : ExtendedWebSocket) : ExtendedWebSocket :=
  {| readyState := readyState s; ws_roomId := ws_roomId s; ws_clientId := ws_clientId s;
     ws_isAlive := ws_isAlive s; ws_connectedAt := ws_connectedAt s;
     ws_lastActivity := Some t; ws_socket := ws_socket s |}.

(** A handle that names no socket reads as a closed, blank one. *)
Definition blank_socket : ExtendedWebSocket :=
  {| readyState := 3; ws_roomId := None; ws_clientId := None; ws_isAlive := None;
     ws_connectedAt := None; ws_lastActivity := None; ws_socket := None |}.

(** The test of [getActiveClientCount]. *)
Definition isActive (s : ExtendedWebSocket) : bool :=
  (readyState s =? 1) && negb (bool_decide (ws_isAlive s = Some false))
  && isTruthy (ws_clientId s) && isTruthy (ws_roomId s).

Section Relay.
Context {Y : YjsLib}.

Definition set_rooms (f : gmap string RoomInfo → gmap string RoomInfo)
    (m : RoomManager Y) : RoomManager Y :=
  {| rooms := f (rooms m); gracePeriods := gracePeriods m;
     yjsManager := yjsManager m; gracePeriodMs := gracePeriodMs m |}.

Definition set_gracePeriods (f : gmap string nat → gmap string nat)
    (m : RoomManager Y) : RoomManager Y :=
  {| rooms := rooms m; gracePeriods := f (gracePeriods m);
     yjsManager := yjsManager m; gracePeriodMs := gracePeriodMs m |}.

Definition set_yjsManager (f : YjsDocumentManager Y → YjsDocumentManager Y)
    (m : RoomManager Y) : RoomManager Y :=
  {| rooms := rooms m; gracePeriods := gracePeriods m;
     yjsManager := f (yjsManager m); gracePeriodMs := gracePeriodMs m |}.

Definition upd_rm (f : RoomManager Y → RoomManager Y) (w : World Y) : World Y :=
  {| now := now w; sockets := sockets w; timers := timers w; nextTimer := nextTimer w;
     roomManager := f (roomManager w); connectionTracker := connectionTracker w;
     trace := trace w |}.

Definition upd_sockets (f : gmap nat ExtendedWebSocket → gmap nat ExtendedWebSocket)
    (w : World Y) : World Y :=
  {| now := now w; sockets := f (sockets w); timers := timers w; nextTimer := nextTimer w;
     roomManager := roomManager w; connectionTracker := connectionTracker w;
     trace := trace w |}.

Definition upd_timers (f : gmap nat (Z * string) → gmap nat (Z * string))
    (w : World Y) : World Y :=
  {| now := now w; sockets := sockets w; timers := f (timers w); nextTimer := nextTimer w;
     roomManager := roomManager w; connectionTracker := connectionTracker w;
     trace := trace w |}.

Definition set_nextTimer (n : nat) (w : World Y) : World Y :=
  {| now := now w; sockets := sockets w; timers := timers w; nextTimer := n;
     roomManager := roomManager w; connectionTracker := connectionTracker w;
     trace := trace w |}.

Definition upd_tracker (f : Tracker → Tracker) (w : World Y) : World Y :=
  {| now := now w; sockets := sockets w; timers := timers w; nextTimer := nextTimer w;
     roomManager := roomManager w; connectionTracker := f (connectionTracker w);
     trace := trace w |}.

Definition set_now (t : Z) (w : World Y) : World Y :=
  {| now := t; sockets := sockets w; timers := timers w; nextTimer := nextTimer w;
     roomManager := roomManager w; connectionTracker := connectionTracker w;
     trace := trace w |}.

Definition emit (e : Event) (w : World Y) : World Y :=
  {| now := now w; sockets := sockets w; timers := timers w; nextTimer := nextTimer w;
     roomManager := roomManager w; connectionTracker := connectionTracker w;
     trace := trace w ++ [e] |}.

Definition socket_of (w : World Y) (client : nat) : ExtendedWebSocket :=
  default blank_socket (sockets w !! client).

Definition room_of (w : World Y) (roomId : string) : option RoomInfo :=
  rooms (roomManager w) !! roomId.

(** [ws.close(code, reason)]: the transport starts closing unless it is
    closed already. *)
Definition closeSocket (client : nat) (code : Z) (reason : string) (w : World Y) : World Y :=
  emit (EvClose client code reason)
    (upd_sockets (alter (fun s => if readyState s =? 3 then s else set_readyState 2 s) client) w).

(** ** class RoomManager: the methods *)

Definition getActiveClientCount (roomId : string) (w : World Y) : Z :=
  match room_of w roomId with
  | None => 0
  | Some room =>
      foldl (fun activeCount client =>
               if isActive (socket_of w client) then activeCount + 1 else activeCount)
            0 (clients room)
  end.

Definition cleanupRoom (roomId : string) (w : World Y) : World Y :=
  match room_of w roomId with
  | None => w
  | Some room =>
      let w1 := foldl (fun w client =>
                         if readyState (socket_of w client) =? 1
                         then closeSocket client 1000 "Room cleanup" w else w)
                      w (clients room) in
      let w2 := upd_rm (set_rooms (delete roomId)) w1 in
      if SaveManager.isCodeEditorRoom roomId
      then upd_rm (set_yjsManager (cleanupDocument roomId)) w2
      else w2
  end.

(** The callback [startGracePeriod] hands to [setTimeout]. *)
Definition graceTimerCallback (roomId : string) (w : World Y) : World Y :=
  let w1 := match room_of w roomId with
            | None => cleanupRoom roomId w
            | Some _ =>
                if getActiveClientCount roomId w =? 0 then cleanupRoom roomId w else w
            end in
  upd_rm (set_gracePeriods (delete roomId)) w1.

(** The delay [setTimeout] gives a timeout: the runtime replaces a delay
    below 1 ms or above 2147483647 ms (2^31 - 1) by 1 ms. *)
Definition TIMEOUT_MAX : Z := 2147483647.

Definition setTimeout_delay (ms : Z) : Z :=
  if (1 <=? ms) && (ms <=? TIMEOUT_MAX) then ms else 1.

Definition startGracePeriod (roomId : string) (w : World Y) : World Y :=
  if SaveManager.isFileTreeRoom roomId then cleanupRoom roomId w
  else if negb (SaveManager.isCodeEditorRoom roomId) then cleanupRoom roomId w
  else
    let timeout := nextTimer w in
    let due := now w + setTimeout_delay (gracePeriodMs (roomManager w)) in
    upd_rm (set_gracePeriods <[roomId := timeout]>)
      (emit (EvSetTimeout timeout due roomId)
         (set_nextTimer (S timeout) (upd_timers <[timeout := (due, roomId)]> w))).

Definition newRoom (roomId : string) (t : Z) : RoomInfo :=
  {| room_id := roomId; clients := []; createdAt := t; lastActivity := t |}.

Definition room_add (client : nat) (t : Z) (room : RoomInfo) : RoomInfo :=
  {| room_id := room_id room; clients := clients room ++ [client];
     createdAt := createdAt room; lastActivity := t |}.

(** [room.clients.delete(client)] *)
Definition room_delete (client : nat) (room : RoomInfo) : RoomInfo :=
  {| room_id := room_id room;
     clients := List.filter (fun c => negb (Nat.eqb c client)) (clients room);
     createdAt := createdAt room; lastActivity := lastActivity room |}.

Definition room_touch (t : Z) (room : RoomInfo) : RoomInfo :=
  {| room_id := room_id room; clients := clients room;
     createdAt := createdAt room; lastActivity := t |}.

Definition has_client (client : nat) (room : RoomInfo) : bool :=
  existsb (Nat.eqb client) (clients room).

Definition addClient (roomId : string) (client : nat) (w : World Y) : World Y * Z :=
  let w1 := match gracePeriods (roomManager w) !! roomId with
            | Some timeout =>
                upd_rm (set_gracePeriods (delete roomId))
                  (emit (EvClearTimeout timeout) (upd_timers (delete timeout) w))
            | None => w
            end in
  let w2 := match room_of w1 roomId with
            | None => upd_rm (set_rooms <[roomId := newRoom roomId (now w1)]>) w1
            | Some _ => w1
            end in
  match room_of w2 roomId with
  | None => (w2, 0)                       (* not reached: the room was just ensured *)
  | Some room =>
      if has_client client room then (w2, getActiveClientCount roomId w2)
      else
        let w3 := emit (EvInsert roomId client)
                    (upd_rm (set_rooms <[roomId := room_add client (now w2) room]>) w2) in
        (w3, getActiveClientCount roomId w3)
  end.

Definition removeClient (roomId : string) (client : nat) (w : World Y) : World Y * Z :=
  match room_of w roomId with
  | None => (w, 0)
  | Some room =>
      if negb (has_client client room) then (w, getActiveClientCount roomId w)
      else
        let w1 := upd_rm (set_rooms
                     <[roomId := room_touch (now w) (room_delete client room)]>) w in
        let remainingCount := getActiveClientCount roomId w1 in
        if remainingCount =? 0 then (startGracePeriod roomId w1, remainingCount)
        else (w1, remainingCount)
  end.

(** One turn of the [forEach] of [broadcast]: the world, the count and the
    dead list so far.  [send client message] says whether
    [client.send(message)] returns ([true]) or throws ([false]). *)
Definition broadcast_visit (send : nat → Buffer → bool) (message : Buffer) (sender : nat)
    (acc : World Y * Z * list nat) (client : nat) : World Y * Z * list nat :=
  let '(w, broadcastCount, deadClients) := acc in
  if Nat.eqb client sender then acc
  else if readyState (socket_of w client) =? 1 then
    if send client message
    then (emit (EvSend client message true) w, broadcastCount + 1, deadClients)
    else (emit (EvSend client message false) w, broadcastCount, deadClients ++ [client])
  else (w, broadcastCount, deadClients ++ [client]).

Definition evict (roomId : string) (w : World Y) (deadClient : nat) : World Y :=
  emit (EvEvict roomId deadClient)
    (upd_rm (set_rooms (alter (room_delete deadClient) roomId)) w).

Definition broadcast (send : nat → Buffer → bool) (roomId : string) (message : Buffer)
    (sender : nat) (w : World Y) : World Y * completion Z :=
  match room_of w roomId with
  | None => (w, Normal 0)
  | Some room =>
      let applied :=
        if SaveManager.isCodeEditorRoom roomId then
          let '(m, c) := handleYjsMessage roomId message (yjsManager (roomManager w)) in
          (upd_rm (set_yjsManager (fun _ => m)) (emit (EvApplyUpdate roomId message) w), c)
        else (w, Normal tt) in
      match applied with
      | (w1, Throw e) => (w1, Throw e)
      | (w1, Normal _) =>
          let '(w2, broadcastCount, deadClients) :=
            foldl (broadcast_visit send message sender) (w1, 0, []) (clients room) in
          let w3 := foldl (evict roomId) w2 deadClients in
          (upd_rm (set_rooms (alter (room_touch (now w3)) roomId)) w3, Normal broadcastCount)
      end
  end.

(** ** The runtime's timers *)

(** A pending timeout fires once its due time has come. *)
Definition fireTimer (handle : nat) (w : World Y) : option (World Y) :=
  match timers w !! handle with
  | Some (due, roomId) =>
      if due <=? now w then Some (graceTimerCallback roomId (upd_timers (delete handle) w))
      else None
  | None => None
  end.

Definition advance (dt : Z) (w : World Y) : World Y := set_now (now w + dt) w.

(** Time passing and timeouts firing, nothing else. *)
Inductive timer_step : World Y → World Y → Prop :=
| step_advance w dt : 0 ≤ dt → timer_step w (advance dt w)
| step_fire w handle w' : fireTimer handle w = Some w' → timer_step w w'.

Inductive timer_steps : World Y → World Y → Prop :=
| steps_refl w : timer_steps w w
| steps_cons w1 w2 w3 : timer_step w1 w2 → timer_steps w2 w3 → timer_steps w1 w3.

(** ** server.ts: the connection handler *)

(** [url.substring(1)] *)
Definition substring1 (url : string) : string :=
  match url with
  | EmptyString => ""
  | String _ rest => rest
  end.

(** [generateClientId()]; [random] stands for the base-36 digits drawn
    from [Math.random()]. *)
Definition generateClientId (t : Z) (random : string) : string :=
  "client_" +:+ pretty t +:+ "_" +:+ random.

Definition roomIdOfRequest (request : IncomingMessage) : string :=
  or_string (Some (substring1 (or_string (req_url request) ""))) "default".

Definition assigned_fields (roomId clientId clientIP : string) (t : Z)
    (s : ExtendedWebSocket) : ExtendedWebSocket :=
  {| readyState := readyState s;
     ws_roomId := Some roomId;
     ws_clientId := Some clientId;
     ws_isAlive := Some true;
     ws_connectedAt := Some t;
     ws_lastActivity := Some t;
     ws_socket := match ws_socket s with
                  | None => Some (Some clientIP)
                  | Some so => Some so
                  end |}.

Definition handleClientConnection (maxClientsPerRoom : Z) (random : string)
    (ws : nat) (request : IncomingMessage) (w : World Y) : World Y :=
  let clientIP := or_string (req_remoteAddress request) "unknown" in
  let roomId := roomIdOfRequest request in
  let clientId := generateClientId (now w) random in
  if negb (bool_decide (roomId = "default")) && negb (isAllowedRoom roomId) then
    closeSocket ws 1008 "Unauthorized room access" w
  else if bool_decide (roomId = "default") then
    closeSocket ws 1000 "Test connection" w
  else
    let '(t, accepted) := trackConnection clientIP roomId (connectionTracker w) in
    let w1 := emit (EvTrack clientIP roomId accepted) (upd_tracker (fun _ => t) w) in
    if negb accepted then
      closeSocket ws 1008 "Too many connections per IP per room" w1
    else
      let currentClientCount := getActiveClientCount roomId w1 in
      if maxClientsPerRoom <=? currentClientCount then
        let w2 := emit (EvUntrack clientIP roomId)
                    (upd_tracker (untrackConnection clientIP roomId) w1) in
        closeSocket ws 1008 "Room capacity exceeded" w2
      else
        let w2 := upd_sockets
                    <[ws := assigned_fields roomId clientId clientIP (now w1) (socket_of w1 ws)]>
                    w1 in
        let '(w3, _) := addClient roomId ws w2 in
        emit (EvListen ws) w3.

(** Both branches of the JSON test end in the same
    [roomManager.broadcast(roomId, message, ws)]; an exception is logged. *)
Definition handleClientMessage (send : nat → Buffer → bool) (ws : nat) (message : Buffer)
    (w : World Y) : World Y :=
  let s := socket_of w ws in
  if negb (isTruthy (ws_roomId s)) || negb (isTruthy (ws_clientId s)) then w
  else
    let w1 := upd_sockets <[ws := set_ws_lastActivity (now w) s]> w in
    fst (broadcast send (or_string (ws_roomId s) "") message ws w1).

Definition handleClientDisconnection (ws : nat) (code : Z) (reason : Buffer)
    (w : World Y) : World Y :=
  let s := socket_of w ws in
  if negb (isTruthy (ws_roomId s)) || negb (isTruthy (ws_clientId s)) then w
  else
    let roomId := or_string (ws_roomId s) "" in
    let '(w1, _) := removeClient roomId ws w in
    let clientIP := or_string (match ws_socket s with
                               | Some so => so
                               | None => None
                               end) "unknown" in
    emit (EvUntrack clientIP roomId) (upd_tracker (untrackConnection clientIP roomId) w1).

End Relay.

(** ** A stand-in library and sample states

    A document is its text; an update frame is a zero byte followed by the
    characters to append; any other frame is refused and changes nothing. *)

Definition standin_applyUpdate (doc : string) (bytes : Buffer) : string * bool :=
  match bytes with
  | Byte.x00 :: rest => (doc +:+ string_of_list_byte rest, true)
  | _ => (doc, false)
  end.

Definition standinYjs : YjsLib :=
  {| Doc := string;
     Y_newDoc := "";
     Y_applyUpdate := standin_applyUpdate;
     Y_encodeStateAsUpdate := fun doc => Some (Byte.x00 :: list_byte_of_string doc);
     Y_getText := fun doc name =>
       if bool_decide (name = "monaco-content") then Some doc else Some "" |}.

Definition emptyRegistry : YjsDocumentManager standinYjs :=
  {| documents := ∅; documentStates := ∅ |}.

(** The server just started: no room, no socket, no timeout. *)
Definition world0 : World standinYjs :=
  {| now := 0; sockets := ∅; timers := ∅; nextTimer := 0%nat;
     roomManager := {| rooms := ∅; gracePeriods := ∅;
                       yjsManager := emptyRegistry; gracePeriodMs := 120000 |};
     connectionTracker := ∅; trace := [] |}.

(** An open socket the transport has just accepted. *)
Definition fresh_socket : ExtendedWebSocket :=
  {| readyState := 1; ws_roomId := None; ws_clientId := None; ws_isAlive := None;
     ws_connectedAt := None; ws_lastActivity := None; ws_socket := None |}.

Definition accept (ws : nat) (w : World standinYjs) : World standinYjs :=
  upd_sockets <[ws := fresh_socket]> w.

Definition request_for (path ip : string) : IncomingMessage :=
  {| req_url := Some path; req_remoteAddress := Some ip |}.

(** [n] sockets, numbered from [first], connect to one room from one IP
    each. *)
Fixpoint connect_many (maxClientsPerRoom : Z) (path : string) (first n : nat)
    (w : World standinYjs) : World standinYjs :=
  match n with
  | O => w
  | S n' =>
      connect_many maxClientsPerRoom path (S first) n'
        (handleClientConnection maxClientsPerRoom "r" first
           (request_for path ("10.0.0." +:+ pretty first)) (accept first w))
  end.

(** ** Vocabulary of the statements *)

(** The shape "repo-<int>-<filePath>" with a non-empty path, as the
    specification words it. *)
Definition spec_repo_file_shape (roomId : string) : Prop :=
  ∃ d f, roomId = "repo-" +:+ d +:+ "-" +:+ f
         ∧ d ≠ "" ∧ string_forallb is_digit d = true ∧ f ≠ "".

Definition quota_bounded (t : Tracker) : Prop :=
  ∀ ip r, 0 ≤ quota t ip r ≤ MAX_CONNECTIONS_PER_IP_PER_ROOM.

Section Vocabulary.
Context {Y : YjsLib}.

(** The document the library is handed: the room's, or a new one. *)
Definition target_doc (roomId : string) (m : YjsDocumentManager Y) : Doc :=
  default Y_newDoc (documents m !! roomId).

Definition emit_all (es : list Event) (w : World Y) : World Y :=
  {| now := now w; sockets := sockets w; timers := timers w; nextTimer := nextTimer w;
     roomManager := roomManager w; connectionTracker := connectionTracker w;
     trace := trace w ++ es |}.

Definition is_peer (sender client : nat) : bool := negb (Nat.eqb client sender).

Definition is_open (w : World Y) (client : nat) : bool :=
  readyState (socket_of w client) =? 1.

(** The members [broadcast] tries to send to. *)
Definition attempted (sender : nat) (w : World Y) (client : nat) : bool :=
  is_peer sender client && is_open w client.

(** The members whose send returned. *)
Definition delivered (send : nat → Buffer → bool) (message : Buffer) (sender : nat)
    (w : World Y) (client : nat) : bool :=
  attempted sender w client && send client message.

(** The members that end on the dead list. *)
Definition is_dead (send : nat → Buffer → bool) (message : Buffer) (sender : nat)
    (w : World Y) (client : nat) : bool :=
  is_peer sender client && negb (is_open w client && send client message).

(** The invariant of the grace-timer set: the only timeout pending for
    the room is the one the set holds. *)
Definition sole_pending_timer (roomId : string) (timeout : nat) (w : World Y) : Prop :=
  ∀ h due, timers w !! h = Some (due, roomId) → h = timeout.

Definition is_fanout_event (e : Event) : Prop :=
  match e with
  | EvSend _ _ _ | EvEvict _ _ => True
  | _ => False
  end.

End Vocabulary.

(** ** Sample runs *)

Definition ten_tracks : list TrackerOp :=
  replicate 10 (OpTrack "203.0.113.9" "repo-1-a.ts").

(** Fifty sockets in one room, from fifty IPs. *)
Definition full_room : World standinYjs := connect_many 50 "/repo-1-a.ts" 0 50 world0.

Definition full_room_ops : list TrackerOp :=
  map (fun i : nat => OpTrack ("10.0.0." +:+ pretty i) "repo-1-a.ts") (seq 0 50).

(** Three sockets in a file-tree room; two in a code-editor room. *)
Definition tree_room : World standinYjs := connect_many 50 "/filetree-42" 0 3 world0.
Definition editor_room : World standinYjs := connect_many 50 "/repo-7-src/main.ts" 0 2 world0.

(** A socket asks for the room "repo-7", an id without a file path. *)
Definition bare_repo_join : World standinYjs :=
  handleClientConnection 50 "r" 0 (request_for "/repo-7" "203.0.113.9") (accept 0 world0).

(** A socket asks for a room of no known family. *)
Definition lobby_join : World standinYjs :=
  handleClientConnection 50 "r" 0 (request_for "/lobby" "203.0.113.9") (accept 0 world0).

(** A fifty-first socket asks for the full room. *)
Definition overflow_join : World standinYjs :=
  handleClientConnection 50 "r" 77 (request_for "/repo-1-a.ts" "198.51.100.7")
    (accept 77 full_room).

(** Every send throws; only the send to socket 1 returns. *)
Definition send_none (client : nat) (message : Buffer) : bool := false.
Definition send_only_1 (client : nat) (message : Buffer) : bool := Nat.eqb client 1.

Definition hi_frame : Buffer := [Byte.x00; Byte.x68; Byte.x69].

(** The sole client of a code-editor room leaves at time 1000: the grace
    timeout is armed; the clock then moves to one millisecond before it
    is due. *)
Definition emptied_room : World standinYjs :=
  advance 119999
    (handleClientDisconnection 0 1000 []
       (advance 1000
          (handleClientConnection 50 "r" 0 (request_for "/repo-7-foo.ts" "203.0.113.9")
             (accept 0 world0)))).

Definition rejoined_room : World standinYjs :=
  handleClientConnection 50 "r" 1 (request_for "/repo-7-foo.ts" "203.0.113.9")
    (accept 1 emptied_room).

(** * The rest of the relay *)

(** ** utils/saveManager.ts: file-tree ids *)

(** [Number.MAX_SAFE_INTEGER]: up to it [parseInt] returns the value of a
    digit run exactly and a template literal prints it in full. *)
Definition MAX_SAFE_INTEGER : Z := 9007199254740991.

(** JS: [roomId.match(/^filetree-(\d+)$/)], the capture group. *)
Definition match_fileTreeRoomId (roomId : string) : option string :=
  match string_strip_prefix "filetree-" roomId with
  | None => None
  | Some s1 =>
      let '(g1, s2) := span_digits s1 in
      if bool_decide (g1 = "") then None
      else if bool_decide (s2 = "") then Some g1 else None
  end.

Definition parseFileTreeRoomId (roomId : string) : option Z :=
  match match_fileTreeRoomId roomId with
  | None => None
  | Some g1 => parseInt10 g1                 (* isNaN(repositoryId) ? null : repositoryId *)
  end.

(** ** utils/yjsDocumentManager.ts: the calls that change the registry *)

Inductive RegistryOp : Type :=
| OpMessage (roomId : string) (message : Buffer)
| OpCleanup (roomId : string)
| OpCleanupAll.

Section RegistryRuns.
Context {Y : YjsLib}.

Definition registry_step (op : RegistryOp) (m : YjsDocumentManager Y) : YjsDocumentManager Y :=
  match op with
  | OpMessage r message => fst (handleYjsMessage r message m)
  | OpCleanup r => cleanupDocument r m
  | OpCleanupAll => cleanupAllDocuments m
  end.

Definition registry_after (ops : list RegistryOp) : YjsDocumentManager Y :=
  foldl (fun m op => registry_step op m) {| documents := ∅; documentStates := ∅ |} ops.

End RegistryRuns.

(** ** class RoomManager: the sweeps

    [Map.forEach] visits the rooms in insertion order, which a [gmap] does
    not keep: the sweeps take the keys in that order as [order].  A
    callback removes at most the room it is visiting and adds none, so a
    key that is gone when its turn comes is skipped. *)

(** What [getServerStatus] reads from the relay ([uptime] and
    [memoryUsage] are readings of the process). *)
Record ServerStatus : Type := {
  totalRooms : Z;
  totalClients : Z;
  codeEditorRooms : Z;
  fileTreeRooms : Z;
  gracePeriodRooms : Z;
  documentsInMemory : Z;
}.

Definition set_isAlive (b : bool) (s : ExtendedWebSocket) : ExtendedWebSocket :=
  {| readyState := readyState s; ws_roomId := ws_roomId s; ws_clientId := ws_clientId s;
     ws_isAlive := Some b; ws_connectedAt := ws_connectedAt s;
     ws_lastActivity := ws_lastActivity s; ws_socket := ws_socket s |}.

(** The test of [cleanupInactiveClients]. *)
Definition isInactive (s : ExtendedWebSocket) : bool :=
  negb (readyState s =? 1) || bool_decide (ws_isAlive s = Some false)
  || negb (isTruthy (ws_clientId s)) || negb (isTruthy (ws_roomId s)).

(** The test of the heartbeat: [!ws.isAlive || ws.readyState !== 1 ||
    !ws.roomId || !ws.clientId]. *)
Definition failsHeartbeat (s : ExtendedWebSocket) : bool :=
  negb (bool_decide (ws_isAlive s = Some true)) || negb (readyState s =? 1)
  || negb (isTruthy (ws_roomId s)) || negb (isTruthy (ws_clientId s)).

Section Sweeps.
Context {Y : YjsLib}.

(** [ws.terminate()]: the transport is torn down; the relay reads it back
    as a socket that is no longer open. *)
Definition terminateSocket (client : nat) (w : World Y) : World Y :=
  upd_sockets (alter (fun s => if readyState s =? 3 then s else set_readyState 2 s) client) w.

Definition room_size (w : World Y) (roomId : string) : nat :=
  match room_of w roomId with
  | Some room => length (clients room)
  | None => 0%nat
  end.

(** One turn of the outer [forEach] of [cleanupInactiveClients]. *)
Definition reapRoom (acc : World Y * Z) (roomId : string) : World Y * Z :=
  let '(w, cleanedCount) := acc in
  match room_of w roomId with
  | None => acc
  | Some room =>
      let deadClients :=
        List.filter (fun client => isInactive (socket_of w client)) (clients room) in
      let beforeSize := length (clients room) in
      let '(w1, cleaned) :=
        foldl (fun '(w, n) deadClient => (evict roomId w deadClient, n + 1))
              (w, cleanedCount) deadClients in
      let afterSize := room_size w1 roomId in
      if negb (Nat.eqb beforeSize afterSize) && Nat.eqb afterSize 0
      then (startGracePeriod roomId w1, cleaned)
      else (w1, cleaned)
  end.

Definition cleanupInactiveClients (order : list string) (w : World Y) : World Y * Z :=
  foldl reapRoom (w, 0) order.

(** One turn of the [forEach] of [cleanupEmptyRooms]. *)
Definition sweepRoom (acc : World Y * Z) (roomId : string) : World Y * Z :=
  let '(w, cleanedCount) := acc in
  match room_of w roomId with
  | None => acc
  | Some _ =>
      if (getActiveClientCount roomId w =? 0)
         && negb (bool_decide (is_Some (gracePeriods (roomManager w) !! roomId)))
      then (cleanupRoom roomId w, cleanedCount + 1)
      else acc
  end.

Definition cleanupEmptyRooms (order : list string) (w : World Y) : World Y * Z :=
  foldl sweepRoom (w, 0) order.

Definition getClientCount (roomId : string) (w : World Y) : Z :=
  getActiveClientCount roomId w.

Definition getServerStatus (order : list string) (w : World Y) : ServerStatus :=
  {| totalRooms := Z.of_nat (size (rooms (roomManager w)));
     totalClients :=
       foldl (fun totalActiveClients roomId =>
                match room_of w roomId with
                | Some room => totalActiveClients + getActiveClientCount (room_id room) w
                | None => totalActiveClients
                end) 0 order;
     codeEditorRooms :=
       Z.of_nat (length (List.filter
         (fun roomId => bool_decide (is_Some (room_of w roomId))
                        && SaveManager.isCodeEditorRoom roomId) order));
     fileTreeRooms :=
       Z.of_nat (length (List.filter
         (fun roomId => bool_decide (is_Some (room_of w roomId))
                        && SaveManager.isFileTreeRoom roomId) order));
     gracePeriodRooms := Z.of_nat (size (gracePeriods (roomManager w)));
     documentsInMemory := Z.of_nat (size (documents (yjsManager (roomManager w)))) |}.

(** The inner loop of [forceCleanupAll] on one member. *)
Definition forceClose (acc : World Y * Z) (client : nat) : World Y * Z :=
  let '(w, cleanedCount) := acc in
  let w1 := if readyState (socket_of w client) =? 1
            then closeSocket client 1008 "Force cleanup" w else w in
  (terminateSocket client w1, cleanedCount + 1).

Definition forceRoom (acc : World Y * Z) (roomId : string) : World Y * Z :=
  let '(w, cleanedCount) := acc in
  match room_of w roomId with
  | None => acc
  | Some room =>
      let '(w1, cleaned) := foldl forceClose (w, cleanedCount) (clients room) in
      (cleanupRoom roomId w1, cleaned)
  end.

(** [gracePeriods.forEach(clearTimeout); gracePeriods.clear()], the keys
    of the grace-timer set taken in their order. *)
Definition clearGracePeriods (graceOrder : list string) (w : World Y) : World Y :=
  let w1 := foldl (fun w roomId =>
                     match gracePeriods (roomManager w) !! roomId with
                     | Some timeout =>
                         emit (EvClearTimeout timeout) (upd_timers (delete timeout) w)
                     | None => w
                     end) w graceOrder in
  upd_rm (set_gracePeriods (fun _ => ∅)) w1.

Definition forceCleanupAll (order graceOrder : list string) (w : World Y) : World Y * Z :=
  let '(w1, cleanedCount) := foldl forceRoom (w, 0) order in
  (clearGracePeriods graceOrder w1, cleanedCount).

(** [RoomManager.shutdown]. *)
Definition shutdown (order graceOrder : list string) (w : World Y) : World Y :=
  let w1 := clearGracePeriods graceOrder w in
  let w2 := foldl (fun w roomId =>
                     match room_of w roomId with
                     | None => w
                     | Some room =>
                         foldl (fun w client =>
                                  if readyState (socket_of w client) =? 1
                                  then closeSocket client 1001 "Server shutting down" w
                                  else w) w (clients room)
                     end) w1 order in
  upd_rm (set_yjsManager cleanupAllDocuments) (upd_rm (set_rooms (fun _ => ∅)) w2).

(** ** server.ts: the tickers and the pong handler *)

(** [ws.on('pong', ...)] *)
Definition handlePong (ws : nat) (w : World Y) : World Y :=
  upd_sockets (alter (fun s => set_ws_lastActivity (now w) (set_isAlive true s)) ws) w.

(** One turn of the heartbeat over [wss.clients]; [ping ws] says whether
    [ws.ping()] returns.  The pair counts pings sent and sockets
    terminated. *)
Definition heartbeatVisit (ping : nat → bool) (acc : World Y * (Z * Z)) (ws : nat)
    : World Y * (Z * Z) :=
  let '(w, (pingCount, terminatedCount)) := acc in
  if failsHeartbeat (socket_of w ws)
  then (terminateSocket ws w, (pingCount, terminatedCount + 1))
  else
    let w1 := upd_sockets (alter (set_isAlive false) ws) w in
    if ping ws then (w1, (pingCount + 1, terminatedCount))
    else (terminateSocket ws w1, (pingCount, terminatedCount + 1)).

Definition heartbeat (ping : nat → bool) (wssClients : list nat) (w : World Y)
    : World Y * (Z * Z) :=
  foldl (heartbeatVisit ping) (w, (0, 0)) wssClients.

(** The body of the 20-second interval of [setupCleanupInterval]. *)
Definition reapTick (order graceOrder : list string) (w : World Y) : World Y :=
  let '(w1, _) := cleanupInactiveClients order w in
  let '(w2, _) := cleanupEmptyRooms order w1 in
  if 100 <? totalClients (getServerStatus order w2) then
    let '(w3, _) := forceCleanupAll order graceOrder w2 in
    upd_tracker (fun _ => ∅) w3
  else w2.

End Sweeps.

(** ** Vocabulary of the further statements *)

(** What [close] and [terminate] make of a socket. *)
Definition closing (s : ExtendedWebSocket) : ExtendedWebSocket :=
  if readyState s =? 3 then s else set_readyState 2 s.

Section Vocabulary2.
Context {Y : YjsLib}.

(** A snapshot is stored only beside a document. *)
Definition snapshots_have_documents (m : YjsDocumentManager Y) : Prop :=
  ∀ r, is_Some (documentStates m !! r) → is_Some (documents m !! r).

(** The members of a list that count as active. *)
Definition active_in (w : World Y) (l : list nat) : list nat :=
  List.filter (fun c => isActive (socket_of w c)) l.

(** The room [addClient] leaves behind. *)
Definition joined (client : nat) (roomId : string) (w : World Y) : RoomInfo :=
  match room_of w roomId with
  | Some room => if has_client client room then room else room_add client (now w) room
  | None => room_add client (now w) (newRoom roomId (now w))
  end.

(** The sockets of [w'] are those of [w], some of them closed since. *)
Definition only_closes (w w' : World Y) : Prop :=
  ∀ c, socket_of w' c = socket_of w c ∨ socket_of w' c = closing (socket_of w c).

(** The test of [cleanupEmptyRooms] on a room that exists. *)
Definition is_swept (w : World Y) (roomId : string) : bool :=
  bool_decide (is_Some (room_of w roomId))
  && (getActiveClientCount roomId w =? 0)
  && negb (bool_decide (is_Some (gracePeriods (roomManager w) !! roomId))).

(** *** What holds of every state the server reaches *)

(** Timeout handles are handed out in increasing order. *)
Definition timers_fresh (w : World Y) : Prop :=
  ∀ h, is_Some (timers w !! h) → (h < nextTimer w)%nat.

(** The timeout a grace entry names is pending, and is the room's. *)
Definition grace_entries_pending (w : World Y) : Prop :=
  ∀ r h, gracePeriods (roomManager w) !! r = Some h → ∃ due, timers w !! h = Some (due, r).

(** A grace entry belongs to a code-editor room that still exists. *)
Definition grace_rooms_exist (w : World Y) : Prop :=
  ∀ r, is_Some (gracePeriods (roomManager w) !! r) →
       is_Some (room_of w r) ∧ SaveManager.isCodeEditorRoom r = true.

(** A document is held only for a code-editor room that still exists. *)
Definition documents_have_rooms (w : World Y) : Prop :=
  ∀ r, is_Some (documents (yjsManager (roomManager w)) !! r) →
       is_Some (room_of w r) ∧ SaveManager.isCodeEditorRoom r = true.

(** A member set holds a socket once. *)
Definition members_distinct (w : World Y) : Prop :=
  ∀ r room, room_of w r = Some room → NoDup (clients room).

(** A member of a room carries the id of that room. *)
Definition members_carry_room (w : World Y) : Prop :=
  ∀ r room c, room_of w r = Some room → In c (clients room) →
              ws_roomId (socket_of w c) = Some r.

(** A room is stored under its own id, and the id passed the gate of the
    connection handler. *)
Definition rooms_allowed (w : World Y) : Prop :=
  ∀ r room, room_of w r = Some room →
            isAllowedRoom r = true ∧ r ≠ "default" ∧ room_id room = r.

Record rooms_inv (w : World Y) : Prop := {
  inv_documents : documents_have_rooms w;
  inv_snapshots : snapshots_have_documents (yjsManager (roomManager w));
  inv_distinct : members_distinct w;
  inv_carry : members_carry_room w;
  inv_allowed : rooms_allowed w;
}.

Record grace_inv (w : World Y) : Prop := {
  inv_fresh : timers_fresh w;
  inv_pending : grace_entries_pending w;
  inv_exist : grace_rooms_exist w;
}.

(** [w'] comes from [w] by closing sockets, dropping members, destroying
    rooms with their documents, and arming or dropping timeouts. *)
Record shrinks (w w' : World Y) : Prop := {
  shr_ids : ∀ c r, ws_roomId (socket_of w c) = Some r → ws_roomId (socket_of w' c) = Some r;
  shr_rooms : ∀ r room', room_of w' r = Some room' →
      ∃ room, room_of w r = Some room ∧ room_id room' = room_id room
              ∧ (∀ c, In c (clients room') → In c (clients room))
              ∧ (NoDup (clients room) → NoDup (clients room'));
  shr_docs : ∀ r,
      (documents (yjsManager (roomManager w')) !! r = documents (yjsManager (roomManager w)) !! r
       ∧ documentStates (yjsManager (roomManager w')) !! r
         = documentStates (yjsManager (roomManager w)) !! r)
      ∨ (documents (yjsManager (roomManager w')) !! r = None
         ∧ documentStates (yjsManager (roomManager w')) !! r = None);
  shr_gone : ∀ r, is_Some (room_of w r) → room_of w' r = None →
      SaveManager.isCodeEditorRoom r = true →
      documents (yjsManager (roomManager w')) !! r = None;
  shr_tracker : connectionTracker w' = connectionTracker w;
  shr_next : (nextTimer w ≤ nextTimer w')%nat;
  shr_timers : ∀ h, is_Some (timers w' !! h) →
      is_Some (timers w !! h) ∨ (h < nextTimer w')%nat;
}.

(** All of it together. *)
Definition relay_inv (w : World Y) : Prop :=
  rooms_inv w ∧ grace_inv w ∧ tracker_wf (connectionTracker w).

End Vocabulary2.

(** ** The server as a whole: what can happen next *)

Section Server.
Context {Y : YjsLib}.

(** The [shutdown] closure of [setupGracefulShutdown], up to the exit of
    the process. *)
Definition gracefulShutdown (wssClients : list nat) (order graceOrder : list string)
    (w : World Y) : World Y :=
  let w1 := foldl (fun w ws => closeSocket ws 1001 "Server shutting down" w) w wssClients in
  upd_tracker (fun _ => ∅) (shutdown order graceOrder w1).

(** [order] lists the keys of [m], each once. *)
Definition lists_keys {A} (order : list string) (m : gmap string A) : Prop :=
  NoDup order ∧ ∀ k, In k order ↔ is_Some (m !! k).

(** The connection handler has registered its handlers on [ws]. *)
Definition listening (ws : nat) (w : World Y) : Prop := In (EvListen ws) (trace w).

(** The four gates of the connection handler: the id is not "default", it
    belongs to an allowed family, the pair of IP and room is below its
    quota, and the room is below its capacity. *)
Definition passes_gates (maxClientsPerRoom : Z) (request : IncomingMessage) (w : World Y)
    : bool :=
  let roomId := roomIdOfRequest request in
  let clientIP := or_string (req_remoteAddress request) "unknown" in
  negb (bool_decide (roomId = "default")) && isAllowedRoom roomId
  && (quota (connectionTracker w) clientIP roomId <? MAX_CONNECTIONS_PER_IP_PER_ROOM)
  && (getActiveClientCount roomId w <? maxClientsPerRoom).

(** The server before its first connection. *)
Definition initial (w : World Y) : Prop :=
  sockets w = ∅ ∧ timers w = ∅
  ∧ rooms (roomManager w) = ∅ ∧ gracePeriods (roomManager w) = ∅
  ∧ documents (yjsManager (roomManager w)) = ∅
  ∧ documentStates (yjsManager (roomManager w)) = ∅
  ∧ connectionTracker w = ∅ ∧ trace w = [].

(** One event of the server: a connection on a new socket; a message, a
    close or error, or a pong on a socket that is listened to; the
    transport closing a socket; a turn of the heartbeat or of the cleanup
    interval; a timeout firing; time passing; the shutdown signal. *)
Inductive server_step (maxClientsPerRoom : Z) : World Y → World Y → Prop :=
| step_connection w random ws request :
    sockets w !! ws = None →
    server_step maxClientsPerRoom w
      (handleClientConnection maxClientsPerRoom random ws request
         (upd_sockets <[ws := fresh_socket]> w))
| step_message w send ws message :
    listening ws w →
    server_step maxClientsPerRoom w (handleClientMessage send ws message w)
| step_close w ws code reason :
    listening ws w →
    server_step maxClientsPerRoom w (handleClientDisconnection ws code reason w)
| step_pong w ws :
    listening ws w →
    server_step maxClientsPerRoom w (handlePong ws w)
| step_transport w ws state :
    readyState (socket_of w ws) ≤ state ≤ 3 →
    server_step maxClientsPerRoom w (upd_sockets (alter (set_readyState state) ws) w)
| step_heartbeat w ping wssClients :
    server_step maxClientsPerRoom w (fst (heartbeat ping wssClients w))
| step_cleanup w order graceOrder :
    lists_keys order (rooms (roomManager w)) →
    lists_keys graceOrder
      (gracePeriods (roomManager
         (fst (cleanupEmptyRooms order (fst (cleanupInactiveClients order w)))))) →
    server_step maxClientsPerRoom w (reapTick order graceOrder w)
| step_timeout w handle w' :
    fireTimer handle w = Some w' →
    server_step maxClientsPerRoom w w'
| step_time w dt :
    0 ≤ dt →
    server_step maxClientsPerRoom w (advance dt w)
| step_shutdown w wssClients order graceOrder :
    lists_keys order (rooms (roomManager w)) →
    lists_keys graceOrder (gracePeriods (roomManager w)) →
    server_step maxClientsPerRoom w (gracefulShutdown wssClients order graceOrder w).

Inductive server_steps (maxClientsPerRoom : Z) : World Y → World Y → Prop :=
| server_refl w : server_steps maxClientsPerRoom w w
| server_snoc w1 w2 w3 :
    server_steps maxClientsPerRoom w1 w2 → server_step maxClientsPerRoom w2 w3 →
    server_steps maxClientsPerRoom w1 w3.

(** A state the server reaches from its start. *)
Definition reachable (maxClientsPerRoom : Z) (w : World Y) : Prop :=
  ∃ w0, initial w0 ∧ server_steps maxClientsPerRoom w0 w.

End Server.

(** ** More sample runs *)

(** Two sockets in a code-editor room; the heartbeat has pinged both and
    no pong has come back. *)
Definition pinged_room : World standinYjs :=
  fst (heartbeat (fun _ => true) [0%nat; 1%nat] editor_room).

(** Two sockets in a room whose file path starts with a slash. *)
Definition slash_path_room : World standinYjs :=
  connect_many 50 "/repo-7-/src/main.ts" 0 2 world0.

(** The transport closes a socket; its close event follows. *)
Definition transport_closes (ws : nat) (w : World standinYjs) : World standinYjs :=
  upd_sockets (alter (set_readyState 3) ws) w.

(** Two sockets in a code-editor room are pinged at 30000 and close
    before they answer, at 30010 and 30020.  Each close finds no active
    member and arms a timeout, the second over the first in the
    grace-timer set. *)
Definition twice_emptied_room : World standinYjs :=
  handleClientDisconnection 1 1001 []
    (transport_closes 1
       (advance 10
          (handleClientDisconnection 0 1001 []
             (transport_closes 0
                (advance 10
                   (fst (heartbeat (fun _ => true) [0%nat; 1%nat]
                      (advance 30000 (connect_many 50 "/repo-7-foo.ts" 0 2 world0))))))))).

(** A third socket joins at 140000, ten seconds before the first timeout
    is due. *)
Definition late_join : World standinYjs :=
  handleClientConnection 50 "r" 2 (request_for "/repo-7-foo.ts" "10.0.0.2")
    (accept 2 (advance 109980 twice_emptied_room)).

(** The heartbeat pings the third socket at 150000; at 150010 its pong
    has not come back. *)
Definition late_join_pinged : World standinYjs :=
  advance 10 (fst (heartbeat (fun _ => true) [2%nat] (advance 10000 late_join))).

(** A stand-in library that is not atomic when it refuses: a frame of a
    byte 2 followed by characters appends the characters and then
    throws. *)
Definition tearing_applyUpdate (doc : string) (bytes : Buffer) : string * bool :=
  match bytes with
  | Byte.x00 :: rest => (doc +:+ string_of_list_byte rest, true)
  | Byte.x02 :: rest => (doc +:+ string_of_list_byte rest, false)
  | _ => (doc, false)
  end.

Definition tearingYjs : YjsLib :=
  {| Doc := string;
     Y_newDoc := "";
     Y_applyUpdate := tearing_applyUpdate;
     Y_encodeStateAsUpdate := fun doc => Some (Byte.x00 :: list_byte_of_string doc);
     Y_getText := fun doc name =>
       if bool_decide (name = "monaco-content") then Some doc else Some "" |}.

(** A registry of that library holding the text "hi" for one room. *)
Definition torn_registry : YjsDocumentManager tearingYjs :=
  fst (handleYjsMessage "repo-7-a.ts" hi_frame {| documents := ∅; documentStates := ∅ |}).

Definition torn_frame : Buffer := [Byte.x02; Byte.x78].


(** * Properties *)

(** ** The matcher decides the language *)

Module RegexFacts.

Lemma append_nil_l (s : string) : "" +:+ s = s.
Proof. reflexivity. Qed.

Lemma append_cons a (s1 s2 : string) : String a s1 +:+ s2 = String a (s1 +:+ s2).
Proof. reflexivity. Qed.

Ltac str_simpl := rewrite ?append_cons, ?append_nil_l in *.

Lemma app_empty_inv (s1 s2 : string) : s1 +:+ s2 = "" → s1 = "" ∧ s2 = "".
Proof. destruct s1; str_simpl; [auto | discriminate]. Qed.

Lemma app_empty_r (s : string) : s +:+ "" = s.
Proof. induction s; str_simpl; congruence. Qed.

Lemma app_cons_inv (s1 s2 : string) a s :
  s1 +:+ s2 = String a s →
  (s1 = "" ∧ s2 = String a s) ∨ (∃ s1', s1 = String a s1' ∧ s = s1' +:+ s2).
Proof.
  destruct s1 as [|b s1']; str_simpl; intros E.
  - left; auto.
  - right. injection E as -> <-. eauto.
Qed.

Lemma nullable_sound r : nullable r = true → lang r "".
Proof.
  induction r; simpl; intros E; try discriminate.
  - constructor.
  - apply andb_prop in E as [E1 E2].
    change "" with ("" +:+ ""). constructor; auto.
  - apply orb_prop in E as [E|E]; [apply lang_alt_l | apply lang_alt_r]; auto.
  - constructor.
Qed.

Lemma nullable_complete r s : lang r s → s = "" → nullable r = true.
Proof.
  induction 1; simpl; intros E; try reflexivity; try discriminate.
  - apply app_empty_inv in E as [-> ->]. rewrite IHlang1, IHlang2; auto.
  - rewrite IHlang; auto.
  - rewrite IHlang; auto using orb_true_r.
Qed.

Lemma nullable_lang r : nullable r = true ↔ lang r "".
Proof. split; [apply nullable_sound | intros H; eapply nullable_complete; eauto]. Qed.

Lemma deriv_sound a r : ∀ s, lang (deriv a r) s → lang r (String a s).
Proof.
  induction r; simpl; intros s H.
  - inversion H.
  - inversion H.
  - destruct (b a) eqn:E; inversion H; subst. constructor; auto.
  - destruct (nullable r1) eqn:N.
    + inversion H; subst.
      * inversion H3; subst.
        change (String a (s1 +:+ s2)) with (String a s1 +:+ s2).
        constructor; auto.
      * change (String a s) with ("" +:+ String a s).
        constructor; auto. apply nullable_sound; auto.
    + inversion H; subst.
      change (String a (s1 +:+ s2)) with (String a s1 +:+ s2).
      constructor; auto.
  - inversion H; subst; [apply lang_alt_l | apply lang_alt_r]; auto.
  - inversion H; subst.
    change (String a (s1 +:+ s2)) with (String a s1 +:+ s2).
    constructor; auto.
Qed.

Lemma deriv_complete r s' : lang r s' → ∀ a s, s' = String a s → lang (deriv a r) s.
Proof.
  induction 1; intros c t E; simpl.
  - discriminate.
  - injection E as -> <-. rewrite H. constructor.
  - apply app_cons_inv in E as [[-> ->] | (s1' & -> & ->)].
    + rewrite (nullable_complete _ _ H eq_refl).
      apply lang_alt_r. eauto.
    + destruct (nullable r1).
      * apply lang_alt_l. constructor; eauto.
      * constructor; eauto.
  - apply lang_alt_l; eauto.
  - apply lang_alt_r; eauto.
  - discriminate.
  - apply app_cons_inv in E as [[-> ->] | (s1' & -> & ->)].
    + apply (IHlang2 c t eq_refl).
    + constructor; eauto.
Qed.

Lemma matches_lang r s : matches r s = true ↔ lang r s.
Proof.
  revert r. induction s as [|a s IH]; intros r; simpl.
  - apply nullable_lang.
  - rewrite IH. split; [apply deriv_sound | intros H; eapply deriv_complete; eauto].
Qed.

Lemma lang_cat_inv r1 r2 s :
  lang (Cat r1 r2) s → ∃ s1 s2, s = s1 +:+ s2 ∧ lang r1 s1 ∧ lang r2 s2.
Proof. inversion 1; subst; eauto. Qed.

Lemma lang_class_inv p s : lang (Class p) s → ∃ a, s = String a "" ∧ p a = true.
Proof. inversion 1; subst; eauto. Qed.

Lemma lang_chr c s : lang (chr c) s ↔ s = String c "".
Proof.
  unfold chr. split.
  - intros (a & -> & Ha)%lang_class_inv.
    apply bool_decide_eq_true_1 in Ha. congruence.
  - intros ->. constructor. apply bool_decide_eq_true_2. reflexivity.
Qed.

Lemma lang_lit p s : lang (lit p) s ↔ s = p.
Proof.
  revert s. induction p as [|a p IH]; intros s; simpl.
  - split; [inversion 1; auto | intros ->; constructor].
  - split.
    + intros (s1 & s2 & -> & H1 & H2)%lang_cat_inv.
      apply lang_chr in H1 as ->. apply IH in H2 as ->. reflexivity.
    + intros ->. change (String a p) with (String a "" +:+ p).
      constructor; [apply lang_chr | apply IH]; reflexivity.
Qed.

Lemma lang_star_class p s : lang (Star (Class p)) s ↔ string_forallb p s = true.
Proof.
  split.
  - intros H. remember (Star (Class p)) as r eqn:E.
    induction H; try discriminate; injection E as ->.
    + reflexivity.
    + apply lang_class_inv in H as (a & -> & Ha). str_simpl. simpl.
      rewrite Ha, IHlang2; auto.
  - induction s as [|a s IH]; simpl; intros H.
    + constructor.
    + apply andb_prop in H as [Ha Hs].
      change (String a s) with (String a "" +:+ s).
      constructor; [constructor|]; auto.
Qed.

Lemma lang_plus_class p s :
  lang (plus (Class p)) s ↔ s ≠ "" ∧ string_forallb p s = true.
Proof.
  unfold plus. split.
  - intros (s1 & s2 & -> & H1 & H2)%lang_cat_inv.
    apply lang_class_inv in H1 as (a & -> & Ha).
    apply lang_star_class in H2. str_simpl.
    split; [discriminate|]. simpl. rewrite Ha, H2. reflexivity.
  - intros [Hne H]. destruct s as [|a s]; [contradiction|].
    simpl in H. apply andb_prop in H as [Ha Hs].
    change (String a s) with (String a "" +:+ s).
    constructor; [constructor | apply lang_star_class]; auto.
Qed.

End RegexFacts.
Import RegexFacts.

(** ** The classifier on ids of the repo family *)

(** The shape "repo-<int>" followed by whatever [tail] a pattern allows. *)
Lemma lang_repo_int tail_re d tail :
  d ≠ "" → string_forallb is_digit d = true → lang tail_re tail →
  lang (Cat (lit "repo-") (Cat (plus (Class is_digit)) tail_re)) ("repo-" +:+ d +:+ tail).
Proof.
  intros Hne Hd Ht. constructor; [apply lang_lit; reflexivity|].
  constructor; [apply lang_plus_class|]; auto.
Qed.

Lemma bare_repo_id_allowed d :
  d ≠ "" → string_forallb is_digit d = true →
  isAllowedRoom ("repo-" +:+ d) = true ∧ isAllowedRoom ("repo-" +:+ d +:+ "-") = true.
Proof.
  intros Hne Hd. unfold isAllowedRoom, isCodeEditorRoom, test_anchored, re_server_codeEditor.
  split.
  - replace ("repo-" +:+ d) with ("repo-" +:+ d +:+ "")
      by (f_equal; apply app_empty_r).
    rewrite (proj2 (matches_lang _ _)); [reflexivity|].
    apply lang_repo_int; auto. apply lang_alt_r. constructor.
  - rewrite (proj2 (matches_lang _ _)); [reflexivity|].
    apply lang_repo_int; auto. apply lang_alt_l.
    change "-" with ("-" +:+ ""). constructor; [apply lang_chr; reflexivity | constructor].
Qed.

(** ** Parsing a room id *)

Lemma strip_prefix_spec p s r : string_strip_prefix p s = Some r ↔ s = p +:+ r.
Proof.
  revert s. induction p as [|a p IH]; intros s; simpl; str_simpl.
  - split; congruence.
  - destruct s as [|b s].
    + split; discriminate.
    + case_bool_decide as E.
      * subst b. rewrite IH. split; congruence.
      * split; [discriminate | congruence].
Qed.

Lemma span_digits_spec s d r :
  span_digits s = (d, r) →
  s = d +:+ r ∧ string_forallb is_digit d = true
  ∧ match r with String a _ => is_digit a = false | EmptyString => True end.
Proof.
  revert d r. induction s as [|a s IH]; simpl; intros d r E.
  - injection E as <- <-. auto.
  - destruct (is_digit a) eqn:Ha.
    + destruct (span_digits s) as [d' r'] eqn:Es.
      injection E as <- <-. destruct (IH d' r' eq_refl) as (-> & Hd & Hr).
      str_simpl. simpl. rewrite Ha, Hd. auto.
    + injection E as <- <-. str_simpl. auto.
Qed.

Lemma span_digits_app d r :
  string_forallb is_digit d = true →
  match r with String a _ => is_digit a = false | EmptyString => True end →
  span_digits (d +:+ r) = (d, r).
Proof.
  intros Hd Hr. induction d as [|a d IH]; str_simpl; simpl in *.
  - destruct r as [|b r]; [reflexivity|]. simpl. rewrite Hr. reflexivity.
  - apply andb_prop in Hd as [Ha Hd]. rewrite Ha, (IH Hd). reflexivity.
Qed.

Lemma match_parseRoomId_Some s g1 g2 :
  match_parseRoomId s = Some (g1, g2) →
  s = "repo-" +:+ g1 +:+ "-" +:+ g2
  ∧ g1 ≠ "" ∧ string_forallb is_digit g1 = true
  ∧ g2 ≠ "" ∧ string_forallb is_dot g2 = true.
Proof.
  unfold match_parseRoomId. intros H.
  destruct (string_strip_prefix "repo-" s) as [s1|] eqn:E1; [|discriminate].
  apply strip_prefix_spec in E1 as ->.
  destruct (span_digits s1) as [d r] eqn:E2.
  apply span_digits_spec in E2 as (-> & Hd & _).
  case_bool_decide as Hne; [discriminate|].
  destruct r as [|a f]; [discriminate|].
  destruct (bool_decide (a = "-"%char)) eqn:Ea; [|discriminate].
  destruct (bool_decide (f = "")) eqn:Ef; [discriminate|].
  destruct (string_forallb is_dot f) eqn:Hf; [|discriminate].
  simpl in H. injection H as <- <-.
  apply bool_decide_eq_true_1 in Ea as ->. apply bool_decide_eq_false_1 in Ef.
  auto.
Qed.

Lemma match_parseRoomId_groups d f :
  d ≠ "" → string_forallb is_digit d = true →
  f ≠ "" → string_forallb is_dot f = true →
  match_parseRoomId ("repo-" +:+ d +:+ "-" +:+ f) = Some (d, f).
Proof.
  intros Hd1 Hd2 Hf1 Hf2. unfold match_parseRoomId.
  rewrite (proj2 (strip_prefix_spec "repo-" _ (d +:+ "-" +:+ f)) eq_refl).
  rewrite span_digits_app by (str_simpl; auto).
  rewrite bool_decide_eq_false_2 by assumption. str_simpl.
  rewrite bool_decide_eq_true_2 by reflexivity.
  rewrite (bool_decide_eq_false_2 (f = "")) by assumption.
  rewrite Hf2. reflexivity.
Qed.

(** The hand-written group extraction accepts what the pattern accepts. *)
Lemma match_parseRoomId_regex s :
  is_Some (match_parseRoomId s) ↔ test_anchored re_parseRoomId s = true.
Proof.
  unfold test_anchored. rewrite matches_lang. split.
  - intros [[g1 g2] H]. apply match_parseRoomId_Some in H as (-> & ? & ? & ? & ?).
    unfold re_parseRoomId. apply lang_repo_int; auto.
    change ("-" +:+ g2) with (String "-" "" +:+ g2).
    constructor; [apply lang_chr | apply lang_plus_class]; auto.
  - unfold re_parseRoomId.
    intros (s1 & s2 & -> & H1 & H2)%lang_cat_inv.
    apply lang_lit in H1 as ->.
    apply lang_cat_inv in H2 as (d & s3 & -> & Hd & H3).
    apply lang_plus_class in Hd as [Hd1 Hd2].
    apply lang_cat_inv in H3 as (c & f & -> & Hc & Hf).
    apply lang_chr in Hc as ->. apply lang_plus_class in Hf as [Hf1 Hf2].
    exists (d, f). apply match_parseRoomId_groups; auto.
Qed.

Lemma parseRoomId_shape roomId p :
  parseRoomId roomId = Some p → spec_repo_file_shape roomId.
Proof.
  unfold parseRoomId. intros H.
  destruct (match_parseRoomId roomId) as [[g1 g2]|] eqn:E; [|discriminate].
  apply match_parseRoomId_Some in E as (-> & ? & ? & ? & ?).
  exists g1, g2. auto.
Qed.

(** On what the pattern lets through, neither guard of [parseRoomId] fires. *)
Lemma parseRoomId_total_on_match roomId :
  is_Some (match_parseRoomId roomId) → is_Some (parseRoomId roomId).
Proof.
  intros [[g1 g2] E]. unfold parseRoomId. rewrite E.
  apply match_parseRoomId_Some in E as (_ & Hne & Hd & Hf & _).
  unfold parseInt10.
  assert (span_digits g1 = (g1, "")) as ->.
  { rewrite <- (app_empty_r g1) at 1. apply span_digits_app; auto. }
  rewrite bool_decide_eq_false_2 by assumption.
  rewrite bool_decide_eq_false_2 by assumption. eauto.
Qed.

(** ** The save trigger *)

(** Claim C10.  For every content string, [triggerSaveAPI] called with a
    room id that is not of the shape "repo-<int>-<filePath>" with a
    non-empty path (or that the pattern of [parseRoomId] does not match)
    settles normally, without throwing, and issues no HTTP request. *)
Theorem triggerSaveAPI_skips_foreign_room (apiBaseUrl : string)
    (fetch : HttpRequest → FetchResult) (roomId content : string) :
  ¬ spec_repo_file_shape roomId ∨ test_anchored re_parseRoomId roomId = false →
  SaveManager.triggerSaveAPI apiBaseUrl fetch roomId content = ([], Normal tt).
Proof.
  intros Hshape. unfold SaveManager.triggerSaveAPI.
  destruct (parseRoomId roomId) as [p|] eqn:E; [|reflexivity].
  exfalso. destruct Hshape as [Hshape|Hre].
  - eauto using parseRoomId_shape.
  - assert (Hm : is_Some (match_parseRoomId roomId)).
    { unfold parseRoomId in E. destruct (match_parseRoomId roomId); [eauto|discriminate]. }
    apply match_parseRoomId_regex in Hm. congruence.
Qed.

Lemma triggerSaveAPI_skips_foreign_room_witness :
  SaveManager.triggerSaveAPI "http://localhost:3000/api"
    (fun _ => FetchResponse true 200 "OK" (Some "{}")) "filetree-42" "text"
  = ([], Normal tt).
Proof.
  apply triggerSaveAPI_skips_foreign_room.
  right. vm_compute. reflexivity.
Defined.

(** A room id of the shape does reach the API: one PUT, with the parsed
    fields. *)
Example triggerSaveAPI_saves_editor_room :
  SaveManager.triggerSaveAPI "http://localhost:3000/api"
    (fun _ => FetchResponse true 200 "OK" (Some "{}")) "repo-7-src/main.ts" "text"
  = ([ {| http_url := "http://localhost:3000/api/repositories/7/files/content";
          http_method := "PUT";
          http_contentType := "application/json";
          http_body := {| req_filePath := "src/main.ts"; req_content := "text";
                          req_source := "yjs-collaboration" |} |} ],
     Normal tt).
Proof. vm_compute. reflexivity. Qed.

(** ** The connection tracker *)

Section TrackerFacts.
Implicit Types (t : gmap string (gmap string Z)) (ip r : string).

Lemma trackConnection_unfold ip r t :
  trackConnection ip r t =
    if MAX_CONNECTIONS_PER_IP_PER_ROOM <=? quota t ip r
    then (match t !! ip with None => <[ip := ∅]> t | Some _ => t end, false)
    else (<[ip := <[r := quota t ip r + 1]> (default ∅ (t !! ip))]> t, true).
Proof.
  unfold trackConnection, quota.
  destruct (t !! ip) as [m|] eqn:E; simpl.
  - rewrite E. reflexivity.
  - rewrite lookup_insert_eq. simpl. rewrite insert_insert_eq. reflexivity.
Qed.

Lemma quota_absent ip r t : t !! ip = None → quota t ip r = 0.
Proof. unfold quota. intros ->. reflexivity. Qed.

Lemma trackConnection_refuses ip r t :
  MAX_CONNECTIONS_PER_IP_PER_ROOM ≤ quota t ip r → trackConnection ip r t = (t, false).
Proof.
  intros H. rewrite trackConnection_unfold.
  destruct (Z.leb_spec MAX_CONNECTIONS_PER_IP_PER_ROOM (quota t ip r)); [|lia].
  destruct (t !! ip) eqn:E; [reflexivity|].
  rewrite (quota_absent _ _ _ E) in H. unfold MAX_CONNECTIONS_PER_IP_PER_ROOM in H. lia.
Qed.

Lemma trackConnection_accepts ip r t :
  quota t ip r < MAX_CONNECTIONS_PER_IP_PER_ROOM →
  trackConnection ip r t
  = (<[ip := <[r := quota t ip r + 1]> (default ∅ (t !! ip))]> t, true).
Proof.
  intros H. rewrite trackConnection_unfold.
  destruct (Z.leb_spec MAX_CONNECTIONS_PER_IP_PER_ROOM (quota t ip r)); [lia|reflexivity].
Qed.

Lemma quota_insert ip r n m t ip' r' :
  quota (<[ip := <[r := n]> m]> t) ip' r'
  = if bool_decide (ip' = ip) then
      if bool_decide (r' = r) then n else or_zero (m !! r')
    else quota t ip' r'.
Proof.
  unfold quota. case_bool_decide as Eip.
  - subst ip'. rewrite lookup_insert_eq. simpl.
    case_bool_decide as Er.
    + subst r'. rewrite lookup_insert_eq. reflexivity.
    + rewrite lookup_insert_ne by congruence. reflexivity.
  - rewrite lookup_insert_ne by congruence. reflexivity.
Qed.

Lemma quota_track ip r t ip' r' :
  quota t ip r < MAX_CONNECTIONS_PER_IP_PER_ROOM →
  quota (fst (trackConnection ip r t)) ip' r'
  = if bool_decide (ip' = ip ∧ r' = r) then quota t ip r + 1 else quota t ip' r'.
Proof.
  intros H. rewrite trackConnection_accepts by assumption. simpl.
  rewrite quota_insert. repeat case_bool_decide; try reflexivity; try tauto.
  subst. reflexivity.
Qed.

Lemma quota_untrack ip r t ip' r' :
  quota (untrackConnection ip r t) ip' r'
  = if bool_decide (ip' = ip ∧ r' = r)
    then (if quota t ip r <=? 1 then 0 else quota t ip r - 1)
    else quota t ip' r'.
Proof.
  unfold untrackConnection.
  destruct (t !! ip) as [m|] eqn:E.
  - assert (Hq : quota t ip r = or_zero (m !! r)) by (unfold quota; rewrite E; reflexivity).
    rewrite <- Hq.
    destruct (quota t ip r <=? 1) eqn:Hle.
    + case_bool_decide as Hsz.
      * apply map_size_empty_iff in Hsz.
        unfold quota at 1.
        destruct (decide (ip' = ip)) as [->|Hne].
        -- rewrite lookup_delete_eq. simpl. rewrite lookup_empty. simpl.
           case_bool_decide as Hp; [reflexivity|].
           unfold quota. rewrite E. simpl.
           assert (r' ≠ r) by (intros ->; tauto).
           rewrite <- (lookup_delete_ne m r r') by congruence.
           rewrite Hsz, lookup_empty. reflexivity.
        -- rewrite lookup_delete_ne by congruence.
           rewrite bool_decide_eq_false_2 by tauto. reflexivity.
      * unfold quota at 1.
        destruct (decide (ip' = ip)) as [->|Hne].
        -- rewrite lookup_insert_eq. simpl.
           case_bool_decide as Hp.
           ++ destruct Hp as [_ ->]. rewrite lookup_delete_eq. reflexivity.
           ++ assert (r' ≠ r) by (intros ->; tauto).
              rewrite lookup_delete_ne by congruence.
              unfold quota. rewrite E. reflexivity.
        -- rewrite lookup_insert_ne by congruence.
           rewrite bool_decide_eq_false_2 by tauto. reflexivity.
    + rewrite quota_insert.
      repeat case_bool_decide; subst; try reflexivity; try tauto.
      unfold quota. rewrite E. reflexivity.
  - case_bool_decide as Hp; [|reflexivity].
    destruct Hp as [-> ->]. rewrite (quota_absent _ _ _ E). reflexivity.
Qed.

Lemma quota_empty ip r : quota ∅ ip r = 0.
Proof. unfold quota. rewrite lookup_empty. reflexivity. Qed.

Lemma quota_bounded_step op t : quota_bounded t → quota_bounded (tracker_step op t).
Proof.
  intros Hb ip' r'. destruct op as [ip r|ip r|]; simpl.
  - destruct (Z.lt_ge_cases (quota t ip r) MAX_CONNECTIONS_PER_IP_PER_ROOM) as [Hlt|Hge].
    + rewrite quota_track by assumption.
      case_bool_decide; [|apply Hb]. pose proof (Hb ip r). lia.
    + rewrite trackConnection_refuses by assumption. apply Hb.
  - rewrite quota_untrack. pose proof (Hb ip r).
    case_bool_decide; [|apply Hb].
    destruct (Z.leb_spec (quota t ip r) 1); unfold MAX_CONNECTIONS_PER_IP_PER_ROOM in *; lia.
  - rewrite quota_empty. unfold MAX_CONNECTIONS_PER_IP_PER_ROOM. lia.
Qed.

Lemma tracker_after_snoc ops op :
  tracker_after (ops ++ [op]) = tracker_step op (tracker_after ops).
Proof. unfold tracker_after. rewrite foldl_app. reflexivity. Qed.

Lemma tracker_after_ind (P : gmap string (gmap string Z) → Prop) :
  P ∅ → (∀ op t, P t → P (tracker_step op t)) → ∀ ops, P (tracker_after ops).
Proof.
  intros H0 Hs ops. induction ops as [|op ops IH] using rev_ind.
  - exact H0.
  - rewrite tracker_after_snoc. auto.
Qed.

Lemma quota_bounded_reachable ops : quota_bounded (tracker_after ops).
Proof.
  apply tracker_after_ind.
  - intros ip r. rewrite quota_empty. unfold MAX_CONNECTIONS_PER_IP_PER_ROOM. lia.
  - intros. apply quota_bounded_step; assumption.
Qed.


Lemma stored_count_quota ip r m n t :
  t !! ip = Some m → m !! r = Some n → quota t ip r = n.
Proof. unfold quota. intros -> H. simpl. rewrite H. reflexivity. Qed.

Lemma tracker_wf_empty : tracker_wf ∅.
Proof.
  split.
  - intros ip m r n H. rewrite lookup_empty in H. discriminate.
  - intros ip m H. rewrite lookup_empty in H. discriminate.
Qed.

Lemma tracker_wf_track ip r t : tracker_wf t → tracker_wf (fst (trackConnection ip r t)).
Proof.
  intros [Hc He].
  destruct (Z.lt_ge_cases (quota t ip r) MAX_CONNECTIONS_PER_IP_PER_ROOM) as [Hlt|Hge].
  2: { rewrite trackConnection_refuses by assumption. split; assumption. }
  rewrite trackConnection_accepts by assumption. simpl.
  assert (Hq : 0 ≤ quota t ip r).
  { unfold quota. destruct (t !! ip) as [m|] eqn:E; simpl.
    - destruct (m !! r) as [n|] eqn:Er; simpl; [|lia].
      pose proof (Hc ip m r n E Er). lia.
    - rewrite lookup_empty. simpl. lia. }
  split.
  - intros ip' m' r' n Hip Hr.
    destruct (decide (ip' = ip)) as [->|Hne].
    + rewrite lookup_insert_eq in Hip. injection Hip as <-.
      destruct (decide (r' = r)) as [->|Hner].
      * rewrite lookup_insert_eq in Hr. injection Hr as <-. lia.
      * rewrite lookup_insert_ne in Hr by congruence.
        destruct (t !! ip) as [m|] eqn:E; simpl in Hr.
        -- eapply Hc; eauto.
        -- rewrite lookup_empty in Hr. discriminate.
    + rewrite lookup_insert_ne in Hip by congruence. eapply Hc; eauto.
  - intros ip' m' Hip.
    destruct (decide (ip' = ip)) as [->|Hne].
    + rewrite lookup_insert_eq in Hip. injection Hip as <-. apply insert_non_empty.
    + rewrite lookup_insert_ne in Hip by congruence. eapply He; eauto.
Qed.

Lemma tracker_wf_untrack ip r t : tracker_wf t → tracker_wf (untrackConnection ip r t).
Proof.
  intros [Hc He]. unfold untrackConnection.
  destruct (t !! ip) as [m|] eqn:E; [|split; assumption].
  destruct (Z.leb_spec (or_zero (m !! r)) 1) as [Hle|Hgt].
  - case_bool_decide as Hsz.
    + split.
      * intros ip' m' r' n Hip Hr. apply lookup_delete_Some in Hip as [_ Hip].
        eapply Hc; eauto.
      * intros ip' m' Hip. apply lookup_delete_Some in Hip as [_ Hip].
        eapply He; eauto.
    + split.
      * intros ip' m' r' n Hip Hr.
        destruct (decide (ip' = ip)) as [->|Hne].
        -- rewrite lookup_insert_eq in Hip. injection Hip as <-.
           apply lookup_delete_Some in Hr as [_ Hr]. eapply Hc; eauto.
        -- rewrite lookup_insert_ne in Hip by congruence. eapply Hc; eauto.
      * intros ip' m' Hip.
        destruct (decide (ip' = ip)) as [->|Hne].
        -- rewrite lookup_insert_eq in Hip. injection Hip as <-.
           apply map_size_non_empty_iff. assumption.
        -- rewrite lookup_insert_ne in Hip by congruence. eapply He; eauto.
  - assert (Hub : or_zero (m !! r) ≤ MAX_CONNECTIONS_PER_IP_PER_ROOM).
    { destruct (m !! r) as [n|] eqn:Er; simpl in *; [|lia].
      pose proof (Hc ip m r n E Er). lia. }
    split.
    + intros ip' m' r' n Hip Hr.
      destruct (decide (ip' = ip)) as [->|Hne].
      * rewrite lookup_insert_eq in Hip. injection Hip as <-.
        destruct (decide (r' = r)) as [->|Hner].
        -- rewrite lookup_insert_eq in Hr. injection Hr as <-. lia.
        -- rewrite lookup_insert_ne in Hr by congruence. eapply Hc; eauto.
      * rewrite lookup_insert_ne in Hip by congruence. eapply Hc; eauto.
    + intros ip' m' Hip.
      destruct (decide (ip' = ip)) as [->|Hne].
      * rewrite lookup_insert_eq in Hip. injection Hip as <-. apply insert_non_empty.
      * rewrite lookup_insert_ne in Hip by congruence. eapply He; eauto.
Qed.

Lemma tracker_wf_reachable ops : tracker_wf (tracker_after ops).
Proof.
  apply tracker_after_ind; [apply tracker_wf_empty|].
  intros [ip r|ip r|] t H; simpl;
    auto using tracker_wf_track, tracker_wf_untrack, tracker_wf_empty.
Qed.

(** Releasing a pair that holds nothing changes nothing. *)
Lemma untrackConnection_untracked ip r t :
  tracker_wf t → quota t ip r = 0 → untrackConnection ip r t = t.
Proof.
  intros [Hc He] Hq. unfold untrackConnection.
  destruct (t !! ip) as [m|] eqn:E; [|reflexivity].
  assert (Hr : m !! r = None).
  { destruct (m !! r) as [n|] eqn:Er; [|reflexivity].
    pose proof (Hc ip m r n E Er). rewrite (stored_count_quota _ _ _ _ _ E Er) in Hq. lia. }
  rewrite Hr. simpl. rewrite (delete_id _ _ Hr).
  rewrite bool_decide_eq_false_2.
  - apply insert_id. assumption.
  - apply map_size_non_empty_iff. eapply He; eauto.
Qed.

(** Admission followed by release gives the table back. *)
Lemma untrack_after_track ip r t :
  tracker_wf t → quota t ip r < MAX_CONNECTIONS_PER_IP_PER_ROOM →
  untrackConnection ip r (fst (trackConnection ip r t)) = t.
Proof.
  intros [Hc He] Hlt. rewrite trackConnection_accepts by assumption. simpl.
  unfold untrackConnection. rewrite lookup_insert_eq. rewrite lookup_insert_eq. simpl.
  unfold quota. destruct (t !! ip) as [m|] eqn:E; simpl.
  - destruct (m !! r) as [n|] eqn:Er; simpl.
    + pose proof (Hc ip m r n E Er) as Hn.
      destruct (Z.leb_spec (n + 1) 1); [lia|].
      rewrite insert_insert_eq. rewrite insert_insert_eq.
      replace (n + 1 - 1) with n by lia.
      rewrite (insert_id m) by assumption. apply insert_id. assumption.
    + simpl. rewrite delete_insert_eq. rewrite (delete_id _ _ Er).
      rewrite bool_decide_eq_false_2
        by (apply map_size_non_empty_iff; eapply He; eauto).
      rewrite insert_insert_eq. apply insert_id. assumption.
  - rewrite lookup_empty. simpl. rewrite delete_insert_eq, delete_empty.
    rewrite bool_decide_eq_true_2 by (apply map_size_empty_iff; reflexivity).
    rewrite delete_insert_eq. apply delete_id. assumption.
Qed.

End TrackerFacts.

(** Claim C4.  At every moment, for every (ip, roomId) pair, the count
    the tracker holds is at most MAX_CONNECTIONS_PER_IP_PER_ROOM (10);
    [trackConnection] returns false and leaves the table as it is when the
    count of the pair equals the cap, and otherwise adds one to that count
    (and to no other) and returns true. *)
Theorem quota_never_exceeds_cap (ops : list TrackerOp) (clientIP roomId : string) :
  let t := tracker_after ops in
  quota t clientIP roomId ≤ MAX_CONNECTIONS_PER_IP_PER_ROOM
  ∧ (quota t clientIP roomId = MAX_CONNECTIONS_PER_IP_PER_ROOM →
     trackConnection clientIP roomId t = (t, false))
  ∧ (quota t clientIP roomId ≠ MAX_CONNECTIONS_PER_IP_PER_ROOM →
     snd (trackConnection clientIP roomId t) = true
     ∧ quota (fst (trackConnection clientIP roomId t)) clientIP roomId
       = quota t clientIP roomId + 1
     ∧ ∀ ip r, ¬ (ip = clientIP ∧ r = roomId) →
         quota (fst (trackConnection clientIP roomId t)) ip r = quota t ip r).
Proof.
  intros t. pose proof (quota_bounded_reachable ops clientIP roomId) as Hb.
  fold t in Hb. split; [lia|]. split.
  - intros E. apply trackConnection_refuses. lia.
  - intros Hne.
    assert (Hlt : quota t clientIP roomId < MAX_CONNECTIONS_PER_IP_PER_ROOM) by lia.
    split; [rewrite trackConnection_accepts by assumption; reflexivity|]. split.
    + rewrite quota_track by assumption.
      rewrite bool_decide_eq_true_2 by auto. reflexivity.
    + intros ip r Hother. rewrite quota_track by assumption.
      rewrite bool_decide_eq_false_2 by assumption. reflexivity.
Qed.

(** The eleventh connection of one IP to one room is refused. *)
Lemma quota_never_exceeds_cap_witness :
  quota (tracker_after ten_tracks) "203.0.113.9" "repo-1-a.ts"
  = MAX_CONNECTIONS_PER_IP_PER_ROOM
  ∧ trackConnection "203.0.113.9" "repo-1-a.ts" (tracker_after ten_tracks)
    = (tracker_after ten_tracks, false)
  ∧ snd (trackConnection "203.0.113.9" "filetree-42" (tracker_after ten_tracks)) = true
  ∧ quota (fst (trackConnection "203.0.113.9" "filetree-42" (tracker_after ten_tracks)))
      "203.0.113.9" "filetree-42" = 0 + 1.
Proof.
  split; [vm_compute; reflexivity|]. split.
  - pose proof (quota_never_exceeds_cap ten_tracks "203.0.113.9" "repo-1-a.ts") as H.
    cbv zeta in H. destruct H as (_ & H & _).
    apply H. vm_compute. reflexivity.
  - pose proof (quota_never_exceeds_cap ten_tracks "203.0.113.9" "filetree-42") as H.
    cbv zeta in H. destruct H as (_ & _ & H).
    destruct H as (Hok & Hq & _); [vm_compute; discriminate|].
    split; [exact Hok|]. rewrite Hq. vm_compute. reflexivity.
Defined.

(** Claim C9.  [untrackConnection] on a pair that holds no connection
    leaves the table as it is, and every count the table stores is at
    least 1: a release at count 1 deletes the room entry, and the IP entry
    with it when the inner map is left empty (so no inner map is ever
    stored empty); a release above 1 stores the count less one. *)
Theorem untrack_never_stores_zero (ops : list TrackerOp) (clientIP roomId : string) :
  let t := tracker_after ops in
  (∀ ip ipRooms r n, t !! ip = Some ipRooms → ipRooms !! r = Some n → 1 ≤ n)
  ∧ (∀ ip ipRooms, t !! ip = Some ipRooms → ipRooms ≠ ∅)
  ∧ (quota t clientIP roomId = 0 → untrackConnection clientIP roomId t = t)
  ∧ (∀ ipRooms, t !! clientIP = Some ipRooms → ipRooms !! roomId = Some 1 →
     untrackConnection clientIP roomId t
     = if bool_decide (delete roomId ipRooms = ∅) then delete clientIP t
       else <[clientIP := delete roomId ipRooms]> t)
  ∧ (∀ ipRooms n, t !! clientIP = Some ipRooms → ipRooms !! roomId = Some n → 1 < n →
     untrackConnection clientIP roomId t
     = <[clientIP := <[roomId := n - 1]> ipRooms]> t).
Proof.
  intros t. pose proof (tracker_wf_reachable ops) as Hwf. fold t in Hwf.
  destruct Hwf as [Hc He]. repeat split.
  - intros ip m r n Hip Hr. pose proof (Hc ip m r n Hip Hr). lia.
  - exact He.
  - apply untrackConnection_untracked. split; assumption.
  - intros m Hip Hr. unfold untrackConnection. rewrite Hip, Hr. simpl.
    destruct (decide (size (delete roomId m) = 0%nat)) as [Hsz|Hsz].
    + rewrite bool_decide_eq_true_2 by assumption.
      rewrite bool_decide_eq_true_2 by (apply map_size_empty_iff; assumption). reflexivity.
    + rewrite bool_decide_eq_false_2 by assumption.
      rewrite bool_decide_eq_false_2 by (apply map_size_non_empty_iff; assumption). reflexivity.
  - intros m n Hip Hr Hn. unfold untrackConnection. rewrite Hip, Hr. simpl.
    destruct (Z.leb_spec n 1); [lia|reflexivity].
Qed.

(** Ten connections are tracked for one room; a release for another room
    of the same IP changes nothing. *)
Lemma untrack_never_stores_zero_witness :
  quota (tracker_after ten_tracks) "203.0.113.9" "filetree-42" = 0
  ∧ untrackConnection "203.0.113.9" "filetree-42" (tracker_after ten_tracks)
    = tracker_after ten_tracks
  ∧ untrackConnection "203.0.113.9" "repo-1-a.ts" (tracker_after ten_tracks)
    = <["203.0.113.9" := <["repo-1-a.ts" := 10 - 1]> {["repo-1-a.ts" := 10]}]>
        (tracker_after ten_tracks).
Proof.
  split; [vm_compute; reflexivity|]. split.
  - pose proof (untrack_never_stores_zero ten_tracks "203.0.113.9" "filetree-42") as H.
    cbv zeta in H. destruct H as (_ & _ & H & _).
    apply H. vm_compute. reflexivity.
  - pose proof (untrack_never_stores_zero ten_tracks "203.0.113.9" "repo-1-a.ts") as H.
    cbv zeta in H. destruct H as (_ & _ & _ & _ & H).
    apply H; [vm_compute; reflexivity | vm_compute; reflexivity | lia].
Defined.

(** Admission, release, admission: the count goes 1, gone, 1. *)
Example quota_round_trip :
  let t1 := fst (trackConnection "203.0.113.9" "repo-1-a.ts" ∅) in
  quota t1 "203.0.113.9" "repo-1-a.ts" = 1
  ∧ untrackConnection "203.0.113.9" "repo-1-a.ts" t1 = ∅.
Proof. split; vm_compute; reflexivity. Qed.

(** ** The document registry *)

Section DocumentFacts.
Context {Y : YjsLib}.
Implicit Types (m : YjsDocumentManager Y) (roomId : string) (message : Buffer).

Lemma manager_eq m1 m2 :
  documents m1 = documents m2 → documentStates m1 = documentStates m2 → m1 = m2.
Proof. destruct m1, m2; simpl; intros -> ->; reflexivity. Qed.

Lemma handleYjsMessage_empty roomId m : handleYjsMessage roomId [] m = (m, Normal tt).
Proof. reflexivity. Qed.

Lemma handleYjsMessage_unfold roomId message m :
  message ≠ [] →
  handleYjsMessage roomId message m =
    let doc := target_doc roomId m in
    let doc' := fst (Y_applyUpdate doc message) in
    let m1 := set_documents <[roomId := doc']> m in
    if snd (Y_applyUpdate doc message) then
      match Y_encodeStateAsUpdate doc' with
      | Some state => (set_documentStates <[roomId := state]> m1, Normal tt)
      | None => (m1, Normal tt)
      end
    else (m1, Normal tt).
Proof.
  intros Hne. unfold handleYjsMessage, target_doc.
  rewrite bool_decide_eq_false_2 by (destruct message; simpl; [congruence|discriminate]).
  assert (Hset : ∀ d d', set_documents <[roomId := d']> (set_documents <[roomId := d]> m)
                       = set_documents <[roomId := d']> m).
  { intros. apply manager_eq; simpl; [apply insert_insert_eq | reflexivity]. }
  destruct (documents m !! roomId) as [doc|] eqn:E; simpl.
  - rewrite E. unfold applyAndSnapshot.
    destruct (Y_applyUpdate doc message) as [doc' [|]]; simpl;
      [destruct (Y_encodeStateAsUpdate doc')|]; reflexivity.
  - rewrite lookup_insert_eq. unfold applyAndSnapshot.
    destruct (Y_applyUpdate Y_newDoc message) as [doc' [|]]; simpl;
      [destruct (Y_encodeStateAsUpdate doc')|]; simpl; rewrite ?Hset; reflexivity.
Qed.

Lemma handleYjsMessage_returns roomId message m :
  snd (handleYjsMessage roomId message m) = Normal tt.
Proof.
  destruct message as [|b message]; [reflexivity|].
  rewrite handleYjsMessage_unfold by discriminate. simpl.
  destruct (snd (Y_applyUpdate _ _)); [destruct (Y_encodeStateAsUpdate _)|]; reflexivity.
Qed.

(** Claim C8.  For every room id, [getDocumentContent] returns the
    current string of the text field named "monaco-content" of the room's
    document when the room has one, and the empty string when it has
    none. *)
Theorem getDocumentContent_reads_monaco_content roomId m :
  (documents m !! roomId = None → getDocumentContent roomId m = "")
  ∧ (∀ doc content, documents m !! roomId = Some doc →
       Y_getText doc "monaco-content" = Some content →
       getDocumentContent roomId m = content).
Proof.
  unfold getDocumentContent. split.
  - intros ->. reflexivity.
  - intros doc content -> ->. reflexivity.
Qed.

(** Claim C7, as amended.  For every room id and payload,
    [handleYjsMessage] returns normally.  When the library refuses the
    frame, no snapshot is stored and no other room's document changes,
    but the call is not a no-op in general: the registry afterwards holds
    for the room the document as the library left it when it threw, the
    room's own or one created for it.  Only if the library's refusal
    leaves the document untouched (a property of the library, which the
    code does not ensure) is that the document the room had, or a new
    empty one when it had none, and with a document already there the
    call then changes nothing.  When the library applies the frame and
    encodes the state, the document and the encoded snapshot are
    stored. *)
Theorem handleYjsMessage_contains_rejection roomId message m :
  let doc := target_doc roomId m in
  let m' := fst (handleYjsMessage roomId message m) in
  snd (handleYjsMessage roomId message m) = Normal tt
  ∧ (message ≠ [] → snd (Y_applyUpdate doc message) = false →
       documentStates m' = documentStates m
       ∧ documents m' = <[roomId := fst (Y_applyUpdate doc message)]> (documents m)
       ∧ (reject_is_atomic Y → documents m' = <[roomId := doc]> (documents m))
       ∧ (reject_is_atomic Y → is_Some (documents m !! roomId) → m' = m))
  ∧ (message ≠ [] → snd (Y_applyUpdate doc message) = true →
       ∀ state, Y_encodeStateAsUpdate (fst (Y_applyUpdate doc message)) = Some state →
       documents m' = <[roomId := fst (Y_applyUpdate doc message)]> (documents m)
       ∧ documentStates m' = <[roomId := state]> (documentStates m)).
Proof.
  intros doc m'. split; [apply handleYjsMessage_returns|]. split.
  - intros Hne Hrej. subst m'. rewrite handleYjsMessage_unfold by assumption.
    fold doc. simpl. rewrite Hrej. simpl.
    split; [reflexivity|]. split; [reflexivity|]. split.
    + intros Hat. rewrite (Hat doc message Hrej). reflexivity.
    + intros Hat [d Hd]. rewrite (Hat doc message Hrej).
      apply manager_eq; simpl; [|reflexivity].
      apply insert_id. subst doc. unfold target_doc. rewrite Hd. reflexivity.
  - intros Hne Hok state Hst. subst m'. rewrite handleYjsMessage_unfold by assumption.
    fold doc. simpl. rewrite Hok, Hst. simpl. auto.
Qed.

End DocumentFacts.

Lemma standin_atomic : reject_is_atomic standinYjs.
Proof.
  intros doc bytes. simpl. unfold standin_applyUpdate.
  destruct bytes as [|[] rest]; simpl; congruence.
Qed.

(** A room with text "hi" and a room without a document. *)
Lemma getDocumentContent_reads_monaco_content_witness :
  getDocumentContent "repo-7-a.ts"
    (fst (handleYjsMessage "repo-7-a.ts" [Byte.x00; Byte.x68; Byte.x69] emptyRegistry)) = "hi"
  ∧ getDocumentContent "repo-7-b.ts"
      (fst (handleYjsMessage "repo-7-a.ts" [Byte.x00; Byte.x68; Byte.x69] emptyRegistry)) = "".
Proof.
  split.
  - pose proof (getDocumentContent_reads_monaco_content (Y := standinYjs) "repo-7-a.ts"
        (fst (handleYjsMessage "repo-7-a.ts" [Byte.x00; Byte.x68; Byte.x69] emptyRegistry)))
      as [_ H].
    apply (H "hi"); vm_compute; reflexivity.
  - pose proof (getDocumentContent_reads_monaco_content (Y := standinYjs) "repo-7-b.ts"
        (fst (handleYjsMessage "repo-7-a.ts" [Byte.x00; Byte.x68; Byte.x69] emptyRegistry)))
      as [H _].
    apply H. vm_compute. reflexivity.
Defined.

(** An awareness frame to a room without a document, with a library that
    refuses atomically: nothing is thrown, no snapshot is stored, the
    room's empty document is there.  An update frame: document and
    snapshot are stored.  A frame that a library refuses after a partial
    write: no snapshot is stored, and the room's document is the one the
    library left, not the one the room had. *)
Lemma handleYjsMessage_contains_rejection_witness :
  (documentStates (fst (handleYjsMessage "repo-7-a.ts" [Byte.x01] emptyRegistry)) = ∅
   ∧ documents (fst (handleYjsMessage "repo-7-a.ts" [Byte.x01] emptyRegistry))
     = <[ "repo-7-a.ts" := "" ]> ∅)
  ∧ (documents (fst (handleYjsMessage "repo-7-a.ts" hi_frame emptyRegistry))
     = <[ "repo-7-a.ts" := "hi" ]> ∅
     ∧ documentStates (fst (handleYjsMessage "repo-7-a.ts" hi_frame emptyRegistry))
       = <[ "repo-7-a.ts" := hi_frame ]> ∅)
  ∧ (snd (handleYjsMessage "repo-7-a.ts" torn_frame torn_registry) = Normal tt
     ∧ documents torn_registry !! "repo-7-a.ts" = Some "hi"
     ∧ documentStates (fst (handleYjsMessage "repo-7-a.ts" torn_frame torn_registry))
       = documentStates torn_registry
     ∧ documents (fst (handleYjsMessage "repo-7-a.ts" torn_frame torn_registry))
         !! "repo-7-a.ts" = Some "hix").
Proof.
  split; [|split].
  - destruct (handleYjsMessage_contains_rejection (Y := standinYjs)
                "repo-7-a.ts" [Byte.x01] emptyRegistry) as (_ & Hrej & _).
    destruct Hrej as (Hs & _ & Hd & _); [discriminate | reflexivity |].
    split; [exact Hs | exact (Hd standin_atomic)].
  - destruct (handleYjsMessage_contains_rejection (Y := standinYjs)
                "repo-7-a.ts" hi_frame emptyRegistry) as (_ & _ & Hok).
    apply (Hok ltac:(discriminate) eq_refl hi_frame eq_refl).
  - destruct (handleYjsMessage_contains_rejection (Y := tearingYjs)
                "repo-7-a.ts" torn_frame torn_registry) as (Hret & Hrej & _).
    destruct Hrej as (Hs & Hd & _); [discriminate | reflexivity |].
    split; [exact Hret|]. split; [reflexivity|]. split; [exact Hs|].
    rewrite Hd. rewrite lookup_insert_eq. reflexivity.
Defined.

(** Claim C7 as stated fails: the library refuses the one-byte frame, yet
    the call is not a no-op, for the registry now holds a document for
    the room and [getDocumentInfo] reports that it exists. *)
Lemma refused_frame_creates_document :
  snd (@Y_applyUpdate standinYjs Y_newDoc [Byte.x01]) = false
  ∧ fst (handleYjsMessage "repo-7-a.ts" [Byte.x01] emptyRegistry) ≠ emptyRegistry
  ∧ fst (getDocumentInfo "repo-7-a.ts" emptyRegistry) = (false, 0)
  ∧ fst (getDocumentInfo "repo-7-a.ts"
           (fst (handleYjsMessage "repo-7-a.ts" [Byte.x01] emptyRegistry))) = (true, 0).
Proof.
  split; [reflexivity|]. split; [|split; reflexivity].
  intros E. apply (f_equal (fun m => documents m !! "repo-7-a.ts")) in E.
  vm_compute in E. discriminate E.
Qed.

(** The library of [torn_registry] does not refuse atomically. *)
Example tearing_not_atomic : ¬ reject_is_atomic tearingYjs.
Proof. intros H. specialize (H "hi" torn_frame eq_refl). discriminate H. Qed.

(** With a document already there, a frame refused atomically changes
    nothing. *)
Example refused_frame_on_existing_document :
  let m := fst (handleYjsMessage "repo-7-a.ts" [Byte.x00; Byte.x68; Byte.x69] emptyRegistry) in
  handleYjsMessage "repo-7-a.ts" [Byte.x01] m = (m, Normal tt).
Proof. vm_compute. reflexivity. Qed.

(** ** The relay *)

Section RelayFacts.
Context {Y : YjsLib}.
Implicit Types (w : World Y) (roomId : string) (message : Buffer).

Lemma world_eq w1 w2 :
  now w1 = now w2 → sockets w1 = sockets w2 → timers w1 = timers w2 →
  nextTimer w1 = nextTimer w2 → roomManager w1 = roomManager w2 →
  connectionTracker w1 = connectionTracker w2 → trace w1 = trace w2 → w1 = w2.
Proof. destruct w1, w2; simpl; intros; subst; reflexivity. Qed.

Lemma emit_all_nil w : emit_all [] w = w.
Proof. apply world_eq; simpl; auto using app_nil_r. Qed.

Lemma emit_emit_all e es w : emit e (emit_all es w) = emit_all (es ++ [e]) w.
Proof. apply world_eq; simpl; auto. rewrite app_assoc. reflexivity. Qed.

Lemma emit_all_emit_all es1 es2 w : emit_all es2 (emit_all es1 w) = emit_all (es1 ++ es2) w.
Proof. apply world_eq; simpl; auto. rewrite app_assoc. reflexivity. Qed.

Lemma addClient_tracker roomId client w :
  connectionTracker (fst (addClient roomId client w)) = connectionTracker w.
Proof.
  unfold addClient.
  destruct (gracePeriods (roomManager w) !! roomId); simpl;
    repeat match goal with
           | |- context [match room_of ?w ?r with _ => _ end] => destruct (room_of w r)
           | |- context [if has_client ?c ?r then _ else _] => destruct (has_client c r)
           end; reflexivity.
Qed.

(** The handler keeps the tracker well formed. *)
Lemma handleClientConnection_tracker_wf maxClientsPerRoom random ws request w :
  tracker_wf (connectionTracker w) →
  tracker_wf (connectionTracker
                (handleClientConnection maxClientsPerRoom random ws request w)).
Proof.
  intros Hwf. unfold handleClientConnection.
  set (ip := or_string (req_remoteAddress request) "unknown").
  set (r := roomIdOfRequest request).
  destruct (negb (bool_decide (r = "default")) && negb (isAllowedRoom r)); [exact Hwf|].
  destruct (bool_decide (r = "default")); [exact Hwf|].
  pose proof (tracker_wf_track ip r _ Hwf) as Ht.
  destruct (trackConnection ip r (connectionTracker w)) as [t ok]. simpl in Ht.
  destruct ok; simpl; [|exact Ht].
  match goal with |- context [if ?b then _ else _] => destruct b end.
  - simpl. apply tracker_wf_untrack. exact Ht.
  - match goal with |- context [addClient ?r ?c ?w0] =>
      pose proof (addClient_tracker r c w0) as Ha; destruct (addClient r c w0) as [w3 n]
    end.
    simpl in *. rewrite Ha. exact Ht.
Qed.

(** Claim C3, as amended.  A newly accepted connection whose room id is
    not "default" and matches none of the three patterns of server.ts
    (repo-<int> with an optional dash and tail, filetree-<int>,
    savepoint-<int>) is closed with 1008 "Unauthorized room access"; no
    room and no quota entry changes.  An id "repo-<int>", with or without
    a trailing dash, matches the first pattern and is not refused here. *)
Theorem unsupported_room_is_refused :
  (∀ (maxClientsPerRoom : Z) (random : string) (ws : nat)
     (request : IncomingMessage) (w : World Y),
     roomIdOfRequest request ≠ "default" →
     isAllowedRoom (roomIdOfRequest request) = false →
     let w' := handleClientConnection maxClientsPerRoom random ws request w in
     trace w' = trace w ++ [EvClose ws 1008 "Unauthorized room access"]
     ∧ roomManager w' = roomManager w
     ∧ connectionTracker w' = connectionTracker w)
  ∧ (∀ d : string, d ≠ "" → string_forallb Regex.is_digit d = true →
     isAllowedRoom ("repo-" +:+ d) = true ∧ isAllowedRoom ("repo-" +:+ d +:+ "-") = true).
Proof.
  split.
  - intros maxClientsPerRoom random ws request w Hd Ha w'. subst w'.
    unfold handleClientConnection.
    rewrite (bool_decide_eq_false_2 _ Hd), Ha. simpl. auto.
  - exact bare_repo_id_allowed.
Qed.

(** Claim C5.  When the active client count of the room has reached
    maxClientsPerRoom, the handler, having just taken a quota slot for the
    pair, releases it and then closes the socket with 1008 "Room capacity
    exceeded": the quota table and the rooms are as before the call. *)
Theorem capacity_refusal_releases_quota (maxClientsPerRoom : Z) (random : string)
    (ws : nat) (request : IncomingMessage) (w : World Y) :
  let roomId := roomIdOfRequest request in
  let clientIP := or_string (req_remoteAddress request) "unknown" in
  tracker_wf (connectionTracker w) →
  roomId ≠ "default" →
  isAllowedRoom roomId = true →
  quota (connectionTracker w) clientIP roomId < MAX_CONNECTIONS_PER_IP_PER_ROOM →
  maxClientsPerRoom ≤ getActiveClientCount roomId w →
  let w' := handleClientConnection maxClientsPerRoom random ws request w in
  trace w' = trace w ++ [EvTrack clientIP roomId true; EvUntrack clientIP roomId;
                         EvClose ws 1008 "Room capacity exceeded"]
  ∧ connectionTracker w' = connectionTracker w
  ∧ roomManager w' = roomManager w.
Proof.
  intros roomId clientIP Hwf Hd Ha Hq Hfull w'. subst w'.
  unfold handleClientConnection. fold roomId. fold clientIP.
  rewrite (bool_decide_eq_false_2 _ Hd), Ha. simpl.
  pose proof (untrack_after_track clientIP roomId _ Hwf Hq) as Hback.
  rewrite trackConnection_accepts in * by assumption. simpl in *.
  change (getActiveClientCount roomId (emit _ (upd_tracker _ w)))
    with (getActiveClientCount roomId w).
  destruct (Z.leb_spec maxClientsPerRoom (getActiveClientCount roomId w)); [|lia].
  simpl. rewrite Hback. rewrite <- !app_assoc. auto.
Qed.


Section Broadcast.
Variables (send : nat → Buffer → bool) (message : Buffer) (sender : nat).

Lemma visit_step (w0 : World Y) es n dead c :
  broadcast_visit send message sender (emit_all es w0, n, dead) c
  = (emit_all (es ++ (if attempted sender w0 c
                      then [EvSend c message (send c message)] else [])) w0,
     n + (if delivered send message sender w0 c then 1 else 0),
     dead ++ (if is_dead send message sender w0 c then [c] else [])).
Proof.
  unfold broadcast_visit, delivered, is_dead, attempted, is_peer, is_open.
  change (socket_of (emit_all es w0) c) with (socket_of w0 c).
  destruct (Nat.eqb c sender); simpl.
  - rewrite !app_nil_r, Z.add_0_r. reflexivity.
  - destruct (readyState (socket_of w0 c) =? 1); simpl.
    + destruct (send c message); simpl;
        rewrite emit_emit_all, ?app_nil_r, ?Z.add_0_r; reflexivity.
    + rewrite !app_nil_r, Z.add_0_r. reflexivity.
Qed.

Lemma visit_fold (w0 : World Y) (l : list nat) : ∀ es n dead,
  foldl (broadcast_visit send message sender) (emit_all es w0, n, dead) l
  = (emit_all (es ++ map (fun c => EvSend c message (send c message))
                         (List.filter (attempted sender w0) l)) w0,
     n + Z.of_nat (length (List.filter (delivered send message sender w0) l)),
     dead ++ List.filter (is_dead send message sender w0) l).
Proof.
  induction l as [|c l IH]; intros es n dead.
  - simpl. rewrite !app_nil_r, Z.add_0_r. reflexivity.
  - cbn [foldl]. rewrite visit_step, IH. cbn [List.filter].
    destruct (attempted sender w0 c), (delivered send message sender w0 c),
      (is_dead send message sender w0 c); cbn [map length];
      rewrite <- ?app_assoc, ?app_nil_r; cbn [app];
      (apply (f_equal2 pair); [apply (f_equal2 pair)|]); try reflexivity; lia.
Qed.

Lemma evict_fold roomId (dead : list nat) : ∀ w room,
  room_of w roomId = Some room →
  let w' := foldl (evict roomId) w dead in
  trace w' = trace w ++ map (EvEvict roomId) dead
  ∧ now w' = now w
  ∧ yjsManager (roomManager w') = yjsManager (roomManager w)
  ∧ (∃ room', room_of w' roomId = Some room'
       ∧ clients room' = List.filter (fun c => negb (existsb (Nat.eqb c) dead)) (clients room)).
Proof.
  induction dead as [|d dead IH]; intros w room Hroom; simpl.
  - rewrite app_nil_r. repeat split; auto.
    exists room. split; [assumption|].
    generalize (clients room). intros l.
    induction l as [|c l IHl]; simpl; congruence.
  - assert (Hroom1 : room_of (evict roomId w d) roomId = Some (room_delete d room)).
    { unfold room_of, evict. simpl. rewrite lookup_alter_eq.
      unfold room_of in Hroom. rewrite Hroom. reflexivity. }
    destruct (IH _ _ Hroom1) as (Ht & Hn & Hy & room' & Hr' & Hc).
    rewrite Ht, Hn, Hy. simpl. rewrite <- app_assoc. repeat split; auto.
    exists room'. split; [assumption|]. rewrite Hc.
    simpl. generalize (clients room). clear.
    intros l. induction l as [|c l IHl]; simpl; [reflexivity|].
    rewrite (Nat.eqb_sym c d).
    destruct (Nat.eqb d c); simpl; rewrite IHl; reflexivity.
Qed.

Lemma dead_list_membership (w : World Y) (l : list nat) c :
  In c l →
  existsb (Nat.eqb c) (List.filter (is_dead send message sender w) l)
  = is_dead send message sender w c.
Proof.
  intros Hin. destruct (is_dead send message sender w c) eqn:Hd.
  - apply existsb_exists. exists c. split; [|apply Nat.eqb_refl].
    apply filter_In. auto.
  - apply not_true_is_false. intros (x & Hx & Heq)%existsb_exists.
    apply Nat.eqb_eq in Heq as <-. apply filter_In in Hx as [_ Hx]. congruence.
Qed.

(** What a call of [broadcast] on an existing room comes to. *)
Lemma broadcast_spec roomId (w : World Y) room :
  room_of w roomId = Some room →
  let w' := fst (broadcast send roomId message sender w) in
  snd (broadcast send roomId message sender w)
  = Normal (Z.of_nat (length (List.filter (delivered send message sender w) (clients room))))
  ∧ trace w' = trace w
      ++ (if SaveManager.isCodeEditorRoom roomId then [EvApplyUpdate roomId message] else [])
      ++ map (fun c => EvSend c message (send c message))
             (List.filter (attempted sender w) (clients room))
      ++ map (EvEvict roomId) (List.filter (is_dead send message sender w) (clients room))
  ∧ (∃ room', room_of w' roomId = Some room'
       ∧ clients room'
         = List.filter (fun c => negb (is_dead send message sender w c)) (clients room))
  ∧ yjsManager (roomManager w')
    = if SaveManager.isCodeEditorRoom roomId
      then fst (handleYjsMessage roomId message (yjsManager (roomManager w)))
      else yjsManager (roomManager w).
Proof.
  intros Hroom. unfold broadcast. rewrite Hroom.
  set (w1 := if SaveManager.isCodeEditorRoom roomId
             then upd_rm (set_yjsManager (fun _ =>
                    fst (handleYjsMessage roomId message (yjsManager (roomManager w)))))
                    (emit (EvApplyUpdate roomId message) w)
             else w).
  assert (Happ : (if SaveManager.isCodeEditorRoom roomId
                  then let '(m, c) := handleYjsMessage roomId message (yjsManager (roomManager w)) in
                       (upd_rm (set_yjsManager (fun _ => m)) (emit (EvApplyUpdate roomId message) w), c)
                  else (w, Normal tt)) = (w1, Normal tt)).
  { subst w1. destruct (SaveManager.isCodeEditorRoom roomId); [|reflexivity].
    pose proof (handleYjsMessage_returns roomId message (yjsManager (roomManager w))) as Hret.
    destruct (handleYjsMessage roomId message (yjsManager (roomManager w))) as [m c].
    simpl in *. subst c. reflexivity. }
  rewrite Happ. clear Happ.
  assert (Hroom1 : room_of w1 roomId = Some room).
  { subst w1. destruct (SaveManager.isCodeEditorRoom roomId); assumption. }
  assert (Hsock : ∀ c, socket_of w1 c = socket_of w c).
  { subst w1. destruct (SaveManager.isCodeEditorRoom roomId); reflexivity. }
  assert (Hflt : ∀ l, List.filter (attempted sender w1) l = List.filter (attempted sender w) l
                     ∧ List.filter (delivered send message sender w1) l
                       = List.filter (delivered send message sender w) l
                     ∧ List.filter (is_dead send message sender w1) l
                       = List.filter (is_dead send message sender w) l).
  { intros l. repeat split; apply filter_ext; intros c;
      unfold delivered, is_dead, attempted, is_open; rewrite Hsock; reflexivity. }
  rewrite <- (emit_all_nil w1). rewrite visit_fold.
  destruct (Hflt (clients room)) as (-> & -> & ->). simpl.
  set (sends := map _ (List.filter (attempted sender w) (clients room))).
  set (dead := List.filter (is_dead send message sender w) (clients room)).
  destruct (evict_fold roomId dead (emit_all sends w1) room Hroom1)
    as (Ht & Hn & Hy & room' & Hr' & Hc).
  split; [reflexivity|]. simpl. split; [|split].
  - rewrite Ht. simpl. subst w1.
    destruct (SaveManager.isCodeEditorRoom roomId); simpl; rewrite <- ?app_assoc; reflexivity.
  - exists (room_touch (now (foldl (evict roomId) (emit_all sends w1) dead)) room').
    split.
    + unfold room_of in *. simpl. rewrite lookup_alter_eq, Hr'. reflexivity.
    + simpl. rewrite Hc. apply filter_ext_in. intros c Hin.
      subst dead. rewrite dead_list_membership by assumption. reflexivity.
  - rewrite Hy. simpl. subst w1.
    destruct (SaveManager.isCodeEditorRoom roomId); reflexivity.
Qed.

(** Claim C1, as amended.  A [broadcast] on an existing room whose id
    passes the room manager's own test, [SaveManager.isCodeEditorRoom],
    hands the payload to [handleYjsMessage] before any send is tried: the
    apply is the first event of the call, what follows are only sends and
    evictions, every attempted send is among them, and the replica
    afterwards is the one [handleYjsMessage] produced, whatever the sends
    did. *)
Theorem broadcast_applies_update_first roomId (w : World Y) room :
  room_of w roomId = Some room →
  SaveManager.isCodeEditorRoom roomId = true →
  let w' := fst (broadcast send roomId message sender w) in
  (∃ n, snd (broadcast send roomId message sender w) = Normal n)
  ∧ (∃ fanout, trace w' = trace w ++ EvApplyUpdate roomId message :: fanout
       ∧ Forall is_fanout_event fanout
       ∧ ∀ c, In c (clients room) → attempted sender w c = true →
           In (EvSend c message (send c message)) fanout)
  ∧ yjsManager (roomManager w')
    = fst (handleYjsMessage roomId message (yjsManager (roomManager w))).
Proof.
  intros Hroom Hkind w'.
  destruct (broadcast_spec roomId w room Hroom) as (Hret & Htr & _ & Hy).
  fold w' in Htr, Hy. rewrite Hkind in Htr, Hy.
  split; [eauto|]. split; [|exact Hy].
  eexists. split; [exact Htr|]. split.
  - apply Forall_app. split; apply Forall_forall; intros e He;
      apply list_elem_of_In, in_map_iff in He as (c & <- & _); exact I.
  - intros c Hin Hatt. apply in_or_app. left.
    apply in_map_iff. exists c. split; [reflexivity|].
    apply filter_In. auto.
Qed.

(** Claim C2.  A [broadcast] on an existing room returns the number of
    members other than the sender whose transport was open and whose send
    did not throw.  A throwing send does not end the call: every open peer
    gets its send, in member order.  The members that failed or were not
    open are evicted after the last send, and the room keeps exactly the
    others. *)
Theorem broadcast_counts_deliveries roomId (w : World Y) room :
  room_of w roomId = Some room →
  let w' := fst (broadcast send roomId message sender w) in
  snd (broadcast send roomId message sender w)
  = Normal (Z.of_nat (length (List.filter (delivered send message sender w) (clients room))))
  ∧ trace w' = trace w
      ++ (if SaveManager.isCodeEditorRoom roomId then [EvApplyUpdate roomId message] else [])
      ++ map (fun c => EvSend c message (send c message))
             (List.filter (attempted sender w) (clients room))
      ++ map (EvEvict roomId) (List.filter (is_dead send message sender w) (clients room))
  ∧ (∃ room', room_of w' roomId = Some room'
       ∧ clients room'
         = List.filter (fun c => negb (is_dead send message sender w c)) (clients room)).
Proof.
  intros Hroom w'.
  destruct (broadcast_spec roomId w room Hroom) as (Hret & Htr & Hcl & _).
  auto.
Qed.

End Broadcast.


(** *** Grace timers *)

Lemma close_fold_frame (P : World Y → nat → bool) code reason (l : list nat) : ∀ w,
  let w' := foldl (fun w c => if P w c then closeSocket c code reason w else w) w l in
  roomManager w' = roomManager w ∧ timers w' = timers w ∧ now w' = now w.
Proof.
  induction l as [|c l IH]; intros w; simpl; [auto|].
  destruct (IH (if P w c then closeSocket c code reason w else w)) as (-> & -> & ->).
  destruct (P w c); auto.
Qed.

Lemma cleanupRoom_frame r w :
  timers (cleanupRoom r w) = timers w
  ∧ now (cleanupRoom r w) = now w
  ∧ ∀ r', r' ≠ r → room_of (cleanupRoom r w) r' = room_of w r'.
Proof.
  unfold cleanupRoom. destruct (room_of w r) as [room|] eqn:E; [|auto].
  destruct (close_fold_frame (fun w c => readyState (socket_of w c) =? 1)
              1000 "Room cleanup" (clients room) w) as (Hrm & Ht & Hn).
  destruct (SaveManager.isCodeEditorRoom r); simpl; rewrite Ht, Hn;
    (split; [reflexivity|]; split; [reflexivity|]);
    intros r' Hne; unfold room_of; simpl; rewrite Hrm;
    rewrite lookup_delete_ne by congruence; reflexivity.
Qed.

Lemma graceTimerCallback_frame r w :
  timers (graceTimerCallback r w) = timers w
  ∧ now (graceTimerCallback r w) = now w
  ∧ ∀ r', r' ≠ r → room_of (graceTimerCallback r w) r' = room_of w r'.
Proof.
  unfold graceTimerCallback.
  destruct (cleanupRoom_frame r w) as (Ht & Hn & Hr).
  destruct (room_of w r); [destruct (getActiveClientCount r w =? 0)|]; simpl; auto.
Qed.

Lemma fireTimer_inv h w w' :
  fireTimer h w = Some w' →
  ∃ due r, timers w !! h = Some (due, r) ∧ due ≤ now w
           ∧ w' = graceTimerCallback r (upd_timers (delete h) w).
Proof.
  unfold fireTimer. destruct (timers w !! h) as [[due r]|]; [|discriminate].
  destruct (Z.leb_spec due (now w)); [|discriminate].
  intros [= <-]. eauto.
Qed.

Lemma fireTimer_not_due h w due r :
  timers w !! h = Some (due, r) → now w < due → fireTimer h w = None.
Proof.
  unfold fireTimer. intros -> Hlt. destruct (Z.leb_spec due (now w)); [lia|reflexivity].
Qed.

Lemma fireTimer_not_pending h w : timers w !! h = None → fireTimer h w = None.
Proof. unfold fireTimer. intros ->. reflexivity. Qed.

Lemma timer_step_shrinks w1 w2 :
  timer_step w1 w2 → ∀ h x, timers w2 !! h = Some x → timers w1 !! h = Some x.
Proof.
  intros [w dt _|w h0 w' Hf] h x Hx; [exact Hx|].
  apply fireTimer_inv in Hf as (due & r & _ & _ & ->).
  destruct (graceTimerCallback_frame r (upd_timers (delete h0) w)) as (Ht & _).
  rewrite Ht in Hx. simpl in Hx. apply lookup_delete_Some in Hx as [_ Hx]. exact Hx.
Qed.

Lemma timer_steps_shrink w1 w2 :
  timer_steps w1 w2 → ∀ h x, timers w2 !! h = Some x → timers w1 !! h = Some x.
Proof.
  induction 1 as [|w1 w2 w3 Hs _ IH]; intros h x Hx; [exact Hx|].
  eapply timer_step_shrinks; eauto.
Qed.

Lemma timer_step_keeps_room roomId w1 w2 :
  timer_step w1 w2 →
  (∀ h d, timers w1 !! h ≠ Some (d, roomId)) →
  room_of w2 roomId = room_of w1 roomId.
Proof.
  intros [w dt _|w h0 w' Hf] Hno; [reflexivity|].
  apply fireTimer_inv in Hf as (due & r & Hh & _ & ->).
  destruct (graceTimerCallback_frame r (upd_timers (delete h0) w)) as (_ & _ & Hr).
  rewrite Hr; [reflexivity|]. intros ->. exact (Hno _ _ Hh).
Qed.

Lemma timer_steps_keep_room roomId w1 w2 :
  timer_steps w1 w2 →
  (∀ h d, timers w1 !! h ≠ Some (d, roomId)) →
  room_of w2 roomId = room_of w1 roomId.
Proof.
  induction 1 as [|w1 w2 w3 Hs _ IH]; intros Hno; [reflexivity|].
  rewrite IH.
  - eapply timer_step_keeps_room; eauto.
  - intros h d Hx. eapply Hno. eapply timer_step_shrinks; eauto.
Qed.

(** An emptied code-editor room gets a timeout due when the delay the
    runtime makes of the grace period has passed, and the grace-timer set
    holds it. *)
Lemma startGracePeriod_arms roomId w :
  SaveManager.isFileTreeRoom roomId = false →
  SaveManager.isCodeEditorRoom roomId = true →
  timers (startGracePeriod roomId w) !! nextTimer w
  = Some (now w + setTimeout_delay (gracePeriodMs (roomManager w)), roomId)
  ∧ gracePeriods (roomManager (startGracePeriod roomId w)) !! roomId = Some (nextTimer w).
Proof.
  intros Hft Hce. unfold startGracePeriod. rewrite Hft, Hce. simpl.
  split; apply lookup_insert_eq.
Qed.

Lemma has_client_add client t room : has_client client (room_add client t room) = true.
Proof.
  unfold has_client. simpl. rewrite existsb_app. simpl.
  rewrite Nat.eqb_refl. apply orb_true_iff. right. reflexivity.
Qed.

(** What [addClient] comes to when the grace-timer set holds a timeout. *)
Lemma addClient_cancel roomId client w timeout :
  gracePeriods (roomManager w) !! roomId = Some timeout →
  let w' := fst (addClient roomId client w) in
  trace w' = trace w ++ EvClearTimeout timeout
               :: (if match room_of w roomId with
                      | Some room => has_client client room
                      | None => false
                      end
                   then [] else [EvInsert roomId client])
  ∧ gracePeriods (roomManager w') = delete roomId (gracePeriods (roomManager w))
  ∧ timers w' = delete timeout (timers w)
  ∧ ∃ room', room_of w' roomId = Some room' ∧ has_client client room' = true.
Proof.
  intros Hg. unfold addClient. rewrite Hg.
  set (w1 := upd_rm (set_gracePeriods (delete roomId))
               (emit (EvClearTimeout timeout) (upd_timers (delete timeout) w))).
  change (room_of w1 roomId) with (room_of w roomId).
  destruct (room_of w roomId) as [room|] eqn:E.
  - change (room_of w1 roomId) with (room_of w roomId). rewrite E.
    destruct (has_client client room) eqn:Hm; simpl.
    + repeat split; auto. eauto.
    + rewrite <- app_assoc. repeat split; auto.
      eexists. split; [unfold room_of; simpl; apply lookup_insert_eq|].
      apply has_client_add.
  - assert (Hnew : room_of (upd_rm (set_rooms <[roomId := newRoom roomId (now w1)]>) w1) roomId
                   = Some (newRoom roomId (now w1)))
      by (unfold room_of; simpl; apply lookup_insert_eq).
    rewrite Hnew. simpl.
    rewrite <- app_assoc. repeat split; auto.
    eexists. split; [unfold room_of; simpl; apply lookup_insert_eq|].
    apply has_client_add.
Qed.

(** What [addClient] does when the grace-timer set holds a timeout for
    the room: that timeout is cleared and its entry removed before the
    client is inserted.  Before its due time the timeout cannot have
    fired, and once cleared it never fires, however the clock advances.
    The room and the client outlive every passing of time and firing of
    timeouts only where the cleared timeout was the room's only pending
    one; [startGracePeriod] does not see to that, for it arms a new
    timeout over an entry of the set without clearing the old one. *)
Theorem addClient_cancels_grace_timer roomId (client : nat) w (timeout : nat) :
  gracePeriods (roomManager w) !! roomId = Some timeout →
  let w' := fst (addClient roomId client w) in
  trace w' = trace w ++ EvClearTimeout timeout
               :: (if match room_of w roomId with
                      | Some room => has_client client room
                      | None => false
                      end
                   then [] else [EvInsert roomId client])
  ∧ gracePeriods (roomManager w') !! roomId = None
  ∧ timers w' !! timeout = None
  ∧ (∃ room', room_of w' roomId = Some room' ∧ has_client client room' = true)
  ∧ (∀ due, timers w !! timeout = Some (due, roomId) → now w < due →
       fireTimer timeout w = None)
  ∧ (∀ w'', timer_steps w' w'' → fireTimer timeout w'' = None)
  ∧ (sole_pending_timer roomId timeout w →
       ∀ w'', timer_steps w' w'' →
       ∃ room'', room_of w'' roomId = Some room'' ∧ has_client client room'' = true).
Proof.
  intros Hg w'. destruct (addClient_cancel roomId client w timeout Hg)
    as (Htr & Hgp & Htm & room' & Hroom & Hmem). fold w' in Htr, Hgp, Htm, Hroom.
  split; [exact Htr|]. split; [rewrite Hgp; apply lookup_delete_eq|].
  split; [rewrite Htm; apply lookup_delete_eq|].
  split; [eauto|]. split; [intros due Hd Hlt; eapply fireTimer_not_due; eauto|]. split.
  - intros w'' Hsteps. apply fireTimer_not_pending.
    destruct (timers w'' !! timeout) as [x|] eqn:Ex; [|reflexivity].
    apply (timer_steps_shrink _ _ Hsteps) in Ex.
    rewrite Htm, lookup_delete_eq in Ex. discriminate.
  - intros Honly w'' Hsteps. exists room'. split; [|exact Hmem].
    rewrite (timer_steps_keep_room roomId _ _ Hsteps); [exact Hroom|].
    intros h d Hx. rewrite Htm in Hx. apply lookup_delete_Some in Hx as [Hne Hx].
    apply Hne. symmetry. eapply Honly; eauto.
Qed.

End RelayFacts.

(** ** The claims on sample runs *)

Ltac run := vm_compute; reflexivity.

(** Claim C3 as stated fails: "repo-7" has no path after the number, so
    it is none of the shapes the specification recognizes, yet the
    handler does not close the socket: it takes a quota slot and inserts
    the socket into the room "repo-7". *)
Lemma bare_repo_id_joins_room :
  roomIdOfRequest (request_for "/repo-7" "203.0.113.9") = "repo-7"
  ∧ ¬ spec_repo_file_shape "repo-7"
  ∧ isFileTreeRoom "repo-7" = false
  ∧ isSavePointRoom "repo-7" = false
  ∧ trace bare_repo_join
    = [EvTrack "203.0.113.9" "repo-7" true; EvInsert "repo-7" 0; EvListen 0]
  ∧ clients <$> room_of bare_repo_join "repo-7" = Some [0%nat]
  ∧ quota (connectionTracker bare_repo_join) "203.0.113.9" "repo-7" = 1.
Proof.
  split; [run|]. split.
  - intros (d & f & E & Hd & _). str_simpl. injection E as E.
    destruct d as [|a d]; str_simpl; [discriminate|].
    injection E as _ E. destruct d; str_simpl; discriminate.
  - split; [run|]. split; [run|]. split; [run|]. split; run.
Qed.

Lemma unsupported_room_is_refused_witness :
  (trace lobby_join = trace (accept 0 world0) ++ [EvClose 0 1008 "Unauthorized room access"]
   ∧ roomManager lobby_join = roomManager (accept 0 world0)
   ∧ connectionTracker lobby_join = connectionTracker (accept 0 world0))
  ∧ isAllowedRoom ("repo-" +:+ "7") = true
  ∧ isAllowedRoom ("repo-" +:+ "7" +:+ "-") = true.
Proof.
  destruct (unsupported_room_is_refused (Y := standinYjs)) as [H1 H2]. split.
  - unfold lobby_join.
    apply (H1 50 "r" 0%nat (request_for "/lobby" "203.0.113.9") (accept 0 world0)).
    + vm_compute. discriminate.
    + run.
  - apply (H2 "7"); [discriminate | reflexivity].
Defined.

Lemma accept_tracker ws w : connectionTracker (accept ws w) = connectionTracker w.
Proof. reflexivity. Qed.

Lemma connect_many_tracker_wf maxClientsPerRoom path n : ∀ first w,
  tracker_wf (connectionTracker w) →
  tracker_wf (connectionTracker (connect_many maxClientsPerRoom path first n w)).
Proof.
  induction n as [|n IH]; intros first w Hwf; simpl; [exact Hwf|].
  apply IH. apply handleClientConnection_tracker_wf. exact Hwf.
Qed.

(** The spec's boundary case: fifty active clients, the fifty-first is
    turned away and the quota table is as it was. *)
Lemma capacity_refusal_releases_quota_witness :
  getActiveClientCount "repo-1-a.ts" (accept 77 full_room) = 50
  ∧ trace overflow_join
    = trace (accept 77 full_room)
        ++ [EvTrack "198.51.100.7" "repo-1-a.ts" true;
            EvUntrack "198.51.100.7" "repo-1-a.ts";
            EvClose 77 1008 "Room capacity exceeded"]
  ∧ connectionTracker overflow_join = connectionTracker (accept 77 full_room).
Proof.
  split; [run|].
  pose proof (capacity_refusal_releases_quota 50 "r" 77%nat
                (request_for "/repo-1-a.ts" "198.51.100.7") (accept 77 full_room)) as H.
  cbv zeta in H. destruct H as (Ht & Hq & _).
  - rewrite accept_tracker. unfold full_room.
    apply connect_many_tracker_wf. apply tracker_wf_empty.
  - vm_compute. discriminate.
  - run.
  - run.
  - vm_compute. discriminate.
  - unfold overflow_join. split; [exact Ht | exact Hq].
Defined.

(** Two clients in a code-editor room, every send throws: the update is
    applied all the same. *)
Lemma broadcast_applies_update_first_witness :
  SaveManager.isCodeEditorRoom "repo-7-src/main.ts" = true
  ∧ getDocumentContent "repo-7-src/main.ts"
      (yjsManager (roomManager
         (fst (broadcast send_none "repo-7-src/main.ts" hi_frame 0 editor_room)))) = "hi".
Proof.
  split; [run|].
  pose proof (broadcast_applies_update_first send_none hi_frame 0%nat "repo-7-src/main.ts"
                editor_room
                (room_add 1 0 (room_add 0 0 (newRoom "repo-7-src/main.ts" 0)))) as H.
  cbv zeta in H. destruct H as (_ & _ & Hy).
  - run.
  - run.
  - rewrite Hy. run.
Defined.

(** Three clients in a file-tree room; socket 0 sends, the send to socket
    1 returns, the send to socket 2 throws: one delivery, socket 2
    evicted after the sends. *)
Lemma broadcast_counts_deliveries_witness :
  snd (broadcast send_only_1 "filetree-42" hi_frame 0 tree_room) = Normal 1
  ∧ trace (fst (broadcast send_only_1 "filetree-42" hi_frame 0 tree_room))
    = trace tree_room ++ [EvSend 1 hi_frame true; EvSend 2 hi_frame false;
                          EvEvict "filetree-42" 2].
Proof.
  pose proof (broadcast_counts_deliveries send_only_1 hi_frame 0%nat "filetree-42"
                tree_room
                (room_add 2 0 (room_add 1 0 (room_add 0 0 (newRoom "filetree-42" 0)))))
    as H.
  cbv zeta in H. destruct H as (Hn & Ht & _).
  - run.
  - split; [rewrite Hn | rewrite Ht]; run.
Defined.

(** The timeout armed at 1000 is due at 121000; a join at 120999 clears
    it, and it was the only one pending. *)
Lemma addClient_cancels_grace_timer_witness :
  gracePeriods (roomManager emptied_room) !! "repo-7-foo.ts" = Some 0%nat
  ∧ timers emptied_room !! 0%nat = Some (121000, "repo-7-foo.ts")
  ∧ now emptied_room = 120999
  ∧ fireTimer 0 emptied_room = None
  ∧ timers (fst (addClient "repo-7-foo.ts" 1 emptied_room)) !! 0%nat = None
  ∧ fireTimer 0 (advance 1000000 (fst (addClient "repo-7-foo.ts" 1 emptied_room))) = None
  ∧ ∃ room, room_of (advance 1000000 (fst (addClient "repo-7-foo.ts" 1 emptied_room)))
              "repo-7-foo.ts" = Some room
            ∧ has_client 1 room = true.
Proof.
  split; [run|]. split; [run|]. split; [run|].
  pose proof (addClient_cancels_grace_timer "repo-7-foo.ts" 1%nat emptied_room 0%nat) as H.
  cbv zeta in H. destruct H as (_ & _ & Ht & _ & Hdue & Hnever & Hkeep).
  - run.
  - assert (Hsteps : timer_steps (fst (addClient "repo-7-foo.ts" 1 emptied_room))
                       (advance 1000000 (fst (addClient "repo-7-foo.ts" 1 emptied_room)))).
    { eapply steps_cons; [|apply steps_refl]. apply step_advance. lia. }
    split; [apply (Hdue 121000); [run | vm_compute; reflexivity]|].
    split; [exact Ht|]. split; [apply Hnever; exact Hsteps|].
    apply Hkeep; [|exact Hsteps].
    intros h due Hh.
    assert (E : timers emptied_room = {[0%nat := (121000, "repo-7-foo.ts")]}) by run.
    rewrite E in Hh. apply lookup_singleton_Some in Hh as [Hh _]. congruence.
Defined.

(** The same run through the connection handler.  Left alone, the timeout
    fires one millisecond later and the room is gone; with the join it is
    cleared before the insertion, and the room and its client outlive any
    wait. *)
Example grace_boundary_scenario :
  match fireTimer 0 (advance 1 emptied_room) with
  | Some w => room_of w "repo-7-foo.ts" = None
  | None => False
  end
  ∧ fireTimer 0 emptied_room = None
  ∧ trace rejoined_room
    = trace emptied_room ++ [EvTrack "203.0.113.9" "repo-7-foo.ts" true;
                             EvClearTimeout 0; EvInsert "repo-7-foo.ts" 1; EvListen 1]
  ∧ fireTimer 0 (advance 1000000 rejoined_room) = None
  ∧ clients <$> room_of (advance 1000000 rejoined_room) "repo-7-foo.ts" = Some [1%nat].
Proof. split; [run|]. split; [run|]. split; [run|]. split; run. Qed.

(** The room "repo-7" is let in by server.ts, but the room manager does
    not count it a code-editor room: a broadcast there relays and applies
    nothing. *)
Example bare_repo_room_has_no_replica :
  isCodeEditorRoom "repo-7" = true
  ∧ SaveManager.isCodeEditorRoom "repo-7" = false
  ∧ trace (fst (broadcast send_none "repo-7" hi_frame 0 bare_repo_join))
    = trace bare_repo_join
  ∧ documents (yjsManager (roomManager
      (fst (broadcast send_none "repo-7" hi_frame 0 bare_repo_join)))) = ∅.
Proof. split; [run|]. split; [run|]. split; run. Qed.

(** Claim C1 as stated fails.  The id "repo-7-/src/main.ts" has the shape
    "repo-<int>-<filePath>" with a non-empty path; server.ts classifies
    it as a code-editor room and lets it in, and [parseRoomId] reads
    repository 7 and the path "/src/main.ts" from it.  The test of
    [broadcast] refuses it all the same, because the path starts with a
    slash: the update of socket 0 is sent to socket 1 and never handed to
    the registry, which holds no document for the room afterwards. *)
Lemma slash_path_room_gets_no_update :
  roomIdOfRequest (request_for "/repo-7-/src/main.ts" "10.0.0.0") = "repo-7-/src/main.ts"
  ∧ spec_repo_file_shape "repo-7-/src/main.ts"
  ∧ isCodeEditorRoom "repo-7-/src/main.ts" = true
  ∧ isAllowedRoom "repo-7-/src/main.ts" = true
  ∧ parseRoomId "repo-7-/src/main.ts"
    = Some {| repositoryId := 7; filePath := "/src/main.ts" |}
  ∧ SaveManager.isCodeEditorRoom "repo-7-/src/main.ts" = false
  ∧ clients <$> room_of slash_path_room "repo-7-/src/main.ts" = Some [0%nat; 1%nat]
  ∧ snd (broadcast send_only_1 "repo-7-/src/main.ts" hi_frame 0 slash_path_room) = Normal 1
  ∧ trace (fst (broadcast send_only_1 "repo-7-/src/main.ts" hi_frame 0 slash_path_room))
    = trace slash_path_room ++ [EvSend 1 hi_frame true]
  ∧ ¬ In (EvApplyUpdate "repo-7-/src/main.ts" hi_frame)
        (trace (fst (broadcast send_only_1 "repo-7-/src/main.ts" hi_frame 0 slash_path_room)))
  ∧ documents (yjsManager (roomManager
      (fst (broadcast send_only_1 "repo-7-/src/main.ts" hi_frame 0 slash_path_room)))) = ∅
  ∧ getDocumentContent "repo-7-/src/main.ts"
      (yjsManager (roomManager
         (fst (broadcast send_only_1 "repo-7-/src/main.ts" hi_frame 0 slash_path_room)))) = "".
Proof.
  split; [run|]. split.
  { exists "7", "/src/main.ts". repeat split; discriminate. }
  split; [run|]. split; [run|]. split; [run|]. split; [run|]. split; [run|].
  split; [run|]. split; [run|]. split; [|split; run].
  vm_compute. intros H. repeat (destruct H as [H|H]; [discriminate H|]). exact H.
Qed.

(** The sample run [late_join_pinged] is a run of the server. *)
Lemma late_join_pinged_reachable : reachable 50 late_join_pinged.
Proof.
  exists world0. split; [repeat split|].
  unfold late_join_pinged, late_join, twice_emptied_room, transport_closes.
  eapply server_snoc; [|apply step_time; lia].
  eapply server_snoc; [|apply step_heartbeat].
  eapply server_snoc; [|apply step_time; lia].
  eapply server_snoc; [|apply step_connection; vm_compute; reflexivity].
  eapply server_snoc; [|apply step_time; lia].
  eapply server_snoc;
    [|apply step_close; unfold listening; vm_compute;
      repeat (first [left; reflexivity | right])].
  eapply server_snoc; [|apply step_transport; vm_compute; split; discriminate].
  eapply server_snoc; [|apply step_time; lia].
  eapply server_snoc;
    [|apply step_close; unfold listening; vm_compute;
      repeat (first [left; reflexivity | right])].
  eapply server_snoc; [|apply step_transport; vm_compute; split; discriminate].
  eapply server_snoc; [|apply step_time; lia].
  eapply server_snoc; [|apply step_heartbeat].
  eapply server_snoc; [|apply step_time; lia].
  simpl connect_many.
  eapply server_snoc; [|apply step_connection; vm_compute; reflexivity].
  eapply server_snoc; [apply server_refl|].
  apply step_connection. reflexivity.
Qed.

(** Claim C6 fails on the code.  In the run [late_join_pinged], which the
    server can make, two members of "repo-7-foo.ts" are pinged and close
    before they answer: the first close arms timeout 0, the second arms
    timeout 1 and enters it in the grace-timer set over timeout 0, which
    stays pending.  The join at 140000 finds timeout 1 in the set, clears
    it and removes the entry; timeout 0 is still pending.  It comes due at
    150010, while the member that joined has a ping unanswered, and
    fires: the member is closed with code 1000 and the room is
    destroyed. *)
Theorem stale_timeout_destroys_rejoined_room :
  reachable 50 late_join_pinged
  ∧ timers twice_emptied_room !! 0%nat = Some (150010, "repo-7-foo.ts")
  ∧ timers twice_emptied_room !! 1%nat = Some (150020, "repo-7-foo.ts")
  ∧ gracePeriods (roomManager twice_emptied_room) !! "repo-7-foo.ts" = Some 1%nat
  ∧ now late_join = 140000
  ∧ trace late_join
    = trace twice_emptied_room
        ++ [EvTrack "10.0.0.2" "repo-7-foo.ts" true; EvClearTimeout 1;
            EvInsert "repo-7-foo.ts" 2; EvListen 2]
  ∧ gracePeriods (roomManager late_join) !! "repo-7-foo.ts" = None
  ∧ timers late_join !! 1%nat = None
  ∧ timers late_join !! 0%nat = Some (150010, "repo-7-foo.ts")
  ∧ now late_join_pinged = 150010
  ∧ clients <$> room_of late_join_pinged "repo-7-foo.ts" = Some [2%nat]
  ∧ readyState (socket_of late_join_pinged 2) = 1
  ∧ ∃ w, fireTimer 0 late_join_pinged = Some w
      ∧ room_of w "repo-7-foo.ts" = None
      ∧ readyState (socket_of w 2) = 2
      ∧ trace w = trace late_join_pinged ++ [EvClose 2 1000 "Room cleanup"].
Proof.
  split; [exact late_join_pinged_reachable|].
  split; [run|]. split; [run|]. split; [run|]. split; [run|]. split; [run|].
  split; [run|]. split; [run|]. split; [run|]. split; [run|]. split; [run|].
  split; [run|].
  eexists. split; [vm_compute; reflexivity|]. split; [run|]. split; run.
Qed.

(** * Further properties *)

(** ** The room-id patterns *)

Lemma string_app_assoc (s1 s2 s3 : string) : (s1 +:+ s2) +:+ s3 = s1 +:+ s2 +:+ s3.
Proof. induction s1 as [|a s1 IH]; str_simpl; [reflexivity|]. rewrite IH. reflexivity. Qed.

Lemma string_forallb_app f (s1 s2 : string) :
  string_forallb f (s1 +:+ s2) = string_forallb f s1 && string_forallb f s2.
Proof.
  induction s1 as [|a s1 IH]; str_simpl; simpl; [reflexivity|].
  rewrite IH, andb_assoc. reflexivity.
Qed.

Lemma lang_any_star (s : string) : lang (Star any_char) s.
Proof.
  apply lang_star_class. induction s as [|a s IH]; simpl; [reflexivity|exact IH].
Qed.

Lemma not_slash_spec (c : ascii) : is_not_slash c = true ↔ c ≠ "/"%char.
Proof.
  unfold is_not_slash. rewrite negb_true_iff, Nat.eqb_neq. split.
  - intros H ->. apply H. reflexivity.
  - intros H E. apply H. rewrite <- (ascii_nat_embedding c), E. reflexivity.
Qed.

(** What a pattern that starts with a literal accepts starts with it. *)
Lemma lang_lit_prefix p r s : lang (Cat (lit p) r) s → ∃ t, s = p +:+ t ∧ lang r t.
Proof.
  intros (s1 & s2 & -> & H1 & H2)%lang_cat_inv. apply lang_lit in H1 as ->. eauto.
Qed.

Lemma lang_repo_int_inv tail_re s :
  lang (Cat (lit "repo-") (Cat (plus (Class is_digit)) tail_re)) s →
  ∃ d t, s = "repo-" +:+ d +:+ t ∧ d ≠ "" ∧ string_forallb is_digit d = true
         ∧ lang tail_re t.
Proof.
  intros (t & -> & H)%lang_lit_prefix.
  apply lang_cat_inv in H as (d & t' & -> & Hd & Ht).
  apply lang_plus_class in Hd as [Hd1 Hd2]. eauto 10.
Qed.

Lemma codeEditor_family s :
  isCodeEditorRoom s = true ∨ SaveManager.isCodeEditorRoom s = true →
  ∃ t, s = "repo-" +:+ t.
Proof.
  intros [H|H].
  - apply matches_lang, lang_lit_prefix in H as (t & -> & _). eauto.
  - apply matches_lang, lang_cat_inv in H as (s1 & s2 & -> & H1 & _).
    apply lang_lit_prefix in H1 as (t & -> & _).
    exists (t +:+ s2). rewrite string_app_assoc. reflexivity.
Qed.

Lemma fileTree_family s : isFileTreeRoom s = true → ∃ t, s = "filetree-" +:+ t.
Proof. intros H. apply matches_lang, lang_lit_prefix in H as (t & -> & _). eauto. Qed.

Lemma savePoint_family s : isSavePointRoom s = true → ∃ t, s = "savepoint-" +:+ t.
Proof. intros H. apply matches_lang, lang_lit_prefix in H as (t & -> & _). eauto. Qed.

(** Extra X1.  The three families of room ids are disjoint, in server.ts
    and in the room manager alike: an id matches at most one of the
    patterns, and "default" matches none. *)
Theorem room_families_are_disjoint (roomId : string) :
  (isCodeEditorRoom roomId = true →
     isFileTreeRoom roomId = false ∧ isSavePointRoom roomId = false)
  ∧ (isFileTreeRoom roomId = true → isSavePointRoom roomId = false)
  ∧ (SaveManager.isCodeEditorRoom roomId = true → SaveManager.isFileTreeRoom roomId = false)
  ∧ (isAllowedRoom roomId = true → roomId ≠ "default").
Proof.
  split; [|split; [|split]].
  - intros H. split; apply not_true_is_false; intros F;
      destruct (codeEditor_family roomId (or_introl H)) as (t & ->).
    + apply fileTree_family in F as (t' & F). discriminate F.
    + apply savePoint_family in F as (t' & F). discriminate F.
  - intros H. apply not_true_is_false. intros F.
    apply fileTree_family in H as (t & ->).
    apply savePoint_family in F as (t' & F). discriminate F.
  - intros H. apply not_true_is_false. intros F.
    destruct (codeEditor_family roomId (or_intror H)) as (t & ->).
    apply fileTree_family in F as (t' & F). discriminate F.
  - intros H ->. vm_compute in H. discriminate H.
Qed.

Lemma room_families_are_disjoint_witness :
  isCodeEditorRoom "repo-7-a.ts" = true
  ∧ isFileTreeRoom "repo-7-a.ts" = false ∧ isSavePointRoom "repo-7-a.ts" = false.
Proof.
  split; [reflexivity|].
  destruct (room_families_are_disjoint "repo-7-a.ts") as (H & _).
  apply H. reflexivity.
Defined.

Lemma SaveManager_codeEditor_decompose (roomId : string) :
  SaveManager.isCodeEditorRoom roomId = true →
  ∃ d c rest, roomId = "repo-" +:+ d +:+ "-" +:+ String c rest
              ∧ d ≠ "" ∧ string_forallb is_digit d = true ∧ c ≠ "/"%char.
Proof.
  unfold SaveManager.isCodeEditorRoom, test_prefix. rewrite matches_lang.
  intros (s1 & s2 & -> & H1 & _)%lang_cat_inv.
  apply lang_repo_int_inv in H1 as (d & t & -> & Hd1 & Hd2 & Ht).
  apply lang_cat_inv in Ht as (dash & f & -> & Hdash & Hf).
  apply lang_chr in Hdash as ->. apply lang_plus_class in Hf as [Hf1 Hf2].
  destruct f as [|c f]; [contradiction|]. simpl in Hf2.
  apply andb_prop in Hf2 as [Hc _]. apply not_slash_spec in Hc.
  exists d, c, (f +:+ s2). rewrite !string_app_assoc. str_simpl. auto.
Qed.

(** Extra X2.  The room manager takes an id for a code-editor room exactly
    when it is "repo-", a number, a dash and then a character other than
    a slash, whatever follows; so "repo-7-/etc/x" is none. *)
Theorem SaveManager_codeEditor_shape (roomId : string) :
  SaveManager.isCodeEditorRoom roomId = true
  ↔ ∃ d c rest, roomId = "repo-" +:+ d +:+ "-" +:+ String c rest
                ∧ d ≠ "" ∧ string_forallb is_digit d = true ∧ c ≠ "/"%char.
Proof.
  split; [apply SaveManager_codeEditor_decompose|].
  unfold SaveManager.isCodeEditorRoom, test_prefix. rewrite matches_lang.
  intros (d & c & rest & -> & Hd1 & Hd2 & Hc).
  replace ("repo-" +:+ d +:+ "-" +:+ String c rest)
    with (("repo-" +:+ d +:+ "-" +:+ String c "") +:+ rest)
    by (rewrite !string_app_assoc; str_simpl; reflexivity).
  constructor; [|apply lang_any_star].
  apply lang_repo_int; auto.
  change ("-" +:+ String c "") with (String "-" "" +:+ String c "").
  constructor; [apply lang_chr; reflexivity|].
  apply lang_plus_class. split; [discriminate|]. simpl.
  rewrite (proj2 (not_slash_spec c) Hc). reflexivity.
Qed.

(** Extra X3.  server.ts lets in an id of the repo family exactly when it
    is "repo-" and a number, alone or followed by a dash and any run of
    characters without a line terminator; every id the room manager takes
    for a code-editor room is let in unless it holds a line terminator. *)
Theorem server_codeEditor_shape (roomId : string) :
  (isCodeEditorRoom roomId = true
   ↔ ∃ d, d ≠ "" ∧ string_forallb is_digit d = true
          ∧ (roomId = "repo-" +:+ d
             ∨ ∃ t, roomId = "repo-" +:+ d +:+ "-" +:+ t ∧ string_forallb is_dot t = true))
  ∧ (SaveManager.isCodeEditorRoom roomId = true → string_forallb is_dot roomId = true →
     isCodeEditorRoom roomId = true).
Proof.
  assert (Hchar : isCodeEditorRoom roomId = true
   ↔ ∃ d, d ≠ "" ∧ string_forallb is_digit d = true
          ∧ (roomId = "repo-" +:+ d
             ∨ ∃ t, roomId = "repo-" +:+ d +:+ "-" +:+ t ∧ string_forallb is_dot t = true)).
  { unfold isCodeEditorRoom, test_anchored. rewrite matches_lang. split.
    - intros (d & t & -> & Hd1 & Hd2 & Ht)%lang_repo_int_inv.
      exists d. split; [assumption|]. split; [assumption|].
      inversion Ht as [| | |r1 r2 s Hl|r1 r2 s Hr| |]; subst.
      + apply lang_cat_inv in Hl as (dash & t' & -> & Hdash & Ht').
        apply lang_chr in Hdash as ->. apply lang_star_class in Ht'.
        right. exists t'. str_simpl. auto.
      + inversion Hr; subst. left. rewrite app_empty_r. reflexivity.
    - intros (d & Hd1 & Hd2 & [->| (t & -> & Ht)]).
      + rewrite <- (app_empty_r d). apply lang_repo_int; auto.
        apply lang_alt_r. constructor.
      + apply lang_repo_int; auto. apply lang_alt_l.
        change ("-" +:+ t) with (String "-" "" +:+ t).
        constructor; [apply lang_chr; reflexivity | apply lang_star_class; assumption]. }
  split; [exact Hchar|].
  intros Hs Hdot. apply Hchar.
  apply SaveManager_codeEditor_decompose in Hs as (d & c & rest & -> & Hd1 & Hd2 & _).
  exists d. split; [assumption|]. split; [assumption|]. right.
  exists (String c rest). split; [reflexivity|].
  rewrite !string_forallb_app in Hdot.
  apply andb_prop in Hdot as [_ Hdot]. apply andb_prop in Hdot as [_ Hdot].
  apply andb_prop in Hdot as [_ Hdot]. exact Hdot.
Qed.

Lemma SaveManager_codeEditor_shape_witness :
  SaveManager.isCodeEditorRoom ("repo-" +:+ "7" +:+ "-" +:+ String "a" ".ts") = true.
Proof.
  apply SaveManager_codeEditor_shape. exists "7", "a"%char, ".ts".
  split; [reflexivity|]. split; [discriminate|]. split; [reflexivity|discriminate].
Defined.

Lemma server_codeEditor_shape_witness :
  SaveManager.isCodeEditorRoom "repo-7-a.ts" = true
  ∧ isCodeEditorRoom "repo-7-a.ts" = true.
Proof.
  split; [reflexivity|].
  destruct (server_codeEditor_shape "repo-7-a.ts") as [_ H].
  apply H; reflexivity.
Defined.

(** ** Parsing room ids *)

Lemma parseInt10_digits d :
  d ≠ "" → string_forallb is_digit d = true → parseInt10 d = Some (decimal_value 0 d).
Proof.
  intros Hne Hd. unfold parseInt10.
  assert (span_digits d = (d, "")) as ->.
  { rewrite <- (app_empty_r d) at 1. apply span_digits_app; auto. }
  rewrite bool_decide_eq_false_2 by assumption. reflexivity.
Qed.

(** Extra X4.  [parseRoomId] succeeds exactly on "repo-", a number, a
    dash and a non-empty path without line terminators.  The path it
    returns is the whole of what follows the first dash after the number,
    so the id can be rebuilt from the result; the repository id is the
    value of the number as long as that is a safe integer. *)
Theorem parseRoomId_shape_and_fields (roomId : string) :
  (∀ p, parseRoomId roomId = Some p →
     ∃ d, roomId = "repo-" +:+ d +:+ "-" +:+ filePath p
          ∧ d ≠ "" ∧ string_forallb is_digit d = true
          ∧ filePath p ≠ "" ∧ string_forallb is_dot (filePath p) = true
          ∧ (decimal_value 0 d ≤ MAX_SAFE_INTEGER → repositoryId p = decimal_value 0 d))
  ∧ (∀ d f, roomId = "repo-" +:+ d +:+ "-" +:+ f →
       d ≠ "" → string_forallb is_digit d = true →
       f ≠ "" → string_forallb is_dot f = true →
       ∃ p, parseRoomId roomId = Some p ∧ filePath p = f
            ∧ (decimal_value 0 d ≤ MAX_SAFE_INTEGER → repositoryId p = decimal_value 0 d)).
Proof.
  unfold parseRoomId. split.
  - intros p H. destruct (match_parseRoomId roomId) as [[g1 g2]|] eqn:E; [|discriminate].
    apply match_parseRoomId_Some in E as (-> & Hd1 & Hd2 & Hf1 & Hf2).
    rewrite (parseInt10_digits g1 Hd1 Hd2) in H.
    rewrite bool_decide_eq_false_2 in H by assumption.
    injection H as <-. simpl. exists g1. auto 10.
  - intros d f -> Hd1 Hd2 Hf1 Hf2.
    rewrite (match_parseRoomId_groups d f) by assumption.
    rewrite (parseInt10_digits d Hd1 Hd2).
    rewrite bool_decide_eq_false_2 by assumption.
    eexists. split; [reflexivity|]. simpl. auto.
Qed.

Lemma parseRoomId_shape_and_fields_witness :
  ∃ p, parseRoomId ("repo-" +:+ "12" +:+ "-" +:+ "src/a-b.ts") = Some p
       ∧ filePath p = "src/a-b.ts" ∧ repositoryId p = 12.
Proof.
  destruct (parseRoomId_shape_and_fields ("repo-" +:+ "12" +:+ "-" +:+ "src/a-b.ts"))
    as [_ H].
  destruct (H "12" "src/a-b.ts" eq_refl) as (p & Hp & Hf & Hn);
    [discriminate | reflexivity | discriminate | reflexivity |].
  exists p. split; [exact Hp|]. split; [exact Hf|]. apply Hn. vm_compute. discriminate.
Defined.

Lemma match_fileTreeRoomId_spec s g :
  match_fileTreeRoomId s = Some g
  ↔ s = "filetree-" +:+ g ∧ g ≠ "" ∧ string_forallb is_digit g = true.
Proof.
  unfold match_fileTreeRoomId. split.
  - intros H. destruct (string_strip_prefix "filetree-" s) as [s1|] eqn:E1; [|discriminate].
    apply strip_prefix_spec in E1 as ->.
    destruct (span_digits s1) as [d r] eqn:E2.
    apply span_digits_spec in E2 as (-> & Hd & _).
    case_bool_decide as Hne; [discriminate|].
    case_bool_decide as Hr; [|discriminate].
    injection H as <-. subst r. rewrite app_empty_r. auto.
  - intros (-> & Hne & Hd).
    rewrite (proj2 (strip_prefix_spec "filetree-" _ g) eq_refl).
    assert (span_digits g = (g, "")) as ->.
    { rewrite <- (app_empty_r g) at 1. apply span_digits_app; auto. }
    rewrite bool_decide_eq_false_2 by assumption.
    rewrite bool_decide_eq_true_2 by reflexivity. reflexivity.
Qed.

(** Extra X5.  [parseFileTreeRoomId] returns a number exactly on the ids
    [isFileTreeRoom] accepts, and the number is the value of the digits
    after "filetree-" as long as that is a safe integer. *)
Theorem parseFileTreeRoomId_agrees (roomId : string) :
  (is_Some (parseFileTreeRoomId roomId) ↔ SaveManager.isFileTreeRoom roomId = true)
  ∧ (∀ n, parseFileTreeRoomId roomId = Some n →
       ∃ d, roomId = "filetree-" +:+ d ∧ d ≠ "" ∧ string_forallb is_digit d = true
            ∧ (decimal_value 0 d ≤ MAX_SAFE_INTEGER → n = decimal_value 0 d)).
Proof.
  assert (Hn : ∀ n, parseFileTreeRoomId roomId = Some n
          ↔ ∃ d, roomId = "filetree-" +:+ d ∧ d ≠ ""
                 ∧ string_forallb is_digit d = true ∧ n = decimal_value 0 d).
  { intros n. unfold parseFileTreeRoomId. split.
    - intros H. destruct (match_fileTreeRoomId roomId) as [g|] eqn:E; [|discriminate].
      apply match_fileTreeRoomId_spec in E as (-> & Hne & Hd).
      rewrite (parseInt10_digits g Hne Hd) in H. injection H as <-. eauto 10.
    - intros (d & -> & Hne & Hd & ->).
      rewrite (proj2 (match_fileTreeRoomId_spec _ d)) by auto.
      apply parseInt10_digits; assumption. }
  split.
  - unfold SaveManager.isFileTreeRoom, test_anchored, re_fileTree.
    rewrite matches_lang. split.
    + intros [n H]. apply Hn in H as (d & -> & Hne & Hd & _).
      constructor; [apply lang_lit; reflexivity | apply lang_plus_class; auto].
    + intros (d & -> & Hd)%lang_lit_prefix. apply lang_plus_class in Hd as [Hne Hd].
      exists (decimal_value 0 d). apply Hn. eauto 10.
  - intros n H. apply Hn in H as (d & -> & Hne & Hd & ->). exists d. auto.
Qed.

Lemma parseFileTreeRoomId_agrees_witness :
  is_Some (parseFileTreeRoomId "filetree-42").
Proof.
  destruct (parseFileTreeRoomId_agrees "filetree-42") as [H _].
  apply H. reflexivity.
Defined.

(** ** The save trigger on a code-editor id *)

(** Extra X6.  On an id the parser accepts, with a repository number
    that is a safe integer, [triggerSaveAPI] issues exactly one request: a
    PUT to the content URL of the parsed repository, carrying the parsed
    path, the content and the source tag.
    The promise resolves exactly when the response is ok and its body
    parses; a failed fetch rejects with the message of the failure.  In no
    case is a second request made. *)
Theorem triggerSaveAPI_one_put (apiBaseUrl : string) (fetch : HttpRequest → FetchResult)
    (roomId content : string) :
  (length (fst (SaveManager.triggerSaveAPI apiBaseUrl fetch roomId content)) ≤ 1)%nat
  ∧ ∀ d f, roomId = "repo-" +:+ d +:+ "-" +:+ f →
      d ≠ "" → string_forallb is_digit d = true →
      decimal_value 0 d ≤ MAX_SAFE_INTEGER →
      f ≠ "" → string_forallb is_dot f = true →
      let request :=
        {| http_url := apiBaseUrl +:+ "/repositories/" +:+ pretty (decimal_value 0 d)
                       +:+ "/files/content";
           http_method := "PUT";
           http_contentType := "application/json";
           http_body := {| req_filePath := f; req_content := content;
                           req_source := "yjs-collaboration" |} |} in
      fst (SaveManager.triggerSaveAPI apiBaseUrl fetch roomId content) = [request]
      ∧ (snd (SaveManager.triggerSaveAPI apiBaseUrl fetch roomId content) = Normal tt
         ↔ ∃ status statusText json,
             fetch request = FetchResponse true status statusText (Some json))
      ∧ (∀ message, fetch request = FetchRejected message →
           snd (SaveManager.triggerSaveAPI apiBaseUrl fetch roomId content) = Throw message).
Proof.
  split.
  - unfold SaveManager.triggerSaveAPI. destruct (parseRoomId roomId); simpl; [|lia].
    destruct (fetch _) as [|[|] ? ? [|]]; simpl; lia.
  - intros d f -> Hd1 Hd2 _ Hf1 Hf2 request.
    assert (Hp : parseRoomId ("repo-" +:+ d +:+ "-" +:+ f)
                 = Some {| repositoryId := decimal_value 0 d; filePath := f |}).
    { unfold parseRoomId. rewrite match_parseRoomId_groups by assumption.
      rewrite (parseInt10_digits d Hd1 Hd2).
      rewrite bool_decide_eq_false_2 by assumption. reflexivity. }
    unfold SaveManager.triggerSaveAPI. rewrite Hp. simpl. fold request.
    destruct (fetch request) as [msg|[|] status txt [json|]]; simpl;
      (split; [reflexivity|]); split;
      try (split; [intros; discriminate | intros (? & ? & ? & ?); discriminate]);
      try (intros ? ?; discriminate).
    + intros message [= <-]. reflexivity.
    + split; [eauto|reflexivity].
Qed.

Lemma triggerSaveAPI_one_put_witness :
  snd (SaveManager.triggerSaveAPI "http://localhost:3000/api"
         (fun _ => FetchRejected "connect ECONNREFUSED")
         ("repo-" +:+ "7" +:+ "-" +:+ "a.ts") "text")
  = Throw "connect ECONNREFUSED".
Proof.
  destruct (triggerSaveAPI_one_put "http://localhost:3000/api"
              (fun _ => FetchRejected "connect ECONNREFUSED")
              ("repo-" +:+ "7" +:+ "-" +:+ "a.ts") "text") as [_ H].
  destruct (H "7" "a.ts" eq_refl) as (_ & _ & Hrej);
    [discriminate | reflexivity | vm_compute; discriminate | discriminate | reflexivity |].
  apply Hrej. reflexivity.
Defined.


(** ** The connection tracker, further *)

Lemma trackConnection_accepted_below_cap ip r (t : gmap string (gmap string Z)) :
  snd (trackConnection ip r t) = true → quota t ip r < MAX_CONNECTIONS_PER_IP_PER_ROOM.
Proof.
  rewrite trackConnection_unfold.
  destruct (Z.leb_spec MAX_CONNECTIONS_PER_IP_PER_ROOM (quota t ip r)); simpl;
    [discriminate|auto].
Qed.

Lemma trackConnection_refused_unchanged ip r (t : gmap string (gmap string Z)) :
  snd (trackConnection ip r t) = false → fst (trackConnection ip r t) = t.
Proof.
  intros H. destruct (Z.lt_ge_cases (quota t ip r) MAX_CONNECTIONS_PER_IP_PER_ROOM) as [Hlt|Hge].
  - rewrite trackConnection_accepts in H by assumption. discriminate H.
  - rewrite trackConnection_refuses by assumption. reflexivity.
Qed.

(** Extra X7.  On every table the server can hold, a refused admission
    leaves the table as it is, and an admission followed by the release
    of the same pair gives the table back. *)
Theorem track_then_untrack_restores (ops : list TrackerOp) (clientIP roomId : string) :
  let t := tracker_after ops in
  (snd (trackConnection clientIP roomId t) = false →
     fst (trackConnection clientIP roomId t) = t)
  ∧ (snd (trackConnection clientIP roomId t) = true →
     untrackConnection clientIP roomId (fst (trackConnection clientIP roomId t)) = t).
Proof.
  intros t. split.
  - apply trackConnection_refused_unchanged.
  - intros H. apply untrack_after_track.
    + apply tracker_wf_reachable.
    + apply trackConnection_accepted_below_cap. exact H.
Qed.

Lemma track_then_untrack_restores_witness :
  untrackConnection "203.0.113.9" "filetree-42"
    (fst (trackConnection "203.0.113.9" "filetree-42" (tracker_after ten_tracks)))
  = tracker_after ten_tracks.
Proof.
  pose proof (track_then_untrack_restores ten_tracks "203.0.113.9" "filetree-42") as H.
  cbv zeta in H. destruct H as [_ H]. apply H. vm_compute. reflexivity.
Defined.

(** Extra X8.  On every table the server can hold, a release lowers the
    count of its pair by one, not below zero, and leaves the count of
    every other pair as it is. *)
Theorem untrack_touches_one_pair (ops : list TrackerOp) (clientIP roomId ip r : string) :
  let t := tracker_after ops in
  quota (untrackConnection clientIP roomId t) ip r
  = if bool_decide (ip = clientIP ∧ r = roomId)
    then Z.max 0 (quota t clientIP roomId - 1)
    else quota t ip r.
Proof.
  intros t. rewrite quota_untrack.
  pose proof (quota_bounded_reachable ops clientIP roomId) as Hb. fold t in Hb.
  case_bool_decide; [|reflexivity].
  destruct (Z.leb_spec (quota t clientIP roomId) 1); lia.
Qed.

(** ** The document registry, further *)

Section RegistryFacts.
Context {Y : YjsLib}.
Implicit Types (m : YjsDocumentManager Y) (roomId : string) (message : Buffer).

Lemma handleYjsMessage_lookups roomId message m :
  let m' := fst (handleYjsMessage roomId message m) in
  (∀ r, r ≠ roomId → documents m' !! r = documents m !! r
                     ∧ documentStates m' !! r = documentStates m !! r)
  ∧ (message ≠ [] → is_Some (documents m' !! roomId))
  ∧ (is_Some (documentStates m' !! roomId) →
     is_Some (documentStates m !! roomId) ∨ message ≠ []).
Proof.
  intros m'. subst m'. destruct message as [|b message].
  { rewrite handleYjsMessage_empty. simpl. repeat split; auto. congruence. }
  rewrite handleYjsMessage_unfold by discriminate. simpl.
  destruct (snd (Y_applyUpdate _ _)); [destruct (Y_encodeStateAsUpdate _)|]; simpl;
    (split; [intros r Hr; rewrite ?lookup_insert_ne by congruence; auto|]);
    (split; [intros _; rewrite lookup_insert_eq; eauto | intros _; right; discriminate]).
Qed.

(** Extra X9.  However messages and cleanups follow one another, the
    registry never holds a state snapshot for a room without holding the
    room's document. *)
Theorem registry_snapshots_have_documents (ops : list RegistryOp) :
  snapshots_have_documents (registry_after (Y := Y) ops).
Proof.
  unfold registry_after. induction ops as [|op ops IH] using rev_ind.
  - intros r [x Hx]. simpl in Hx. rewrite lookup_empty in Hx. discriminate.
  - rewrite foldl_app. simpl.
    set (m := foldl (fun m op => registry_step op m) _ ops) in *.
    destruct op as [roomId message|roomId|]; simpl.
    + intros r Hr. destruct (handleYjsMessage_lookups roomId message m) as (Ho & Hd & Hs).
      destruct (decide (r = roomId)) as [->|Hne].
      * destruct message as [|b message].
        -- rewrite handleYjsMessage_empty in *. simpl in *. apply IH. exact Hr.
        -- apply Hd. discriminate.
      * destruct (Ho r Hne) as [Hd' Hs']. rewrite Hd'. rewrite Hs' in Hr.
        apply IH. exact Hr.
    + intros r Hr. simpl in *.
      destruct (decide (r = roomId)) as [->|Hne].
      * rewrite lookup_delete_eq in Hr. destruct Hr as [? Hr]. discriminate.
      * rewrite lookup_delete_ne in Hr by congruence.
        rewrite lookup_delete_ne by congruence. apply IH. exact Hr.
    + intros r [x Hx]. simpl in Hx. rewrite lookup_empty in Hx. discriminate.
Qed.

(** Extra X10.  A message for one room leaves the documents and snapshots
    of every other room as they are; an empty message changes nothing at
    all; after a non-empty one the room has a document, whether the
    library took the frame or refused it. *)
Theorem handleYjsMessage_touches_one_room roomId message m :
  let m' := fst (handleYjsMessage roomId message m) in
  (∀ r, r ≠ roomId →
     documents m' !! r = documents m !! r
     ∧ documentStates m' !! r = documentStates m !! r
     ∧ getDocumentContent r m' = getDocumentContent r m)
  ∧ (message = [] → m' = m)
  ∧ (message ≠ [] → fst (fst (getDocumentInfo roomId m')) = true).
Proof.
  intros m'. destruct (handleYjsMessage_lookups roomId message m) as (Ho & Hd & _).
  fold m' in Ho, Hd. split; [|split].
  - intros r Hne. destruct (Ho r Hne) as [H1 H2]. repeat split; auto.
    unfold getDocumentContent. rewrite H1. reflexivity.
  - intros ->. reflexivity.
  - intros Hne. destruct (Hd Hne) as [doc Hdoc].
    unfold getDocumentInfo. rewrite Hdoc. reflexivity.
Qed.

(** Extra X11.  [cleanupDocument] forgets the room's document and
    snapshot, so that the room reads as having no document and empty
    text; a second cleanup changes nothing; other rooms are untouched. *)
Theorem cleanupDocument_forgets_room roomId m :
  let m' := cleanupDocument roomId m in
  getDocumentInfo roomId m' = (false, 0, 0)
  ∧ getDocumentContent roomId m' = ""
  ∧ documentStates m' !! roomId = None
  ∧ cleanupDocument roomId m' = m'
  ∧ (∀ r, r ≠ roomId → getDocumentInfo r m' = getDocumentInfo r m
                       ∧ getDocumentContent r m' = getDocumentContent r m).
Proof.
  intros m'. subst m'. unfold getDocumentInfo, getDocumentContent, cleanupDocument. simpl.
  rewrite !lookup_delete_eq. repeat split.
  - apply manager_eq; simpl; apply delete_id; apply lookup_delete_eq.
  - rewrite !lookup_delete_ne by congruence. reflexivity.
  - rewrite !lookup_delete_ne by congruence. reflexivity.
Qed.

End RegistryFacts.

Lemma handleYjsMessage_touches_one_room_witness :
  getDocumentContent "repo-7-b.ts"
    (fst (handleYjsMessage "repo-7-a.ts" hi_frame
       (fst (handleYjsMessage "repo-7-b.ts" hi_frame emptyRegistry)))) = "hi"
  ∧ fst (fst (getDocumentInfo "repo-7-a.ts"
       (fst (handleYjsMessage "repo-7-a.ts" [Byte.x01] emptyRegistry)))) = true.
Proof.
  split.
  - destruct (handleYjsMessage_touches_one_room (Y := standinYjs) "repo-7-a.ts" hi_frame
                (fst (handleYjsMessage "repo-7-b.ts" hi_frame emptyRegistry))) as (H & _).
    destruct (H "repo-7-b.ts") as (_ & _ & Hc); [discriminate|].
    rewrite Hc. vm_compute. reflexivity.
  - destruct (handleYjsMessage_touches_one_room (Y := standinYjs) "repo-7-a.ts" [Byte.x01]
                emptyRegistry) as (_ & _ & H).
    apply H. discriminate.
Defined.

Lemma cleanupDocument_forgets_room_witness :
  getDocumentContent "repo-7-b.ts"
    (cleanupDocument "repo-7-a.ts"
       (fst (handleYjsMessage "repo-7-b.ts" hi_frame emptyRegistry))) = "hi".
Proof.
  destruct (cleanupDocument_forgets_room (Y := standinYjs) "repo-7-a.ts"
              (fst (handleYjsMessage "repo-7-b.ts" hi_frame emptyRegistry)))
    as (_ & _ & _ & _ & H).
  destruct (H "repo-7-b.ts") as [_ Hc]; [discriminate|].
  rewrite Hc. vm_compute. reflexivity.
Defined.


(** ** Rooms and their members, further *)

Section RoomFacts.
Context {Y : YjsLib}.
Implicit Types (w : World Y) (roomId : string) (client : nat) (room : RoomInfo).

Lemma rm_eq (m1 m2 : RoomManager Y) :
  rooms m1 = rooms m2 → gracePeriods m1 = gracePeriods m2 →
  yjsManager m1 = yjsManager m2 → gracePeriodMs m1 = gracePeriodMs m2 → m1 = m2.
Proof. destruct m1, m2; simpl; intros; subst; reflexivity. Qed.

Lemma active_fold w (l : list nat) : ∀ n,
  foldl (fun activeCount c => if isActive (socket_of w c) then activeCount + 1 else activeCount)
        n l
  = n + Z.of_nat (length (active_in w l)).
Proof.
  unfold active_in. induction l as [|c l IH]; intros n; simpl; [lia|].
  rewrite IH. destruct (isActive (socket_of w c)); simpl; lia.
Qed.

Lemma getActiveClientCount_filter roomId w :
  getActiveClientCount roomId w
  = match room_of w roomId with
    | Some room => Z.of_nat (length (active_in w (clients room)))
    | None => 0
    end.
Proof.
  unfold getActiveClientCount. destruct (room_of w roomId); [|reflexivity].
  rewrite active_fold. lia.
Qed.

Lemma isInactive_spec s : isInactive s = negb (isActive s).
Proof.
  unfold isInactive, isActive.
  destruct (readyState s =? 1), (bool_decide (ws_isAlive s = Some false)),
    (isTruthy (ws_clientId s)), (isTruthy (ws_roomId s)); reflexivity.
Qed.

Lemma has_client_In client room : has_client client room = true ↔ In client (clients room).
Proof.
  unfold has_client. rewrite existsb_exists. split.
  - intros (x & Hx & E). apply Nat.eqb_eq in E as ->. exact Hx.
  - intros H. exists client. split; [exact H | apply Nat.eqb_refl].
Qed.

Lemma has_client_not_In client room :
  has_client client room = false ↔ ¬ In client (clients room).
Proof. rewrite <- has_client_In. destruct (has_client client room); split; congruence. Qed.

Lemma filter_out_absent (c : nat) (l : list nat) :
  ¬ In c l → List.filter (fun x => negb (Nat.eqb x c)) l = l.
Proof.
  induction l as [|a l IH]; simpl; intros H; [reflexivity|].
  destruct (Nat.eqb_spec a c) as [->|Hne]; simpl.
  - exfalso. apply H. left. reflexivity.
  - rewrite IH; [reflexivity|]. intros Hin. apply H. right. exact Hin.
Qed.

Lemma filter_out_last (c : nat) (l : list nat) :
  ¬ In c l → List.filter (fun x => negb (Nat.eqb x c)) (l ++ [c]) = l.
Proof.
  intros H. rewrite List.filter_app. simpl. rewrite Nat.eqb_refl. simpl.
  rewrite app_nil_r. apply filter_out_absent. exact H.
Qed.

Lemma addClient_frame roomId client w :
  let w' := fst (addClient roomId client w) in
  rooms (roomManager w') = <[roomId := joined client roomId w]> (rooms (roomManager w))
  ∧ gracePeriods (roomManager w') = delete roomId (gracePeriods (roomManager w))
  ∧ yjsManager (roomManager w') = yjsManager (roomManager w)
  ∧ gracePeriodMs (roomManager w') = gracePeriodMs (roomManager w)
  ∧ sockets w' = sockets w ∧ now w' = now w ∧ nextTimer w' = nextTimer w
  ∧ connectionTracker w' = connectionTracker w
  ∧ timers w' = match gracePeriods (roomManager w) !! roomId with
                | Some timeout => delete timeout (timers w)
                | None => timers w
                end
  ∧ snd (addClient roomId client w) = getActiveClientCount roomId w'.
Proof.
  unfold addClient, joined.
  destruct (gracePeriods (roomManager w) !! roomId) as [h|] eqn:Hg.
  - set (w1 := upd_rm _ (emit _ (upd_timers _ w))).
    change (room_of w1 roomId) with (room_of w roomId).
    destruct (room_of w roomId) as [room|] eqn:E.
    + change (room_of w1 roomId) with (room_of w roomId). rewrite E.
      destruct (has_client client room); simpl; repeat split; try reflexivity.
      unfold room_of in E. symmetry. apply insert_id. exact E.
    + assert (Hnew : room_of (upd_rm (set_rooms <[roomId := newRoom roomId (now w1)]>) w1)
                       roomId = Some (newRoom roomId (now w1)))
        by (unfold room_of; simpl; apply lookup_insert_eq).
      rewrite Hnew. simpl. repeat split; try reflexivity.
      apply insert_insert_eq.
  - assert (Hd : delete roomId (gracePeriods (roomManager w)) = gracePeriods (roomManager w))
      by (apply delete_id; exact Hg).
    rewrite Hd.
    destruct (room_of w roomId) as [room|] eqn:E.
    + rewrite E. destruct (has_client client room); simpl; repeat split; try reflexivity.
      unfold room_of in E. symmetry. apply insert_id. exact E.
    + assert (Hnew : room_of (upd_rm (set_rooms <[roomId := newRoom roomId (now w)]>) w)
                       roomId = Some (newRoom roomId (now w)))
        by (unfold room_of; simpl; apply lookup_insert_eq).
      rewrite Hnew. simpl. repeat split; try reflexivity.
      apply insert_insert_eq.
Qed.

Lemma joined_has_client client roomId w : has_client client (joined client roomId w) = true.
Proof.
  unfold joined. destruct (room_of w roomId) as [room|].
  - destruct (has_client client room) eqn:E; [exact E | apply has_client_add].
  - apply has_client_add.
Qed.

Lemma getActiveClientCount_ext roomId w w' room room' :
  room_of w roomId = Some room → room_of w' roomId = Some room' →
  clients room = clients room' → sockets w = sockets w' →
  getActiveClientCount roomId w = getActiveClientCount roomId w'.
Proof.
  intros H1 H2 Hc Hs. rewrite !getActiveClientCount_filter, H1, H2, Hc.
  unfold active_in, socket_of. rewrite Hs. reflexivity.
Qed.

(** Extra X12.  The active count of a room is the number of its members
    whose transport is open (ready state 1), whose [isAlive] flag is not
    [false], and whose client id and room id are both set and not empty;
    it lies between zero and the size of the member set, and a room that
    does not exist counts zero. *)
Theorem getActiveClientCount_counts_active roomId w :
  (room_of w roomId = None → getActiveClientCount roomId w = 0)
  ∧ (∀ room, room_of w roomId = Some room →
       ∃ counted,
         getActiveClientCount roomId w = Z.of_nat (length counted)
         ∧ counted
           = List.filter
               (fun c => (readyState (socket_of w c) =? 1)
                         && negb (bool_decide (ws_isAlive (socket_of w c) = Some false))
                         && isTruthy (ws_clientId (socket_of w c))
                         && isTruthy (ws_roomId (socket_of w c)))
               (clients room)
         ∧ (∀ c, In c counted ↔
              In c (clients room)
              ∧ readyState (socket_of w c) = 1
              ∧ ws_isAlive (socket_of w c) ≠ Some false
              ∧ (∃ id, ws_clientId (socket_of w c) = Some id ∧ id ≠ "")
              ∧ (∃ r, ws_roomId (socket_of w c) = Some r ∧ r ≠ ""))
         ∧ 0 ≤ getActiveClientCount roomId w ≤ Z.of_nat (length (clients room))).
Proof.
  assert (Htruthy : ∀ o, isTruthy o = true ↔ ∃ s, o = Some s ∧ s ≠ "").
  { intros [s|]; simpl.
    - rewrite negb_true_iff, bool_decide_eq_false. split.
      + intros Hs. exists s. auto.
      + intros (s' & [= <-] & Hs). exact Hs.
    - split; [discriminate|]. intros (s & Hs & _). discriminate Hs. }
  rewrite getActiveClientCount_filter. split.
  - intros ->. reflexivity.
  - intros room ->. eexists. split; [reflexivity|]. split; [reflexivity|]. split.
    + intros c. unfold active_in. rewrite filter_In. unfold isActive.
      rewrite !andb_true_iff, Z.eqb_eq, negb_true_iff, bool_decide_eq_false, !Htruthy.
      tauto.
    + unfold active_in.
      pose proof (List.filter_length_le (fun c => isActive (socket_of w c)) (clients room)).
      lia.
Qed.

(** Extra X13.  [addClient] is idempotent: a second insertion of the same
    connection leaves the world as the first left it and returns the same
    count.  The connection is a member afterwards, the members it found
    stay, in their order, and a member set without duplicates stays
    without duplicates. *)
Theorem addClient_is_idempotent roomId client w :
  let w1 := fst (addClient roomId client w) in
  addClient roomId client w1 = (w1, snd (addClient roomId client w))
  ∧ (∃ room1, room_of w1 roomId = Some room1
       ∧ In client (clients room1)
       ∧ ∀ room, room_of w roomId = Some room →
           (clients room1 = clients room ∨ clients room1 = clients room ++ [client])
           ∧ (NoDup (clients room) → NoDup (clients room1))).
Proof.
  intros w1.
  destruct (addClient_frame roomId client w)
    as (Hr & Hg & _ & _ & _ & _ & _ & _ & _ & Hn). fold w1 in Hr, Hg, Hn.
  assert (Hroom : room_of w1 roomId = Some (joined client roomId w))
    by (unfold room_of; rewrite Hr; apply lookup_insert_eq).
  split.
  - unfold addClient at 1.
    assert (Hgn : gracePeriods (roomManager w1) !! roomId = None)
      by (rewrite Hg; apply lookup_delete_eq).
    rewrite Hgn, Hroom, Hroom, joined_has_client. rewrite Hn. reflexivity.
  - exists (joined client roomId w). split; [exact Hroom|].
    split; [apply has_client_In, joined_has_client|].
    intros room E. unfold joined. rewrite E.
    destruct (has_client client room) eqn:Hm.
    + split; [left; reflexivity | auto].
    + split; [right; reflexivity|]. simpl. intros Hnd.
      apply NoDup_app. split; [exact Hnd|]. split.
      * intros x Hx Hx'. apply list_elem_of_In in Hx. apply list_elem_of_In in Hx'.
        destruct Hx' as [<-|[]]. apply has_client_not_In in Hm. contradiction.
      * apply NoDup_singleton.
Qed.

(** *** Closing sockets and destroying rooms *)

Lemma closing_not_open s : readyState (closing s) ≠ 1.
Proof.
  unfold closing. destruct (Z.eqb_spec (readyState s) 3) as [E|E]; simpl; lia.
Qed.

Lemma closing_inactive s : isActive (closing s) = false.
Proof.
  unfold isActive. pose proof (closing_not_open s) as H.
  destruct (Z.eqb_spec (readyState (closing s)) 1); [contradiction|reflexivity].
Qed.

Lemma closing_keeps_closed s : readyState s ≠ 1 → readyState (closing s) ≠ 1.
Proof. intros _. apply closing_not_open. Qed.

Lemma socket_of_alter (f : ExtendedWebSocket → ExtendedWebSocket) c w x :
  f blank_socket = blank_socket →
  socket_of (upd_sockets (alter f c) w) x
  = if decide (x = c) then f (socket_of w c) else socket_of w x.
Proof.
  intros Hb. unfold socket_of. simpl. destruct (decide (x = c)) as [->|Hne].
  - rewrite lookup_alter_eq. destruct (sockets w !! c); simpl; [reflexivity|symmetry; exact Hb].
  - rewrite lookup_alter_ne by congruence. reflexivity.
Qed.

Lemma socket_of_close c code reason w x :
  socket_of (closeSocket c code reason w) x
  = if decide (x = c) then closing (socket_of w c) else socket_of w x.
Proof.
  unfold closeSocket.
  change (socket_of (emit _ ?w') x) with (socket_of w' x).
  apply (socket_of_alter (fun s => if readyState s =? 3 then s else set_readyState 2 s)).
  reflexivity.
Qed.

Lemma socket_of_terminate c w x :
  socket_of (terminateSocket c w) x
  = if decide (x = c) then closing (socket_of w c) else socket_of w x.
Proof.
  unfold terminateSocket.
  apply (socket_of_alter (fun s => if readyState s =? 3 then s else set_readyState 2 s)).
  reflexivity.
Qed.

Lemma close_fold_sockets code reason (l : list nat) : ∀ w,
  let w' := foldl (fun w c => if readyState (socket_of w c) =? 1
                              then closeSocket c code reason w else w) w l in
  (∀ x, In x l → readyState (socket_of w' x) ≠ 1)
  ∧ (∀ x, socket_of w' x = socket_of w x ∨ socket_of w' x = closing (socket_of w x))
  ∧ (∀ x, ¬ In x l → socket_of w' x = socket_of w x)
  ∧ connectionTracker w' = connectionTracker w ∧ nextTimer w' = nextTimer w.
Proof.
  induction l as [|c l IH]; intros w; simpl.
  - split; [intros x []|]. repeat split; auto.
  - set (w1 := if readyState (socket_of w c) =? 1 then closeSocket c code reason w else w).
    destruct (IH w1) as (Hin & Hall & Hout & Ht & Hn).
    assert (H1 : ∀ x, socket_of w1 x = socket_of w x
                     ∨ (x = c ∧ socket_of w1 x = closing (socket_of w x))).
    { intros x. subst w1. destruct (readyState (socket_of w c) =? 1); [|auto].
      rewrite socket_of_close. destruct (decide (x = c)) as [->|]; auto. }
    assert (Hc : readyState (socket_of w1 c) ≠ 1).
    { subst w1. destruct (Z.eqb_spec (readyState (socket_of w c)) 1) as [E|E]; [|exact E].
      rewrite socket_of_close. rewrite decide_True by reflexivity. apply closing_not_open. }
    assert (Hcl : ∀ s, closing (closing s) = closing s).
    { intros s. unfold closing. destruct (Z.eqb_spec (readyState s) 3) as [E|E].
      - rewrite (proj2 (Z.eqb_eq _ _) E). reflexivity.
      - simpl. reflexivity. }
    split; [|split; [|split; [|split]]].
    + intros x [<-|Hx]; [|apply Hin; exact Hx].
      destruct (Hall c) as [E|E]; rewrite E; [exact Hc | apply closing_not_open].
    + intros x. destruct (Hall x) as [E|E], (H1 x) as [E1|[_ E1]]; rewrite E, E1; auto.
    + intros x Hx. rewrite Hout by (intros Hin'; apply Hx; right; exact Hin').
      destruct (H1 x) as [E|[-> _]]; [exact E|]. exfalso. apply Hx. left. reflexivity.
    + rewrite Ht. subst w1. destruct (readyState (socket_of w c) =? 1); reflexivity.
    + rewrite Hn. subst w1. destruct (readyState (socket_of w c) =? 1); reflexivity.
Qed.

Lemma filter_none {A} (f : A → bool) (l : list A) :
  (∀ x, In x l → f x = false) → List.filter f l = [].
Proof.
  induction l as [|a l IH]; simpl; intros H; [reflexivity|].
  rewrite (H a (or_introl eq_refl)). apply IH. intros x Hx. apply H. right. exact Hx.
Qed.

(** What [cleanupRoom] makes of the room manager. *)
Lemma cleanupRoom_rm roomId w room :
  room_of w roomId = Some room →
  let w' := cleanupRoom roomId w in
  rooms (roomManager w') = delete roomId (rooms (roomManager w))
  ∧ gracePeriods (roomManager w') = gracePeriods (roomManager w)
  ∧ yjsManager (roomManager w')
    = (if SaveManager.isCodeEditorRoom roomId
       then cleanupDocument roomId (yjsManager (roomManager w))
       else yjsManager (roomManager w))
  ∧ gracePeriodMs (roomManager w') = gracePeriodMs (roomManager w)
  ∧ (∀ x, In x (clients room) → readyState (socket_of w' x) ≠ 1)
  ∧ (∀ x, socket_of w' x = socket_of w x ∨ socket_of w' x = closing (socket_of w x))
  ∧ (∀ x, ¬ In x (clients room) → socket_of w' x = socket_of w x)
  ∧ connectionTracker w' = connectionTracker w ∧ nextTimer w' = nextTimer w.
Proof.
  intros E. unfold cleanupRoom. rewrite E.
  destruct (close_fold_frame (fun w c => readyState (socket_of w c) =? 1)
              1000 "Room cleanup" (clients room) w) as (Hrm & _ & _).
  destruct (close_fold_sockets 1000 "Room cleanup" (clients room) w)
    as (Hin & Hall & Hout & Ht & Hn).
  destruct (SaveManager.isCodeEditorRoom roomId); simpl; rewrite Hrm;
    repeat split; auto.
Qed.

Lemma cleanupRoom_absent roomId w : room_of w roomId = None → cleanupRoom roomId w = w.
Proof. unfold cleanupRoom. intros ->. reflexivity. Qed.

Lemma SaveManager_codeEditor_not_fileTree roomId :
  SaveManager.isCodeEditorRoom roomId = true → SaveManager.isFileTreeRoom roomId = false.
Proof.
  intros H. apply not_true_is_false. intros F.
  destruct (codeEditor_family roomId (or_intror H)) as (t & ->).
  apply fileTree_family in F as (t' & F). discriminate F.
Qed.

Lemma setTimeout_delay_in_range ms : 1 ≤ ms ≤ TIMEOUT_MAX → setTimeout_delay ms = ms.
Proof.
  intros [H1 H2]. unfold setTimeout_delay.
  destruct (Z.leb_spec 1 ms); [|lia]. destruct (Z.leb_spec ms TIMEOUT_MAX); [|lia].
  reflexivity.
Qed.

Lemma setTimeout_delay_out_of_range ms :
  ms < 1 ∨ TIMEOUT_MAX < ms → setTimeout_delay ms = 1.
Proof.
  intros H. unfold setTimeout_delay.
  destruct (Z.leb_spec 1 ms); [|reflexivity].
  destruct (Z.leb_spec ms TIMEOUT_MAX); [lia|reflexivity].
Qed.

Lemma setTimeout_delay_bounds ms : 1 ≤ setTimeout_delay ms ≤ TIMEOUT_MAX.
Proof.
  unfold setTimeout_delay, TIMEOUT_MAX.
  destruct (Z.leb_spec 1 ms); simpl; [|lia].
  destruct (Z.leb_spec ms 2147483647); simpl; lia.
Qed.

Lemma startGracePeriod_editor roomId w :
  SaveManager.isCodeEditorRoom roomId = true →
  startGracePeriod roomId w
  = upd_rm (set_gracePeriods <[roomId := nextTimer w]>)
      (emit (EvSetTimeout (nextTimer w)
               (now w + setTimeout_delay (gracePeriodMs (roomManager w))) roomId)
         (set_nextTimer (S (nextTimer w))
            (upd_timers <[nextTimer w
                          := (now w + setTimeout_delay (gracePeriodMs (roomManager w)),
                              roomId)]> w))).
Proof.
  intros H. unfold startGracePeriod.
  rewrite (SaveManager_codeEditor_not_fileTree roomId H), H. reflexivity.
Qed.

Lemma startGracePeriod_other roomId w :
  SaveManager.isCodeEditorRoom roomId = false →
  startGracePeriod roomId w = cleanupRoom roomId w.
Proof.
  intros H. unfold startGracePeriod. rewrite H.
  destruct (SaveManager.isFileTreeRoom roomId); reflexivity.
Qed.

(** Extra X14.  [cleanupRoom] removes the room and, for a code-editor
    room, its document and snapshot; no member of the room is left open;
    no other room, no grace entry and no quota entry changes; a second
    cleanup does nothing. *)
Theorem cleanupRoom_destroys_room roomId w room :
  room_of w roomId = Some room →
  let w' := cleanupRoom roomId w in
  room_of w' roomId = None
  ∧ (SaveManager.isCodeEditorRoom roomId = true →
       documents (yjsManager (roomManager w')) !! roomId = None
       ∧ documentStates (yjsManager (roomManager w')) !! roomId = None)
  ∧ (∀ x, In x (clients room) → readyState (socket_of w' x) ≠ 1)
  ∧ (∀ r, r ≠ roomId → room_of w' r = room_of w r)
  ∧ gracePeriods (roomManager w') = gracePeriods (roomManager w)
  ∧ connectionTracker w' = connectionTracker w
  ∧ cleanupRoom roomId w' = w'.
Proof.
  intros E w'.
  destruct (cleanupRoom_rm roomId w room E) as (Hr & Hg & Hy & _ & Hin & _ & _ & Ht & _).
  fold w' in Hr, Hg, Hy, Hin, Ht.
  assert (Hgone : room_of w' roomId = None)
    by (unfold room_of; rewrite Hr; apply lookup_delete_eq).
  split; [exact Hgone|]. split; [|split; [exact Hin|split; [|split; [exact Hg|split]]]].
  - intros Hk. rewrite Hy, Hk. simpl. split; apply lookup_delete_eq.
  - intros r Hne. unfold room_of. rewrite Hr. apply lookup_delete_ne. congruence.
  - exact Ht.
  - apply cleanupRoom_absent. exact Hgone.
Qed.

(** The last active member leaving: the room is handed to
    [startGracePeriod] without the member. *)
Lemma removeClient_last_eq roomId client w room :
  room_of w roomId = Some room →
  In client (clients room) →
  (∀ x, In x (clients room) → x ≠ client → isActive (socket_of w x) = false) →
  removeClient roomId client w
  = (startGracePeriod roomId
       (upd_rm (set_rooms <[roomId := room_touch (now w) (room_delete client room)]>) w), 0).
Proof.
  intros E Hin Hothers. unfold removeClient. rewrite E.
  rewrite (proj2 (has_client_In client room) Hin). simpl.
  set (w1 := upd_rm (set_rooms <[roomId := room_touch (now w) (room_delete client room)]>) w).
  assert (E1 : room_of w1 roomId = Some (room_touch (now w) (room_delete client room)))
    by (unfold room_of; simpl; apply lookup_insert_eq).
  assert (Hzero : getActiveClientCount roomId w1 = 0).
  { rewrite getActiveClientCount_filter, E1. simpl. unfold active_in.
    change (socket_of w1) with (socket_of w).
    rewrite filter_none; [reflexivity|].
    intros x Hx. apply filter_In in Hx as [Hx Hne'].
    apply negb_true_iff, Nat.eqb_neq in Hne'. exact (Hothers x Hx Hne'). }
  rewrite Hzero. reflexivity.
Qed.

(** Extra X15.  When the last active member leaves, a code-editor room
    stays, without the member, and one timeout is armed for it and
    entered in the grace-timer set.  It is due when the delay the runtime
    makes of the grace period has passed: one grace period from now when
    the grace period lies between 1 and 2147483647 ms, one millisecond
    from now when it does not.  A room of any other kind is destroyed at
    once and no timeout is armed. *)
Theorem removeClient_last_active roomId client w room :
  room_of w roomId = Some room →
  In client (clients room) →
  (∀ x, In x (clients room) → x ≠ client → isActive (socket_of w x) = false) →
  let w' := fst (removeClient roomId client w) in
  snd (removeClient roomId client w) = 0
  ∧ (SaveManager.isCodeEditorRoom roomId = true →
       clients <$> room_of w' roomId
       = Some (List.filter (fun c => negb (Nat.eqb c client)) (clients room))
       ∧ timers w'
         = <[nextTimer w := (now w + setTimeout_delay (gracePeriodMs (roomManager w)), roomId)]>
             (timers w)
       ∧ (1 ≤ gracePeriodMs (roomManager w) ≤ TIMEOUT_MAX →
            timers w' = <[nextTimer w := (now w + gracePeriodMs (roomManager w), roomId)]>
                          (timers w))
       ∧ (gracePeriodMs (roomManager w) < 1 ∨ TIMEOUT_MAX < gracePeriodMs (roomManager w) →
            timers w' = <[nextTimer w := (now w + 1, roomId)]> (timers w))
       ∧ gracePeriods (roomManager w') !! roomId = Some (nextTimer w)
       ∧ yjsManager (roomManager w') = yjsManager (roomManager w))
  ∧ (SaveManager.isCodeEditorRoom roomId = false →
       room_of w' roomId = None
       ∧ timers w' = timers w
       ∧ gracePeriods (roomManager w') = gracePeriods (roomManager w)).
Proof.
  intros E Hin Hothers w'. subst w'.
  rewrite (removeClient_last_eq roomId client w room E Hin Hothers). simpl.
  set (w1 := upd_rm (set_rooms <[roomId := room_touch (now w) (room_delete client room)]>) w).
  assert (E1 : room_of w1 roomId = Some (room_touch (now w) (room_delete client room)))
    by (unfold room_of; simpl; apply lookup_insert_eq).
  split; [reflexivity|]. split.
  - intros Hk. rewrite (startGracePeriod_editor roomId w1 Hk). simpl.
    unfold room_of. simpl. rewrite lookup_insert_eq. simpl.
    split; [reflexivity|]. split; [reflexivity|]. split; [|split; [|split]].
    + intros Hin_range. rewrite (setTimeout_delay_in_range _ Hin_range). reflexivity.
    + intros Hout. rewrite (setTimeout_delay_out_of_range _ Hout). reflexivity.
    + apply lookup_insert_eq.
    + reflexivity.
  - intros Hk. rewrite (startGracePeriod_other roomId w1 Hk).
    destruct (cleanupRoom_rm roomId w1 _ E1) as (Hr & Hg & _).
    destruct (cleanupRoom_frame roomId w1) as (Ht & _).
    rewrite Ht, Hg. repeat split.
    unfold room_of. rewrite Hr. apply lookup_delete_eq.
Qed.

(** *** Grace timers *)

(** Extra X16.  A pending timeout that has come due fires: it leaves the
    pending set, and the grace entry of its room is removed whichever
    timeout the entry named.  With no active member the room is gone
    afterwards, with the document and snapshot of a code-editor room that
    existed; with an active member, rooms, registry and sockets are as
    before.  No other room changes. *)
Theorem fireTimer_fires handle w due roomId :
  timers w !! handle = Some (due, roomId) →
  due ≤ now w →
  ∃ w', fireTimer handle w = Some w'
    ∧ timers w' = delete handle (timers w)
    ∧ gracePeriods (roomManager w') = delete roomId (gracePeriods (roomManager w))
    ∧ (getActiveClientCount roomId w = 0 →
         room_of w' roomId = None
         ∧ (is_Some (room_of w roomId) → SaveManager.isCodeEditorRoom roomId = true →
              documents (yjsManager (roomManager w')) !! roomId = None
              ∧ documentStates (yjsManager (roomManager w')) !! roomId = None))
    ∧ (getActiveClientCount roomId w ≠ 0 →
         rooms (roomManager w') = rooms (roomManager w)
         ∧ yjsManager (roomManager w') = yjsManager (roomManager w)
         ∧ sockets w' = sockets w)
    ∧ (∀ r, r ≠ roomId → room_of w' r = room_of w r).
Proof.
  intros Ht Hdue. unfold fireTimer. rewrite Ht.
  destruct (Z.leb_spec due (now w)) as [_|Hlt]; [|lia].
  set (w0 := upd_timers (delete handle) w).
  eexists. split; [reflexivity|].
  destruct (graceTimerCallback_frame roomId w0) as (Htm & _ & Hother).
  split; [rewrite Htm; reflexivity|].
  assert (Hcount : getActiveClientCount roomId w0 = getActiveClientCount roomId w)
    by reflexivity.
  split; [|split; [|split; [|exact Hother]]].
  - unfold graceTimerCallback. simpl.
    destruct (room_of w0 roomId) as [room|] eqn:E.
    + destruct (getActiveClientCount roomId w0 =? 0); [|reflexivity].
      destruct (cleanupRoom_rm roomId w0 room E) as (_ & -> & _). reflexivity.
    + rewrite (cleanupRoom_absent roomId w0 E). reflexivity.
  - intros Hz. unfold graceTimerCallback. rewrite Hcount, Hz. simpl.
    destruct (room_of w0 roomId) as [room|] eqn:E.
    + destruct (cleanupRoom_rm roomId w0 room E) as (Hr & _ & Hy & _).
      split.
      * unfold room_of. simpl. rewrite Hr. apply lookup_delete_eq.
      * intros _ Hk. simpl. rewrite Hy, Hk. simpl. split; apply lookup_delete_eq.
    + rewrite (cleanupRoom_absent roomId w0 E). split.
      * exact E.
      * change (room_of w roomId) with (room_of w0 roomId). rewrite E.
        intros [x Hx]. discriminate Hx.
  - intros Hnz. unfold graceTimerCallback. rewrite Hcount.
    destruct (room_of w0 roomId) as [room|] eqn:E.
    + destruct (Z.eqb_spec (getActiveClientCount roomId w) 0) as [Hz|_]; [contradiction|].
      repeat split.
    + exfalso. apply Hnz. rewrite <- Hcount, getActiveClientCount_filter, E. reflexivity.
Qed.

(** Extra X17.  The life of a grace period that nobody interrupts, for
    a grace period between 1 and 2147483647 ms (the delays the runtime
    keeps as they are): the last active member leaves a code-editor room;
    the timeout armed for it cannot fire before the grace period has
    passed; once it has, the timeout fires and room, document, snapshot,
    grace entry and timeout are all gone. *)
Theorem grace_period_runs_out roomId client w room :
  SaveManager.isCodeEditorRoom roomId = true →
  room_of w roomId = Some room →
  In client (clients room) →
  (∀ x, In x (clients room) → x ≠ client → isActive (socket_of w x) = false) →
  1 ≤ gracePeriodMs (roomManager w) ≤ TIMEOUT_MAX →
  let w1 := fst (removeClient roomId client w) in
  let timeout := nextTimer w in
  (∀ dt, 0 ≤ dt < gracePeriodMs (roomManager w) → fireTimer timeout (advance dt w1) = None)
  ∧ ∃ w3, fireTimer timeout (advance (gracePeriodMs (roomManager w)) w1) = Some w3
      ∧ room_of w3 roomId = None
      ∧ documents (yjsManager (roomManager w3)) !! roomId = None
      ∧ documentStates (yjsManager (roomManager w3)) !! roomId = None
      ∧ gracePeriods (roomManager w3) !! roomId = None
      ∧ timers w3 !! timeout = None.
Proof.
  intros Hk E Hin Hothers Hgp w1 timeout. subst w1.
  rewrite (removeClient_last_eq roomId client w room E Hin Hothers). simpl.
  set (w0 := upd_rm (set_rooms <[roomId := room_touch (now w) (room_delete client room)]>) w).
  rewrite (startGracePeriod_editor roomId w0 Hk).
  change (gracePeriodMs (roomManager w0)) with (gracePeriodMs (roomManager w)).
  rewrite (setTimeout_delay_in_range _ Hgp).
  set (w1 := upd_rm _ _).
  assert (Hpend : ∀ dt, timers (advance dt w1) !! timeout
                        = Some (now w + gracePeriodMs (roomManager w), roomId)).
  { intros dt. simpl. apply lookup_insert_eq. }
  split.
  - intros dt Hdt. apply (fireTimer_not_due _ _ _ _ (Hpend dt)). simpl. lia.
  - unfold fireTimer.
    rewrite (Hpend (gracePeriodMs (roomManager w))).
    set (w2 := advance (gracePeriodMs (roomManager w)) w1).
    destruct (Z.leb_spec (now w + gracePeriodMs (roomManager w)) (now w2)) as [_|Hlt];
      [|simpl in Hlt; lia].
    eexists. split; [reflexivity|].
    set (w2' := upd_timers (delete timeout) w2).
    assert (E2 : room_of w2' roomId = Some (room_touch (now w) (room_delete client room)))
      by (unfold room_of; simpl; apply lookup_insert_eq).
    assert (Hzero : getActiveClientCount roomId w2' = 0).
    { rewrite getActiveClientCount_filter, E2. simpl. unfold active_in.
      change (socket_of w2') with (socket_of w).
      rewrite filter_none; [reflexivity|].
      intros x Hx. apply filter_In in Hx as [Hx Hne].
      apply negb_true_iff, Nat.eqb_neq in Hne. exact (Hothers x Hx Hne). }
    unfold graceTimerCallback. rewrite E2, Hzero. simpl.
    destruct (cleanupRoom_rm roomId w2' _ E2) as (Hr & _ & Hy & _).
    destruct (cleanupRoom_frame roomId w2') as (Ht & _).
    rewrite Hy, Hk, Ht. unfold room_of. simpl. rewrite Hr.
    repeat split; apply lookup_delete_eq.
Qed.

End RoomFacts.

(** *** Instances on the sample runs *)

Lemma fireTimer_fires_witness :
  ∃ w', fireTimer 0%nat (advance 1 emptied_room) = Some w'
        ∧ room_of w' "repo-7-foo.ts" = None.
Proof.
  pose proof (fireTimer_fires 0%nat (advance 1 emptied_room) 121000 "repo-7-foo.ts")
    as H.
  destruct H as (w' & Hf & _ & _ & Hz & _).
  - vm_compute. reflexivity.
  - vm_compute. discriminate.
  - exists w'. split; [exact Hf|]. apply Hz. vm_compute. reflexivity.
Defined.


(** Two members that count in [editor_room]; after the heartbeat has
    flagged both, neither counts. *)
Lemma getActiveClientCount_counts_active_witness :
  getActiveClientCount "repo-7-src/main.ts" editor_room = 2
  ∧ getActiveClientCount "repo-7-src/main.ts" pinged_room = 0
  ∧ getActiveClientCount "lobby" editor_room = 0.
Proof.
  split; [|split].
  - destruct (getActiveClientCount_counts_active "repo-7-src/main.ts" editor_room) as [_ H].
    destruct (H (room_add 1 0 (room_add 0 0 (newRoom "repo-7-src/main.ts" 0))))
      as (counted & -> & -> & _); vm_compute; reflexivity.
  - destruct (getActiveClientCount_counts_active "repo-7-src/main.ts" pinged_room) as [_ H].
    destruct (H (room_add 1 0 (room_add 0 0 (newRoom "repo-7-src/main.ts" 0))))
      as (counted & -> & -> & _); vm_compute; reflexivity.
  - destruct (getActiveClientCount_counts_active "lobby" editor_room) as [H _].
    apply H. vm_compute. reflexivity.
Defined.

Lemma addClient_is_idempotent_witness :
  addClient "filetree-42" 0 (fst (addClient "filetree-42" 0 tree_room))
  = (fst (addClient "filetree-42" 0 tree_room), snd (addClient "filetree-42" 0 tree_room)).
Proof.
  pose proof (addClient_is_idempotent "filetree-42" 0%nat tree_room) as H.
  cbv zeta in H. destruct H as [H _]. exact H.
Defined.

Lemma cleanupRoom_destroys_room_witness :
  room_of (cleanupRoom "filetree-42" tree_room) "filetree-42" = None.
Proof.
  pose proof (cleanupRoom_destroys_room "filetree-42" tree_room
                {| room_id := "filetree-42"; clients := [0; 1; 2]%nat;
                   createdAt := 0; lastActivity := 0 |}) as H.
  cbv zeta in H. destruct H as [H _]; [vm_compute; reflexivity | exact H].
Defined.

(** The sole member leaves a code-editor room at time 0, the grace period
    being 120000 ms: the timeout is due at 120000. *)
Lemma removeClient_last_active_witness :
  snd (removeClient "repo-7-foo.ts" 0
         (handleClientConnection 50 "r" 0 (request_for "/repo-7-foo.ts" "203.0.113.9")
            (accept 0 world0))) = 0
  ∧ timers (fst (removeClient "repo-7-foo.ts" 0
                   (handleClientConnection 50 "r" 0
                      (request_for "/repo-7-foo.ts" "203.0.113.9") (accept 0 world0))))
      !! 0%nat = Some (120000, "repo-7-foo.ts").
Proof.
  pose proof (removeClient_last_active "repo-7-foo.ts" 0%nat
                (handleClientConnection 50 "r" 0 (request_for "/repo-7-foo.ts" "203.0.113.9")
                   (accept 0 world0))
                {| room_id := "repo-7-foo.ts"; clients := [0%nat];
                   createdAt := 0; lastActivity := 0 |}) as H.
  cbv zeta in H. destruct H as (H & Heditor & _).
  - vm_compute. reflexivity.
  - left. reflexivity.
  - intros x [<-|[]] Hne. congruence.
  - split; [exact H|].
    destruct Heditor as (_ & _ & Hrange & _); [vm_compute; reflexivity|].
    rewrite Hrange by (vm_compute; split; discriminate).
    vm_compute. reflexivity.
Defined.

Lemma grace_period_runs_out_witness :
  fireTimer
    (nextTimer (handleClientConnection 50 "r" 0 (request_for "/repo-7-foo.ts" "203.0.113.9")
                  (accept 0 world0)))
    (advance 119999 (fst (removeClient "repo-7-foo.ts" 0
       (handleClientConnection 50 "r" 0 (request_for "/repo-7-foo.ts" "203.0.113.9")
          (accept 0 world0))))) = None.
Proof.
  pose proof (grace_period_runs_out "repo-7-foo.ts" 0%nat
                (handleClientConnection 50 "r" 0 (request_for "/repo-7-foo.ts" "203.0.113.9")
                   (accept 0 world0))
                {| room_id := "repo-7-foo.ts"; clients := [0%nat];
                   createdAt := 0; lastActivity := 0 |}) as H.
  cbv zeta in H. destruct H as [H _].
  - vm_compute. reflexivity.
  - vm_compute. reflexivity.
  - left. reflexivity.
  - intros x [<-|[]] Hne. congruence.
  - vm_compute. split; discriminate.
  - apply H. split; [lia | vm_compute; reflexivity].
Defined.

(** ** Invariants of the relay *)

Section Invariants.
Context {Y : YjsLib}.
Implicit Types (w : World Y) (roomId : string) (client : nat) (room : RoomInfo).

(** *** Shrinking steps and what they keep *)

Lemma shrinks_refl w : shrinks w w.
Proof.
  split; auto.
  intros r room' Hr. exists room'. auto.
  intros r [x Hx] Hn. congruence.
Qed.

Lemma shrinks_trans w1 w2 w3 : shrinks w1 w2 → shrinks w2 w3 → shrinks w1 w3.
Proof.
  intros H12 H23. split.
  - intros c r Hc. apply (shr_ids _ _ H23), (shr_ids _ _ H12). exact Hc.
  - intros r room3 E3.
    destruct (shr_rooms _ _ H23 r room3 E3) as (room2 & E2 & Hid2 & Hin2 & Hnd2).
    destruct (shr_rooms _ _ H12 r room2 E2) as (room1 & E1 & Hid1 & Hin1 & Hnd1).
    exists room1. split; [exact E1|]. split; [congruence|]. split; auto.
  - intros r. destruct (shr_docs _ _ H23 r) as [[Hd Hs]|[Hd Hs]]; [|right; auto].
    destruct (shr_docs _ _ H12 r) as [[Hd' Hs']|[Hd' Hs']].
    + left. split; congruence.
    + right. split; congruence.
  - intros r Hr1 Hr3 Hk.
    destruct (room_of w2 r) as [room2|] eqn:E2.
    + apply (shr_gone _ _ H23 r); [eexists; exact E2 | exact Hr3 | exact Hk].
    + pose proof (shr_gone _ _ H12 r Hr1 E2 Hk) as Hd.
      destruct (shr_docs _ _ H23 r) as [[Hd' _]|[Hd' _]]; congruence.
  - rewrite (shr_tracker _ _ H23). apply (shr_tracker _ _ H12).
  - pose proof (shr_next _ _ H12). pose proof (shr_next _ _ H23). lia.
  - intros h Hh. destruct (shr_timers _ _ H23 h Hh) as [Hh2|Hlt]; [|right; exact Hlt].
    destruct (shr_timers _ _ H12 h Hh2) as [Hh1|Hlt]; [left; exact Hh1|].
    right. pose proof (shr_next _ _ H23). lia.
Qed.

Lemma shrinks_rooms_inv w w' : shrinks w w' → rooms_inv w → rooms_inv w'.
Proof.
  intros S I. split.
  - intros r Hd. destruct (shr_docs _ _ S r) as [[Ed _]|[Ed _]].
    + rewrite Ed in Hd. destruct (inv_documents _ I r Hd) as [Hr Hk].
      split; [|exact Hk].
      destruct (room_of w' r) as [room'|] eqn:E; [eexists; reflexivity|].
      pose proof (shr_gone _ _ S r Hr E Hk) as Hn. rewrite Ed in Hn.
      rewrite Hn in Hd. destruct Hd as [x Hx]. discriminate Hx.
    + rewrite Ed in Hd. destruct Hd as [x Hx]. discriminate Hx.
  - intros r Hs. destruct (shr_docs _ _ S r) as [[Ed Es]|[Ed Es]].
    + rewrite Ed. rewrite Es in Hs. apply (inv_snapshots _ I r Hs).
    + rewrite Es in Hs. destruct Hs as [x Hx]. discriminate Hx.
  - intros r room' E. destruct (shr_rooms _ _ S r room' E) as (room & E0 & _ & _ & Hnd).
    apply Hnd. apply (inv_distinct _ I r room E0).
  - intros r room' c E Hc. destruct (shr_rooms _ _ S r room' E) as (room & E0 & _ & Hin & _).
    apply (shr_ids _ _ S). apply (inv_carry _ I r room c E0). apply Hin. exact Hc.
  - intros r room' E. destruct (shr_rooms _ _ S r room' E) as (room & E0 & Hid & _ & _).
    destruct (inv_allowed _ I r room E0) as (Ha & Hne & Hi).
    split; [exact Ha|]. split; [exact Hne|]. congruence.
Qed.

Lemma shrinks_fresh w w' : shrinks w w' → timers_fresh w → timers_fresh w'.
Proof.
  intros S F h Hh. destruct (shr_timers _ _ S h Hh) as [H0|Hlt]; [|exact Hlt].
  pose proof (F h H0). pose proof (shr_next _ _ S). lia.
Qed.

(** A step that changes sockets only, and no socket's room id. *)
Lemma sockets_only w w' :
  roomManager w' = roomManager w → timers w' = timers w → nextTimer w' = nextTimer w →
  connectionTracker w' = connectionTracker w →
  (∀ c r, ws_roomId (socket_of w c) = Some r → ws_roomId (socket_of w' c) = Some r) →
  shrinks w w'.
Proof.
  intros Hrm Ht Hn Hc Hids. split; unfold room_of; rewrite ?Hrm, ?Ht, ?Hn; auto.
  - intros r room' Hr. exists room'. auto.
  - intros r [x Hx] Hnone. congruence.
Qed.

(** Grace entries and timeouts untouched, no room lost. *)
Lemma grace_frame w w' :
  gracePeriods (roomManager w') = gracePeriods (roomManager w) →
  timers w' = timers w → nextTimer w' = nextTimer w →
  (∀ r, is_Some (room_of w r) → is_Some (room_of w' r)) →
  grace_inv w → grace_inv w'.
Proof.
  intros Hg Ht Hn Hr [F P X]. split.
  - intros h. rewrite Ht, Hn. apply F.
  - intros r h. rewrite Hg, Ht. apply P.
  - intros r. rewrite Hg. intros Hs. destruct (X r Hs) as [H1 H2]. auto.
Qed.

Lemma closing_roomId s : ws_roomId (closing s) = ws_roomId s.
Proof. unfold closing. destruct (readyState s =? 3); reflexivity. Qed.

Lemma closeSocket_shrinks c code reason w : shrinks w (closeSocket c code reason w).
Proof.
  apply sockets_only; try reflexivity.
  intros x r. rewrite socket_of_close. destruct (decide (x = c)) as [->|]; [|auto].
  rewrite closing_roomId. auto.
Qed.

Lemma closeSocket_grace c code reason w : grace_inv w → grace_inv (closeSocket c code reason w).
Proof. apply grace_frame; auto. Qed.

Lemma terminateSocket_shrinks c w : shrinks w (terminateSocket c w).
Proof.
  apply sockets_only; try reflexivity.
  intros x r. rewrite socket_of_terminate. destruct (decide (x = c)) as [->|]; [|auto].
  rewrite closing_roomId. auto.
Qed.

(** A family of steps each of which shrinks and keeps the grace
    invariant, folded over a list. *)
Lemma foldl_shrinks {A} (f : World Y → A → World Y) (l : list A) :
  (∀ w a, shrinks w (f w a)) → ∀ w, shrinks w (foldl f w l).
Proof.
  intros Hf. induction l as [|a l IH]; intros w; simpl; [apply shrinks_refl|].
  eapply shrinks_trans; [apply Hf | apply IH].
Qed.

Lemma foldl_keeps {A} (P : World Y → Prop) (f : World Y → A → World Y) (l : list A) :
  (∀ w a, P w → P (f w a)) → ∀ w, P w → P (foldl f w l).
Proof.
  intros Hf. induction l as [|a l IH]; intros w Hw; simpl; [exact Hw|].
  apply IH. apply Hf. exact Hw.
Qed.

(** One room's member set shrinks; nothing else changes. *)
Lemma room_shrink_shrinks w w' roomId (f : RoomInfo → RoomInfo) :
  rooms (roomManager w') = alter f roomId (rooms (roomManager w)) →
  yjsManager (roomManager w') = yjsManager (roomManager w) →
  sockets w' = sockets w → timers w' = timers w → nextTimer w' = nextTimer w →
  connectionTracker w' = connectionTracker w →
  (∀ room, room_id (f room) = room_id room
           ∧ (∀ c, In c (clients (f room)) → In c (clients room))
           ∧ (NoDup (clients room) → NoDup (clients (f room)))) →
  shrinks w w'.
Proof.
  intros Hr Hy Hs Ht Hn Hc Hf. split; unfold room_of, socket_of; rewrite ?Hr, ?Hy, ?Hs, ?Ht, ?Hn; auto.
  - intros r room' E. destruct (decide (r = roomId)) as [->|Hne].
    + rewrite lookup_alter_eq in E.
      destruct (rooms (roomManager w) !! roomId) as [room|]; [|discriminate E].
      simpl in E. injection E as <-. exists room. split; [reflexivity|]. apply Hf.
    + rewrite lookup_alter_ne in E by congruence. exists room'. auto.
  - intros r [x Hx] Hnone. exfalso.
    destruct (decide (r = roomId)) as [->|Hne].
    + rewrite lookup_alter_eq, Hx in Hnone. discriminate Hnone.
    + rewrite lookup_alter_ne in Hnone by congruence. congruence.
Qed.

Lemma NoDup_List_filter {A} (f : A → bool) (l : list A) :
  NoDup l → NoDup (List.filter f l).
Proof. rewrite !NoDup_ListNoDup. apply List.NoDup_filter. Qed.

Lemma room_delete_facts d room :
  room_id (room_delete d room) = room_id room
  ∧ (∀ c, In c (clients (room_delete d room)) → In c (clients room))
  ∧ (NoDup (clients room) → NoDup (clients (room_delete d room))).
Proof.
  split; [reflexivity|]. split.
  - intros c Hc. simpl in Hc. apply filter_In in Hc as [Hc _]. exact Hc.
  - intros Hnd. simpl. apply NoDup_List_filter. exact Hnd.
Qed.

Lemma room_touch_facts t room :
  room_id (room_touch t room) = room_id room
  ∧ (∀ c, In c (clients (room_touch t room)) → In c (clients room))
  ∧ (NoDup (clients room) → NoDup (clients (room_touch t room))).
Proof. repeat split; auto. Qed.

Lemma alter_keeps_rooms w w' roomId (f : RoomInfo → RoomInfo) :
  rooms (roomManager w') = alter f roomId (rooms (roomManager w)) →
  ∀ r, is_Some (room_of w r) → is_Some (room_of w' r).
Proof.
  intros Hr r [x Hx]. unfold room_of in *. rewrite Hr.
  destruct (decide (r = roomId)) as [->|Hne].
  - rewrite lookup_alter_eq, Hx. eexists. reflexivity.
  - rewrite lookup_alter_ne by congruence. rewrite Hx. eexists. reflexivity.
Qed.

Lemma evict_shrinks roomId w d : shrinks w (evict roomId w d).
Proof.
  apply (room_shrink_shrinks w _ roomId (room_delete d)); try reflexivity.
  intros room. apply room_delete_facts.
Qed.

Lemma evict_grace roomId w d : grace_inv w → grace_inv (evict roomId w d).
Proof.
  apply grace_frame; try reflexivity.
  apply (alter_keeps_rooms w _ roomId (room_delete d)). reflexivity.
Qed.

Lemma cleanupRoom_shrinks roomId w : shrinks w (cleanupRoom roomId w).
Proof.
  destruct (room_of w roomId) as [room|] eqn:E;
    [|rewrite (cleanupRoom_absent roomId w E); apply shrinks_refl].
  destruct (cleanupRoom_rm roomId w room E)
    as (Hr & Hg & Hy & _ & _ & Hsock & _ & Ht & Hn).
  destruct (cleanupRoom_frame roomId w) as (Htm & _ & _).
  split; unfold room_of; rewrite ?Hr, ?Hy, ?Htm, ?Hn; auto.
  - intros c r. destruct (Hsock c) as [->| ->]; [auto | rewrite closing_roomId; auto].
  - intros r room' Hl. apply lookup_delete_Some in Hl as [_ Hl]. exists room'. auto.
  - intros r. destruct (SaveManager.isCodeEditorRoom roomId); [|left; auto].
    simpl. destruct (decide (r = roomId)) as [->|Hne].
    + right. rewrite !lookup_delete_eq. auto.
    + left. rewrite !lookup_delete_ne by congruence. auto.
  - intros r [x Hx] Hnone Hk. destruct (decide (r = roomId)) as [->|Hne].
    + rewrite Hk. simpl. apply lookup_delete_eq.
    + rewrite lookup_delete_ne in Hnone by congruence. congruence.
Qed.

Lemma cleanupRoom_grace roomId w :
  gracePeriods (roomManager w) !! roomId = None →
  grace_inv w → grace_inv (cleanupRoom roomId w).
Proof.
  intros Hnone [F P X].
  destruct (room_of w roomId) as [room|] eqn:E;
    [|rewrite (cleanupRoom_absent roomId w E); split; assumption].
  destruct (cleanupRoom_rm roomId w room E) as (Hr & Hg & _ & _ & _ & _ & _ & _ & Hn).
  destruct (cleanupRoom_frame roomId w) as (Htm & _ & Hother).
  split.
  - intros h. rewrite Htm, Hn. apply F.
  - intros r h. rewrite Hg, Htm. apply P.
  - intros r. rewrite Hg. intros Hs. destruct (X r Hs) as [H1 H2]. split; [|exact H2].
    rewrite Hother; [exact H1|]. intros ->. rewrite Hnone in Hs.
    destruct Hs as [x Hx]. discriminate Hx.
Qed.

Lemma startGracePeriod_shrinks roomId w : shrinks w (startGracePeriod roomId w).
Proof.
  destruct (SaveManager.isCodeEditorRoom roomId) eqn:Hk.
  - rewrite (startGracePeriod_editor roomId w Hk).
    split; simpl; auto.
    + intros r room' Hr. exists room'. auto.
    + intros r [x Hx] Hnone. unfold room_of in *. simpl in Hnone. congruence.
    + intros h Hh. destruct (decide (h = nextTimer w)) as [->|Hne]; [right; lia|].
      left. rewrite lookup_insert_ne in Hh by congruence. exact Hh.
  - rewrite (startGracePeriod_other roomId w Hk). apply cleanupRoom_shrinks.
Qed.

Lemma startGracePeriod_grace roomId w :
  is_Some (room_of w roomId) → grace_inv w → grace_inv (startGracePeriod roomId w).
Proof.
  intros Hroom I. destruct (SaveManager.isCodeEditorRoom roomId) eqn:Hk.
  - rewrite (startGracePeriod_editor roomId w Hk). destruct I as [F P X]. split.
    + intros h Hh. simpl in *. destruct (decide (h = nextTimer w)) as [->|Hne]; [lia|].
      rewrite lookup_insert_ne in Hh by congruence. pose proof (F h Hh). lia.
    + intros r h Hg. simpl in *. destruct (decide (r = roomId)) as [->|Hne].
      * rewrite lookup_insert_eq in Hg. injection Hg as <-.
        rewrite lookup_insert_eq. eexists. reflexivity.
      * rewrite lookup_insert_ne in Hg by congruence.
        destruct (P r h Hg) as [due Hd]. exists due.
        rewrite lookup_insert_ne; [exact Hd|].
        intros <-. assert (Hlt : (nextTimer w < nextTimer w)%nat)
          by (apply F; eexists; exact Hd). lia.
    + intros r Hs. simpl in *. destruct (decide (r = roomId)) as [->|Hne].
      * split; [exact Hroom | exact Hk].
      * rewrite lookup_insert_ne in Hs by congruence. apply (X r Hs).
  - rewrite (startGracePeriod_other roomId w Hk). apply cleanupRoom_grace; [|exact I].
    destruct (gracePeriods (roomManager w) !! roomId) eqn:Hg; [|reflexivity].
    destruct (inv_exist _ I roomId) as [_ Hk']; [eexists; exact Hg|]. congruence.
Qed.

Lemma insert_as_alter (f : RoomInfo → RoomInfo) (m : gmap string RoomInfo) k x :
  m !! k = Some x → <[k := f x]> m = alter f k m.
Proof.
  intros H. apply map_eq. intros j. destruct (decide (j = k)) as [->|Hne].
  - rewrite lookup_insert_eq, lookup_alter_eq, H. reflexivity.
  - rewrite lookup_insert_ne, lookup_alter_ne by congruence. reflexivity.
Qed.

Lemma removeClient_keeps roomId client w :
  let w' := fst (removeClient roomId client w) in
  shrinks w w' ∧ (grace_inv w → grace_inv w').
Proof.
  unfold removeClient. destruct (room_of w roomId) as [room|] eqn:E;
    [|split; [apply shrinks_refl | auto]].
  destruct (has_client client room); simpl; [|split; [apply shrinks_refl | auto]].
  set (w1 := upd_rm (set_rooms <[roomId := room_touch (now w) (room_delete client room)]>) w).
  assert (Hr : rooms (roomManager w1)
               = alter (fun room => room_touch (now w) (room_delete client room)) roomId
                   (rooms (roomManager w))).
  { simpl. apply (insert_as_alter (fun room => room_touch (now w) (room_delete client room))).
    exact E. }
  assert (S1 : shrinks w w1).
  { apply (room_shrink_shrinks w w1 roomId _ Hr); try reflexivity.
    intros room0. apply room_delete_facts. }
  assert (G1 : grace_inv w → grace_inv w1).
  { apply grace_frame; try reflexivity. apply (alter_keeps_rooms w w1 roomId _ Hr). }
  destruct (getActiveClientCount roomId w1 =? 0); simpl; [|split; assumption].
  split.
  - eapply shrinks_trans; [exact S1 | apply startGracePeriod_shrinks].
  - intros I. apply startGracePeriod_grace; [|apply G1; exact I].
    unfold room_of. simpl. rewrite lookup_insert_eq. eexists. reflexivity.
Qed.

Lemma removeClient_rest roomId client w :
  sockets (fst (removeClient roomId client w)) = sockets w
  ∨ SaveManager.isCodeEditorRoom roomId = false.
Proof.
  unfold removeClient. destruct (room_of w roomId) as [room|]; [|left; reflexivity].
  destruct (has_client client room); simpl; [|left; reflexivity].
  destruct (getActiveClientCount roomId _ =? 0); simpl; [|left; reflexivity].
  destruct (SaveManager.isCodeEditorRoom roomId) eqn:Hk; [|right; reflexivity].
  left. rewrite startGracePeriod_editor by exact Hk. reflexivity.
Qed.

(** [addClient] for a socket that carries the room's id. *)
Lemma addClient_keeps roomId client w :
  isAllowedRoom roomId = true → roomId ≠ "default" →
  ws_roomId (socket_of w client) = Some roomId →
  let w' := fst (addClient roomId client w) in
  (rooms_inv w → rooms_inv w') ∧ (grace_inv w → grace_inv w').
Proof.
  intros Ha Hd Hid w'.
  destruct (addClient_frame roomId client w)
    as (Hr & Hg & Hy & _ & Hs & _ & Hn & _ & Ht & _).
  fold w' in Hr, Hg, Hy, Hs, Hn, Ht.
  assert (Hkeys : ∀ r, is_Some (room_of w r) → is_Some (room_of w' r)).
  { intros r [x Hx]. unfold room_of in *. rewrite Hr.
    destruct (decide (r = roomId)) as [->|Hne].
    - rewrite lookup_insert_eq. eexists. reflexivity.
    - rewrite lookup_insert_ne by congruence. rewrite Hx. eexists. reflexivity. }
  assert (Hsock : ∀ c, socket_of w' c = socket_of w c)
    by (intros c; unfold socket_of; rewrite Hs; reflexivity).
  split.
  - intros I. split.
    + intros r Hdoc. rewrite Hy in Hdoc. destruct (inv_documents _ I r Hdoc) as [H1 H2].
      split; [apply Hkeys; exact H1 | exact H2].
    + rewrite Hy. apply (inv_snapshots _ I).
    + intros r room' E. unfold room_of in E. rewrite Hr in E.
      destruct (decide (r = roomId)) as [->|Hne].
      * rewrite lookup_insert_eq in E. injection E as <-. unfold joined.
        destruct (room_of w roomId) as [room|] eqn:E0.
        -- pose proof (inv_distinct _ I roomId room E0) as Hnd.
           destruct (has_client client room) eqn:Hh; [exact Hnd|].
           simpl. apply NoDup_app. split; [exact Hnd|]. split.
           ++ intros x Hx Hx'. apply list_elem_of_In in Hx, Hx'.
              destruct Hx' as [<-|[]].
              apply (proj1 (has_client_not_In client room) Hh). exact Hx.
           ++ apply NoDup_singleton.
        -- simpl. apply NoDup_singleton.
      * rewrite lookup_insert_ne in E by congruence. apply (inv_distinct _ I r room' E).
    + intros r room' c E Hc. rewrite Hsock. unfold room_of in E. rewrite Hr in E.
      destruct (decide (r = roomId)) as [->|Hne].
      * rewrite lookup_insert_eq in E. injection E as <-. unfold joined in Hc.
        destruct (room_of w roomId) as [room|] eqn:E0.
        -- destruct (has_client client room).
           ++ apply (inv_carry _ I roomId room c E0 Hc).
           ++ simpl in Hc. apply in_app_or in Hc as [Hc|[<-|[]]]; [|exact Hid].
              apply (inv_carry _ I roomId room c E0 Hc).
        -- simpl in Hc. destruct Hc as [<-|[]]. exact Hid.
      * rewrite lookup_insert_ne in E by congruence. apply (inv_carry _ I r room' c E Hc).
    + intros r room' E. unfold room_of in E. rewrite Hr in E.
      destruct (decide (r = roomId)) as [->|Hne].
      * rewrite lookup_insert_eq in E. injection E as <-.
        split; [exact Ha|]. split; [exact Hd|]. unfold joined.
        destruct (room_of w roomId) as [room|] eqn:E0; [|reflexivity].
        destruct (inv_allowed _ I roomId room E0) as (_ & _ & Hi).
        destruct (has_client client room); exact Hi.
      * rewrite lookup_insert_ne in E by congruence. apply (inv_allowed _ I r room' E).
  - intros [F P X]. split.
    + intros h Hh. rewrite Hn. apply F. rewrite Ht in Hh.
      destruct (gracePeriods (roomManager w) !! roomId); [|exact Hh].
      destruct Hh as [x Hx]. apply lookup_delete_Some in Hx as [_ Hx]. eexists. exact Hx.
    + intros r h Hgr. rewrite Hg in Hgr. apply lookup_delete_Some in Hgr as [Hne Hgr].
      destruct (P r h Hgr) as [due Hdue]. exists due. rewrite Ht.
      destruct (gracePeriods (roomManager w) !! roomId) as [h0|] eqn:E0; [|exact Hdue].
      rewrite lookup_delete_ne; [exact Hdue|].
      intros <-. destruct (P roomId h0 E0) as [due0 Hd0]. congruence.
    + intros r Hgr. rewrite Hg in Hgr. destruct Hgr as [h Hgr].
      apply lookup_delete_Some in Hgr as [Hne Hgr].
      destruct (X r) as [H1 H2]; [eexists; exact Hgr|]. split; [apply Hkeys; exact H1 | exact H2].
Qed.

Lemma emit_all_shrinks es w : shrinks w (emit_all es w).
Proof. apply sockets_only; auto. Qed.

Lemma emit_shrinks e w : shrinks w (emit e w).
Proof. apply sockets_only; auto. Qed.

(** The registry taking a message for a code-editor room that exists. *)
Lemma yjs_step_keeps roomId message e w :
  is_Some (room_of w roomId) → SaveManager.isCodeEditorRoom roomId = true →
  rooms_inv w →
  rooms_inv (upd_rm (set_yjsManager (fun _ =>
               fst (handleYjsMessage roomId message (yjsManager (roomManager w)))))
               (emit e w)).
Proof.
  intros Hroom Hk I.
  destruct (handleYjsMessage_lookups roomId message (yjsManager (roomManager w)))
    as (Hother & Hdoc & Hst).
  split.
  - intros r Hd. simpl in Hd. destruct (decide (r = roomId)) as [->|Hne].
    + split; [exact Hroom | exact Hk].
    + destruct (Hother r Hne) as [E _]. rewrite E in Hd. apply (inv_documents _ I r Hd).
  - intros r Hs. simpl in *. destruct (decide (r = roomId)) as [->|Hne].
    + destruct message as [|b message].
      * rewrite handleYjsMessage_empty in *. simpl in *. apply (inv_snapshots _ I). exact Hs.
      * apply Hdoc. discriminate.
    + destruct (Hother r Hne) as [E1 E2]. rewrite E1. rewrite E2 in Hs.
      apply (inv_snapshots _ I r Hs).
  - exact (inv_distinct _ I).
  - exact (inv_carry _ I).
  - exact (inv_allowed _ I).
Qed.

Lemma evict_fold_keeps roomId (dead : list nat) w :
  let w' := foldl (evict roomId) w dead in
  shrinks w w' ∧ (grace_inv w → grace_inv w')
  ∧ (is_Some (room_of w roomId) → is_Some (room_of w' roomId)).
Proof.
  revert w. induction dead as [|d dead IH]; intros w; simpl.
  - split; [apply shrinks_refl | auto].
  - destruct (IH (evict roomId w d)) as (S & G & R). split; [|split].
    + eapply shrinks_trans; [apply evict_shrinks | exact S].
    + intros I. apply G, evict_grace, I.
    + intros H. apply R. apply (alter_keeps_rooms w _ roomId (room_delete d)); auto.
Qed.

Lemma touch_keeps roomId t w :
  let w' := upd_rm (set_rooms (alter (room_touch t) roomId)) w in
  shrinks w w' ∧ (grace_inv w → grace_inv w').
Proof.
  split.
  - apply (room_shrink_shrinks w _ roomId (room_touch t)); try reflexivity.
    intros room. apply room_touch_facts.
  - apply grace_frame; try reflexivity.
    apply (alter_keeps_rooms w _ roomId (room_touch t)). reflexivity.
Qed.

Lemma broadcast_keeps send roomId message sender w :
  let w' := fst (broadcast send roomId message sender w) in
  (rooms_inv w → rooms_inv w') ∧ (grace_inv w → grace_inv w')
  ∧ connectionTracker w' = connectionTracker w
  ∧ (∀ c r, ws_roomId (socket_of w c) = Some r → ws_roomId (socket_of w' c) = Some r).
Proof.
  unfold broadcast. destruct (room_of w roomId) as [room|] eqn:Hroom; [|simpl; auto].
  set (w1 := if SaveManager.isCodeEditorRoom roomId
             then upd_rm (set_yjsManager (fun _ =>
                    fst (handleYjsMessage roomId message (yjsManager (roomManager w)))))
                    (emit (EvApplyUpdate roomId message) w)
             else w).
  assert (Happ : (if SaveManager.isCodeEditorRoom roomId
                  then let '(m, c) := handleYjsMessage roomId message (yjsManager (roomManager w)) in
                       (upd_rm (set_yjsManager (fun _ => m)) (emit (EvApplyUpdate roomId message) w), c)
                  else (w, Normal tt)) = (w1, Normal tt)).
  { subst w1. destruct (SaveManager.isCodeEditorRoom roomId); [|reflexivity].
    pose proof (handleYjsMessage_returns roomId message (yjsManager (roomManager w))) as Hret.
    destruct (handleYjsMessage roomId message (yjsManager (roomManager w))) as [m c].
    simpl in *. subst c. reflexivity. }
  rewrite Happ. clear Happ.
  assert (H1 : (rooms_inv w → rooms_inv w1) ∧ (grace_inv w → grace_inv w1)
               ∧ connectionTracker w1 = connectionTracker w
               ∧ sockets w1 = sockets w).
  { subst w1. destruct (SaveManager.isCodeEditorRoom roomId) eqn:Hk; [|auto].
    split; [|split; [|split]]; try reflexivity.
    - apply yjs_step_keeps; [eexists; exact Hroom | exact Hk].
    - apply grace_frame; auto. }
  destruct H1 as (R1 & G1 & T1 & S1).
  rewrite <- (emit_all_nil w1). rewrite visit_fold.
  set (w2 := emit_all _ w1). set (dead := [] ++ _).
  destruct (evict_fold_keeps roomId dead w2) as (S3 & G3 & _).
  set (w3 := foldl (evict roomId) w2 dead) in *.
  destruct (touch_keeps roomId (now w3) w3) as (S4 & G4).
  simpl.
  assert (S : shrinks w1 (upd_rm (set_rooms (alter (room_touch (now w3)) roomId)) w3)).
  { eapply shrinks_trans; [apply emit_all_shrinks|].
    eapply shrinks_trans; [exact S3 | exact S4]. }
  split; [|split; [|split]].
  - intros I. apply (shrinks_rooms_inv _ _ S). apply R1, I.
  - intros I. apply G4, G3. apply (grace_frame w1); auto.
  - etransitivity; [exact (shr_tracker _ _ S) | exact T1].
  - intros c r Hc. apply (shr_ids _ _ S). unfold socket_of. rewrite S1. exact Hc.
Qed.

(** *** The sweeps *)

Lemma evict_count_fold roomId (dead : list nat) : ∀ w (n : Z),
  foldl (fun '(w, n) deadClient => (evict roomId w deadClient, n + 1)) (w, n) dead
  = (foldl (evict roomId) w dead, n + Z.of_nat (length dead)).
Proof.
  induction dead as [|d dead IH]; intros w n; simpl.
  - rewrite Z.add_0_r. reflexivity.
  - rewrite IH. f_equal. lia.
Qed.

Lemma reapRoom_keeps (acc : World Y * Z) roomId :
  shrinks (fst acc) (fst (reapRoom acc roomId))
  ∧ (grace_inv (fst acc) → grace_inv (fst (reapRoom acc roomId))).
Proof.
  destruct acc as [w n]. unfold reapRoom. simpl.
  destruct (room_of w roomId) as [room|] eqn:E; [|split; [apply shrinks_refl | auto]].
  rewrite evict_count_fold.
  set (dead := List.filter _ (clients room)).
  destruct (evict_fold_keeps roomId dead w) as (S & G & R).
  set (w1 := foldl (evict roomId) w dead) in *.
  destruct (negb _ && _); simpl; [|split; assumption].
  split.
  - eapply shrinks_trans; [exact S | apply startGracePeriod_shrinks].
  - intros I. apply startGracePeriod_grace; [|apply G, I].
    apply R. eexists. exact E.
Qed.

Lemma pair_fold_keeps {A B} (f : World Y * B → A → World Y * B) (l : list A) :
  (∀ acc a, shrinks (fst acc) (fst (f acc a))
            ∧ (grace_inv (fst acc) → grace_inv (fst (f acc a)))) →
  ∀ acc, shrinks (fst acc) (fst (foldl f acc l))
         ∧ (grace_inv (fst acc) → grace_inv (fst (foldl f acc l))).
Proof.
  intros Hf. induction l as [|a l IH]; intros acc; simpl.
  - split; [apply shrinks_refl | auto].
  - destruct (IH (f acc a)) as [S G]. destruct (Hf acc a) as [S0 G0]. split.
    + eapply shrinks_trans; eassumption.
    + auto.
Qed.

Lemma cleanupInactiveClients_keeps order w :
  shrinks w (fst (cleanupInactiveClients order w))
  ∧ (grace_inv w → grace_inv (fst (cleanupInactiveClients order w))).
Proof. apply (pair_fold_keeps reapRoom order reapRoom_keeps (w, 0)). Qed.

Lemma sweepRoom_keeps (acc : World Y * Z) roomId :
  shrinks (fst acc) (fst (sweepRoom acc roomId))
  ∧ (grace_inv (fst acc) → grace_inv (fst (sweepRoom acc roomId))).
Proof.
  destruct acc as [w n]. unfold sweepRoom. simpl.
  destruct (room_of w roomId) as [room|] eqn:E; [|split; [apply shrinks_refl | auto]].
  destruct (getActiveClientCount roomId w =? 0); simpl; [|split; [apply shrinks_refl | auto]].
  case_bool_decide as Hg; simpl; [split; [apply shrinks_refl | auto]|].
  split; [apply cleanupRoom_shrinks|].
  apply cleanupRoom_grace.
  destruct (gracePeriods (roomManager w) !! roomId) eqn:Eg; [|reflexivity].
  exfalso. apply Hg. eexists. reflexivity.
Qed.

Lemma cleanupEmptyRooms_keeps order w :
  shrinks w (fst (cleanupEmptyRooms order w))
  ∧ (grace_inv w → grace_inv (fst (cleanupEmptyRooms order w))).
Proof. apply (pair_fold_keeps sweepRoom order sweepRoom_keeps (w, 0)). Qed.

(** Rooms, registry, sockets and tracker untouched; no timeout added. *)
Lemma timers_shrink w w' :
  rooms (roomManager w') = rooms (roomManager w) →
  yjsManager (roomManager w') = yjsManager (roomManager w) →
  sockets w' = sockets w → connectionTracker w' = connectionTracker w →
  nextTimer w' = nextTimer w →
  (∀ h, is_Some (timers w' !! h) → is_Some (timers w !! h)) →
  shrinks w w'.
Proof.
  intros Hr Hy Hs Hc Hn Ht. split; unfold room_of, socket_of; rewrite ?Hr, ?Hy, ?Hs, ?Hn; auto.
  - intros r room' E. exists room'. auto.
  - intros r [x Hx] Hnone. congruence.
Qed.

Lemma clearGracePeriods_keeps graceOrder w :
  let w' := clearGracePeriods graceOrder w in
  shrinks w w' ∧ gracePeriods (roomManager w') = ∅.
Proof.
  unfold clearGracePeriods. split; [|reflexivity].
  set (f := fun (w : World Y) (roomId : string) =>
              match gracePeriods (roomManager w) !! roomId with
              | Some timeout => emit (EvClearTimeout timeout) (upd_timers (delete timeout) w)
              | None => w
              end).
  eapply shrinks_trans.
  - apply (foldl_shrinks f graceOrder). intros w0 r. subst f. simpl.
    destruct (gracePeriods (roomManager w0) !! r) as [h|]; [|apply shrinks_refl].
    apply timers_shrink; try reflexivity.
    intros h0 [x Hx]. simpl in Hx. apply lookup_delete_Some in Hx as [_ Hx]. eexists. exact Hx.
  - apply timers_shrink; try reflexivity. auto.
Qed.

Lemma grace_inv_cleared w :
  timers_fresh w → gracePeriods (roomManager w) = ∅ → grace_inv w.
Proof.
  intros F Hg. split; [exact F| |].
  - intros r h. rewrite Hg, lookup_empty. discriminate.
  - intros r. rewrite Hg, lookup_empty. intros [x Hx]. discriminate Hx.
Qed.

Lemma forceClose_shrinks (acc : World Y * Z) client :
  shrinks (fst acc) (fst (forceClose acc client)).
Proof.
  destruct acc as [w n]. unfold forceClose. simpl.
  eapply shrinks_trans; [|apply terminateSocket_shrinks].
  destruct (readyState (socket_of w client) =? 1);
    [apply closeSocket_shrinks | apply shrinks_refl].
Qed.

Lemma pair_fold_shrinks {A B} (f : World Y * B → A → World Y * B) (l : list A) :
  (∀ acc a, shrinks (fst acc) (fst (f acc a))) →
  ∀ acc, shrinks (fst acc) (fst (foldl f acc l)).
Proof.
  intros Hf. induction l as [|a l IH]; intros acc; simpl; [apply shrinks_refl|].
  eapply shrinks_trans; [apply Hf | apply IH].
Qed.

Lemma forceRoom_shrinks (acc : World Y * Z) roomId :
  shrinks (fst acc) (fst (forceRoom acc roomId)).
Proof.
  destruct acc as [w n]. unfold forceRoom. simpl.
  destruct (room_of w roomId) as [room|]; [|apply shrinks_refl].
  pose proof (pair_fold_shrinks forceClose (clients room) forceClose_shrinks (w, n)) as S.
  destruct (foldl forceClose (w, n) (clients room)) as [w1 n1]. simpl in *.
  eapply shrinks_trans; [exact S | apply cleanupRoom_shrinks].
Qed.

Lemma forceCleanupAll_keeps order graceOrder w :
  let w' := fst (forceCleanupAll order graceOrder w) in
  shrinks w w' ∧ gracePeriods (roomManager w') = ∅.
Proof.
  unfold forceCleanupAll.
  pose proof (pair_fold_shrinks forceRoom order forceRoom_shrinks (w, 0)) as S.
  destruct (foldl forceRoom (w, 0) order) as [w1 n1]. simpl in *.
  destruct (clearGracePeriods_keeps graceOrder w1) as [S' G]. split; [|exact G].
  eapply shrinks_trans; eassumption.
Qed.

Lemma shutdown_keeps order graceOrder w :
  let w' := shutdown order graceOrder w in
  shrinks w w'
  ∧ gracePeriods (roomManager w') = ∅ ∧ rooms (roomManager w') = ∅
  ∧ documents (yjsManager (roomManager w')) = ∅
  ∧ documentStates (yjsManager (roomManager w')) = ∅.
Proof.
  unfold shutdown.
  destruct (clearGracePeriods_keeps graceOrder w) as [S1 G1].
  set (w1 := clearGracePeriods graceOrder w) in *.
  set (f := fun (w : World Y) (roomId : string) =>
              match room_of w roomId with
              | None => w
              | Some room =>
                  foldl (fun w client =>
                           if readyState (socket_of w client) =? 1
                           then closeSocket client 1001 "Server shutting down" w
                           else w) w (clients room)
              end).
  assert (S2 : shrinks w1 (foldl f w1 order)).
  { apply foldl_shrinks. intros w0 r. subst f. simpl.
    destruct (room_of w0 r) as [room|]; [|apply shrinks_refl].
    apply foldl_shrinks. intros w2 c.
    destruct (readyState (socket_of w2 c) =? 1);
      [apply closeSocket_shrinks | apply shrinks_refl]. }
  assert (G2 : gracePeriods (roomManager (foldl f w1 order)) = ∅).
  { clear S2. revert G1. generalize w1. induction order as [|r order IH]; intros w0 G0; simpl.
    - exact G0.
    - apply IH. subst f. simpl. destruct (room_of w0 r) as [room|]; [|exact G0].
      destruct (close_fold_frame (fun w c => readyState (socket_of w c) =? 1)
                  1001 "Server shutting down" (clients room) w0) as (-> & _). exact G0. }
  set (w2 := foldl f w1 order) in *.
  split; [|split; [exact G2|split; [reflexivity|split; reflexivity]]].
  eapply shrinks_trans; [exact S1|]. eapply shrinks_trans; [exact S2|].
  split; simpl; auto.
  intros r room' E. unfold room_of in E. simpl in E. rewrite lookup_empty in E. discriminate E.
Qed.

Lemma fireTimer_keeps handle w w' :
  fireTimer handle w = Some w' →
  shrinks w w' ∧ (grace_inv w → grace_inv w').
Proof.
  intros Hf. apply fireTimer_inv in Hf as (due & r & Ht & _ & ->).
  set (w0 := upd_timers (delete handle) w).
  assert (S0 : shrinks w w0).
  { apply timers_shrink; try reflexivity.
    intros h [x Hx]. simpl in Hx. apply lookup_delete_Some in Hx as [_ Hx]. eexists. exact Hx. }
  assert (S1 : shrinks w0 (graceTimerCallback r w0)).
  { unfold graceTimerCallback.
    set (w1 := match room_of w0 r with
               | Some _ => if getActiveClientCount r w0 =? 0 then cleanupRoom r w0 else w0
               | None => cleanupRoom r w0
               end).
    assert (S : shrinks w0 w1).
    { subst w1. destruct (room_of w0 r);
        [destruct (getActiveClientCount r w0 =? 0)|];
        try apply cleanupRoom_shrinks; apply shrinks_refl. }
    eapply shrinks_trans; [exact S|]. apply timers_shrink; try reflexivity. auto. }
  assert (S : shrinks w (graceTimerCallback r w0))
    by (eapply shrinks_trans; eassumption).
  split; [exact S|]. intros [F P X].
  destruct (graceTimerCallback_frame r w0) as (Htm & _ & Hother).
  assert (Hg : gracePeriods (roomManager (graceTimerCallback r w0))
               = delete r (gracePeriods (roomManager w))).
  { unfold graceTimerCallback. simpl.
    destruct (room_of w0 r) as [room|] eqn:E.
    - destruct (getActiveClientCount r w0 =? 0); [|reflexivity].
      destruct (cleanupRoom_rm r w0 room E) as (_ & -> & _). reflexivity.
    - rewrite (cleanupRoom_absent r w0 E). reflexivity. }
  split.
  - apply (shrinks_fresh _ _ S). exact F.
  - intros r' h Hgr. rewrite Hg in Hgr. apply lookup_delete_Some in Hgr as [Hne Hgr].
    destruct (P r' h Hgr) as [due' Hd]. exists due'. rewrite Htm. simpl.
    rewrite lookup_delete_ne; [exact Hd|]. intros <-. congruence.
  - intros r' Hs. rewrite Hg in Hs. destruct Hs as [h Hgr].
    apply lookup_delete_Some in Hgr as [Hne Hgr].
    destruct (X r') as [H1 H2]; [eexists; exact Hgr|]. split; [|exact H2].
    rewrite Hother by congruence. exact H1.
Qed.

(** *** The handlers and the tickers *)

Lemma shrinks_relay_inv w w' :
  shrinks w w' → (grace_inv w → grace_inv w') → relay_inv w → relay_inv w'.
Proof.
  intros S G (R & Gi & T). split; [|split].
  - apply (shrinks_rooms_inv _ _ S R).
  - apply G, Gi.
  - rewrite (shr_tracker _ _ S). exact T.
Qed.

(** A step on the tracker and the trace alone. *)
Lemma tracker_step_keeps (f : Tracker → Tracker) e w :
  (rooms_inv w → rooms_inv (emit e (upd_tracker f w)))
  ∧ (grace_inv w → grace_inv (emit e (upd_tracker f w))).
Proof. split; intros [? ? ?]; split; assumption. Qed.

Lemma upd_tracker_keeps (f : Tracker → Tracker) w :
  (rooms_inv w → rooms_inv (upd_tracker f w))
  ∧ (grace_inv w → grace_inv (upd_tracker f w)).
Proof. split; intros [? ? ?]; split; assumption. Qed.

Lemma socket_step_keeps w w' :
  roomManager w' = roomManager w → timers w' = timers w → nextTimer w' = nextTimer w →
  connectionTracker w' = connectionTracker w →
  (∀ c r, ws_roomId (socket_of w c) = Some r → ws_roomId (socket_of w' c) = Some r) →
  shrinks w w' ∧ (grace_inv w → grace_inv w').
Proof.
  intros Hrm Ht Hn Hc Hids. split; [apply sockets_only; assumption|].
  apply grace_frame; auto; unfold room_of; rewrite Hrm; auto.
Qed.

Lemma alter_socket_ids (f : ExtendedWebSocket → ExtendedWebSocket) ws w :
  (∀ s, ws_roomId (f s) = ws_roomId s) →
  ∀ c, ws_roomId (socket_of (upd_sockets (alter f ws) w) c) = ws_roomId (socket_of w c).
Proof.
  intros Hf c. unfold socket_of. simpl. destruct (decide (c = ws)) as [->|Hne].
  - rewrite lookup_alter_eq. destruct (sockets w !! ws); simpl; [apply Hf | reflexivity].
  - rewrite lookup_alter_ne by congruence. reflexivity.
Qed.

Lemma alter_socket_keeps (f : ExtendedWebSocket → ExtendedWebSocket) ws w :
  (∀ s, ws_roomId (f s) = ws_roomId s) →
  shrinks w (upd_sockets (alter f ws) w)
  ∧ (grace_inv w → grace_inv (upd_sockets (alter f ws) w)).
Proof.
  intros Hf. apply socket_step_keeps; try reflexivity.
  intros c r. rewrite (alter_socket_ids f ws w Hf). auto.
Qed.

Lemma insert_socket_ids s ws w :
  (∀ r, ws_roomId (socket_of w ws) = Some r → ws_roomId s = Some r) →
  ∀ c r, ws_roomId (socket_of w c) = Some r →
         ws_roomId (socket_of (upd_sockets <[ws := s]> w) c) = Some r.
Proof.
  intros Hs c r. unfold socket_of at 2. simpl. destruct (decide (c = ws)) as [->|Hne].
  - rewrite lookup_insert_eq. simpl. apply Hs.
  - rewrite lookup_insert_ne by congruence. auto.
Qed.

Lemma handlePong_keeps ws w :
  shrinks w (handlePong ws w) ∧ (grace_inv w → grace_inv (handlePong ws w)).
Proof. apply alter_socket_keeps. reflexivity. Qed.

Lemma terminateSocket_keeps ws w :
  shrinks w (terminateSocket ws w) ∧ (grace_inv w → grace_inv (terminateSocket ws w)).
Proof.
  apply (alter_socket_keeps (fun s => if readyState s =? 3 then s else set_readyState 2 s)).
  intros s. destruct (readyState s =? 3); reflexivity.
Qed.

Lemma heartbeatVisit_keeps ping (acc : World Y * (Z * Z)) ws :
  shrinks (fst acc) (fst (heartbeatVisit ping acc ws))
  ∧ (grace_inv (fst acc) → grace_inv (fst (heartbeatVisit ping acc ws))).
Proof.
  destruct acc as [w [p t]]. unfold heartbeatVisit. simpl.
  destruct (failsHeartbeat (socket_of w ws)); simpl; [apply terminateSocket_keeps|].
  destruct (alter_socket_keeps (set_isAlive false) ws w) as [S G]; [reflexivity|].
  destruct (ping ws); simpl; [split; assumption|].
  destruct (terminateSocket_keeps ws (upd_sockets (alter (set_isAlive false) ws) w))
    as [S' G'].
  split; [eapply shrinks_trans; eassumption | auto].
Qed.

Lemma heartbeat_keeps ping wssClients w :
  shrinks w (fst (heartbeat ping wssClients w))
  ∧ (grace_inv w → grace_inv (fst (heartbeat ping wssClients w))).
Proof.
  apply (pair_fold_keeps (heartbeatVisit ping) wssClients (heartbeatVisit_keeps ping)
           (w, (0, 0))).
Qed.

Lemma handleClientMessage_keeps send ws message w :
  relay_inv w → relay_inv (handleClientMessage send ws message w).
Proof.
  intros I. unfold handleClientMessage.
  destruct (negb _ || negb _); [exact I|].
  set (w1 := upd_sockets <[ws := set_ws_lastActivity (now w) (socket_of w ws)]> w).
  destruct (socket_step_keeps w w1) as [S G]; try reflexivity.
  { apply insert_socket_ids. auto. }
  pose proof (shrinks_relay_inv _ _ S G I) as (R1 & G1 & T1).
  destruct (broadcast_keeps send (or_string (ws_roomId (socket_of w ws)) "") message ws w1)
    as (R2 & G2 & T2 & _).
  split; [|split]; [apply R2, R1 | apply G2, G1 | rewrite T2; exact T1].
Qed.

Lemma handleClientDisconnection_keeps ws code reason w :
  relay_inv w → relay_inv (handleClientDisconnection ws code reason w).
Proof.
  intros I. unfold handleClientDisconnection.
  destruct (negb _ || negb _); [exact I|].
  set (r := or_string (ws_roomId (socket_of w ws)) "").
  destruct (removeClient_keeps r ws w) as [S G].
  pose proof (shrinks_relay_inv _ _ S G I) as (R1 & G1 & T1).
  destruct (removeClient r ws w) as [w1 n]. simpl in *.
  set (ip := or_string _ "unknown").
  destruct (tracker_step_keeps (untrackConnection ip r) (EvUntrack ip r) w1) as [R2 G2].
  split; [|split]; [apply R2, R1 | apply G2, G1 | apply tracker_wf_untrack, T1].
Qed.

Lemma handleClientConnection_keeps maxClientsPerRoom random ws request w :
  sockets w !! ws = None →
  relay_inv w →
  relay_inv (handleClientConnection maxClientsPerRoom random ws request
               (upd_sockets <[ws := fresh_socket]> w)).
Proof.
  intros Hfresh I.
  set (w0 := upd_sockets <[ws := fresh_socket]> w).
  assert (Hblank : ws_roomId (socket_of w ws) = None)
    by (unfold socket_of; rewrite Hfresh; reflexivity).
  destruct (socket_step_keeps w w0) as [S0 G0]; try reflexivity.
  { apply insert_socket_ids. intros r. rewrite Hblank. discriminate. }
  pose proof (shrinks_relay_inv _ _ S0 G0 I) as I0.
  assert (T : tracker_wf (connectionTracker
                (handleClientConnection maxClientsPerRoom random ws request w0)))
    by (apply handleClientConnection_tracker_wf; apply I0).
  split; [|split; [|exact T]]; clear T;
    destruct I0 as (R0 & Gr0 & _); unfold handleClientConnection;
    set (ip := or_string (req_remoteAddress request) "unknown");
    set (r := roomIdOfRequest request).
  - destruct (bool_decide_reflect (r = "default")) as [Hd|Hd]; simpl.
    { apply (shrinks_rooms_inv w0); [apply closeSocket_shrinks | exact R0]. }
    destruct (isAllowedRoom r) eqn:Ha; simpl;
      [|apply (shrinks_rooms_inv w0); [apply closeSocket_shrinks | exact R0]].
    change (connectionTracker w0) with (connectionTracker w).
    destruct (trackConnection ip r (connectionTracker w)) as [t ok].
    set (w1 := emit (EvTrack ip r ok) (upd_tracker (fun _ => t) w0)).
    assert (R1 : rooms_inv w1) by (apply tracker_step_keeps; exact R0).
    destruct ok; simpl;
      [|apply (shrinks_rooms_inv w1); [apply closeSocket_shrinks | exact R1]].
    destruct (maxClientsPerRoom <=? getActiveClientCount r w1).
    { apply (shrinks_rooms_inv (emit (EvUntrack ip r) (upd_tracker (untrackConnection ip r) w1)));
        [apply closeSocket_shrinks | apply tracker_step_keeps; exact R1]. }
    set (w2 := upd_sockets <[ws := _]> w1).
    assert (R2 : rooms_inv w2).
    { apply (shrinks_rooms_inv w1); [|exact R1].
      apply socket_step_keeps; try reflexivity.
      apply insert_socket_ids. intros r0 Hr0. exfalso.
      unfold socket_of in Hr0. simpl in Hr0. rewrite lookup_insert_eq in Hr0.
      discriminate Hr0. }
    destruct (addClient_keeps r ws w2 Ha Hd) as [Ra _].
    { unfold socket_of. simpl. rewrite lookup_insert_eq. reflexivity. }
    destruct (addClient r ws w2) as [w3 n]. simpl in *.
    apply (shrinks_rooms_inv w3); [apply emit_shrinks | apply Ra, R2].
  - destruct (bool_decide_reflect (r = "default")) as [Hd|Hd]; simpl.
    { apply closeSocket_grace. exact Gr0. }
    destruct (isAllowedRoom r) eqn:Ha; simpl; [|apply closeSocket_grace; exact Gr0].
    change (connectionTracker w0) with (connectionTracker w).
    destruct (trackConnection ip r (connectionTracker w)) as [t ok].
    set (w1 := emit (EvTrack ip r ok) (upd_tracker (fun _ => t) w0)).
    assert (G1 : grace_inv w1) by (apply tracker_step_keeps; exact Gr0).
    destruct ok; simpl; [|apply closeSocket_grace; exact G1].
    destruct (maxClientsPerRoom <=? getActiveClientCount r w1).
    { apply closeSocket_grace. apply tracker_step_keeps. exact G1. }
    set (w2 := upd_sockets <[ws := _]> w1).
    assert (G2 : grace_inv w2) by (apply (grace_frame w1); auto).
    destruct (addClient_keeps r ws w2 Ha Hd) as [_ Ga].
    { unfold socket_of. simpl. rewrite lookup_insert_eq. reflexivity. }
    destruct (addClient r ws w2) as [w3 n]. simpl in *.
    apply (grace_frame w3); auto.
Qed.

Lemma reapTick_keeps order graceOrder w : relay_inv w → relay_inv (reapTick order graceOrder w).
Proof.
  intros I. unfold reapTick.
  destruct (cleanupInactiveClients_keeps order w) as [S1 G1].
  pose proof (shrinks_relay_inv _ _ S1 G1 I) as I1.
  destruct (cleanupInactiveClients order w) as [w1 n1]. simpl in *.
  destruct (cleanupEmptyRooms_keeps order w1) as [S2 G2].
  pose proof (shrinks_relay_inv _ _ S2 G2 I1) as I2.
  destruct (cleanupEmptyRooms order w1) as [w2 n2]. simpl in *.
  match goal with |- context [if ?b then _ else _] => destruct b end; [|exact I2].
  destruct (forceCleanupAll_keeps order graceOrder w2) as [S3 G3].
  destruct (forceCleanupAll order graceOrder w2) as [w3 n3]. simpl in *.
  destruct I2 as (R2 & Gr2 & _). split; [|split].
  - apply upd_tracker_keeps. apply (shrinks_rooms_inv w2); [exact S3 | exact R2].
  - apply upd_tracker_keeps. apply grace_inv_cleared; [|exact G3].
    apply (shrinks_fresh w2); [exact S3 | apply Gr2].
  - apply tracker_wf_empty.
Qed.

Lemma gracefulShutdown_keeps wssClients order graceOrder w :
  relay_inv w → relay_inv (gracefulShutdown wssClients order graceOrder w).
Proof.
  intros (R & G & _). unfold gracefulShutdown.
  set (w1 := foldl _ w wssClients).
  assert (S1 : shrinks w w1)
    by (apply foldl_shrinks; intros w0 c; apply closeSocket_shrinks).
  destruct (shutdown_keeps order graceOrder w1) as (S2 & Hg & _).
  assert (S : shrinks w (shutdown order graceOrder w1))
    by (eapply shrinks_trans; eassumption).
  split; [|split].
  - apply upd_tracker_keeps. apply (shrinks_rooms_inv _ _ S R).
  - apply upd_tracker_keeps. apply grace_inv_cleared; [|exact Hg].
    apply (shrinks_fresh _ _ S). apply G.
  - apply tracker_wf_empty.
Qed.

Lemma server_step_inv maxClientsPerRoom w w' :
  server_step maxClientsPerRoom w w' → relay_inv w → relay_inv w'.
Proof.
  intros Hstep I. destruct Hstep.
  - apply handleClientConnection_keeps; assumption.
  - apply handleClientMessage_keeps; assumption.
  - apply handleClientDisconnection_keeps; assumption.
  - destruct (handlePong_keeps ws w) as [S G]. apply (shrinks_relay_inv _ _ S G I).
  - destruct (alter_socket_keeps (set_readyState state) ws w) as [S G]; [reflexivity|].
    apply (shrinks_relay_inv _ _ S G I).
  - destruct (heartbeat_keeps ping wssClients w) as [S G]. apply (shrinks_relay_inv _ _ S G I).
  - apply reapTick_keeps; assumption.
  - destruct (fireTimer_keeps handle w w') as [S G]; [assumption|].
    apply (shrinks_relay_inv _ _ S G I).
  - destruct (socket_step_keeps w (advance dt w)) as [S G]; auto.
    apply (shrinks_relay_inv _ _ S G I).
  - apply gracefulShutdown_keeps; assumption.
Qed.

Lemma initial_inv w : initial w → relay_inv w.
Proof.
  intros (Hs & Ht & Hr & Hg & Hd & Hst & Hc & _). split; [split|split; [split|]].
  - intros r. rewrite Hd, lookup_empty. intros [x Hx]. discriminate Hx.
  - intros r. rewrite Hst, lookup_empty. intros [x Hx]. discriminate Hx.
  - intros r room. unfold room_of. rewrite Hr, lookup_empty. discriminate.
  - intros r room c. unfold room_of. rewrite Hr, lookup_empty. discriminate.
  - intros r room. unfold room_of. rewrite Hr, lookup_empty. discriminate.
  - intros h. rewrite Ht, lookup_empty. intros [x Hx]. discriminate Hx.
  - intros r h. rewrite Hg, lookup_empty. discriminate.
  - intros r. rewrite Hg, lookup_empty. intros [x Hx]. discriminate Hx.
  - rewrite Hc. apply tracker_wf_empty.
Qed.

Lemma reachable_inv maxClientsPerRoom w : reachable maxClientsPerRoom w → relay_inv w.
Proof.
  intros (w0 & H0 & Hsteps). induction Hsteps as [w|w1 w2 w3 _ IH Hstep].
  - apply initial_inv. exact H0.
  - apply (server_step_inv maxClientsPerRoom w2 w3 Hstep). apply IH. exact H0.
Qed.

(** *** What holds of every state the server reaches *)

Lemma tracker_wf_quota (t : Tracker) ip r :
  tracker_wf t → 0 ≤ quota t ip r ≤ MAX_CONNECTIONS_PER_IP_PER_ROOM.
Proof.
  intros [Hc _]. unfold quota.
  destruct (t !! ip) as [m|] eqn:E; simpl.
  - destruct (m !! r) as [n|] eqn:Er; simpl.
    + pose proof (Hc ip m r n E Er). lia.
    + unfold MAX_CONNECTIONS_PER_IP_PER_ROOM. lia.
  - rewrite lookup_empty. simpl. unfold MAX_CONNECTIONS_PER_IP_PER_ROOM. lia.
Qed.

(** Extra X18.  In every state the server reaches, a document is held only
    for a code-editor room that exists, and a snapshot only beside a
    document: destroying a room never leaves its document behind. *)
Theorem reachable_documents_have_rooms maxClientsPerRoom w roomId :
  reachable maxClientsPerRoom w →
  (is_Some (documents (yjsManager (roomManager w)) !! roomId) →
     is_Some (room_of w roomId) ∧ SaveManager.isCodeEditorRoom roomId = true)
  ∧ (is_Some (documentStates (yjsManager (roomManager w)) !! roomId) →
     is_Some (documents (yjsManager (roomManager w)) !! roomId)).
Proof.
  intros H. destruct (reachable_inv _ _ H) as (R & _ & _). split.
  - apply (inv_documents _ R).
  - apply (inv_snapshots _ R).
Qed.

(** Extra X19.  In every state the server reaches, a member of a room
    carries the id of that room, appears once in its member set, and is a
    member of no other room. *)
Theorem reachable_member_of_one_room maxClientsPerRoom w roomId room client :
  reachable maxClientsPerRoom w →
  room_of w roomId = Some room →
  In client (clients room) →
  ws_roomId (socket_of w client) = Some roomId
  ∧ NoDup (clients room)
  ∧ ∀ r' room', room_of w r' = Some room' → In client (clients room') → r' = roomId.
Proof.
  intros H E Hin. destruct (reachable_inv _ _ H) as (R & _ & _).
  pose proof (inv_carry _ R roomId room client E Hin) as Hid.
  split; [exact Hid|]. split; [apply (inv_distinct _ R roomId room E)|].
  intros r' room' E' Hin'.
  pose proof (inv_carry _ R r' room' client E' Hin') as Hid'. congruence.
Qed.

(** Extra X20.  In every state the server reaches, a room is stored under
    its own id, and that id is one the connection handler lets in: it is
    not "default" and it belongs to one of the three families. *)
Theorem reachable_rooms_allowed maxClientsPerRoom w roomId room :
  reachable maxClientsPerRoom w →
  room_of w roomId = Some room →
  isAllowedRoom roomId = true ∧ roomId ≠ "default" ∧ room_id room = roomId.
Proof.
  intros H E. destruct (reachable_inv _ _ H) as (R & _ & _).
  apply (inv_allowed _ R roomId room E).
Qed.

(** Extra X21.  In every state the server reaches, the timeout a grace
    entry names is pending, was armed for that very room, and the room is
    a code-editor room that still exists. *)
Theorem reachable_grace_entry_pending maxClientsPerRoom w roomId timeout :
  reachable maxClientsPerRoom w →
  gracePeriods (roomManager w) !! roomId = Some timeout →
  (∃ due, timers w !! timeout = Some (due, roomId))
  ∧ (timeout < nextTimer w)%nat
  ∧ is_Some (room_of w roomId)
  ∧ SaveManager.isCodeEditorRoom roomId = true.
Proof.
  intros H E. destruct (reachable_inv _ _ H) as (_ & G & _).
  destruct (inv_pending _ G roomId timeout E) as [due Hd].
  split; [exists due; exact Hd|]. split.
  - apply (inv_fresh _ G). eexists. exact Hd.
  - apply (inv_exist _ G). eexists. exact E.
Qed.

(** Extra X22.  In every state the server reaches, whatever the handlers,
    tickers and resets have done to the connection table, every count in
    it lies between one and ten, no IP keeps an empty entry, and the count
    of every pair reads between zero and ten. *)
Theorem reachable_quota_bounded maxClientsPerRoom w :
  reachable maxClientsPerRoom w →
  tracker_wf (connectionTracker w) ∧ quota_bounded (connectionTracker w).
Proof.
  intros H. destruct (reachable_inv _ _ H) as (_ & _ & T).
  split; [exact T|]. intros ip r. apply tracker_wf_quota. exact T.
Qed.

End Invariants.

Lemma world0_initial : initial world0.
Proof. repeat split. Qed.

(** The sample run [emptied_room] is a run of the server. *)
Lemma emptied_room_reachable : reachable 50 emptied_room.
Proof.
  exists world0. split; [exact world0_initial|]. unfold emptied_room.
  eapply server_snoc; [|apply step_time; lia].
  eapply server_snoc; [|apply step_close; unfold listening; vm_compute; auto].
  eapply server_snoc; [|apply step_time; lia].
  eapply server_snoc; [apply server_refl|].
  apply (step_connection 50 world0 "r" 0%nat (request_for "/repo-7-foo.ts" "203.0.113.9")).
  reflexivity.
Qed.

(** A socket joins a code-editor room and sends one update. *)
Lemma first_update_reachable :
  reachable 50
    (handleClientMessage send_none 0 hi_frame
       (handleClientConnection 50 "r" 0 (request_for "/repo-7-foo.ts" "203.0.113.9")
          (accept 0 world0))).
Proof.
  exists world0. split; [exact world0_initial|].
  eapply server_snoc; [|apply step_message; unfold listening; vm_compute; auto].
  eapply server_snoc; [apply server_refl|].
  apply (step_connection 50 world0 "r" 0%nat (request_for "/repo-7-foo.ts" "203.0.113.9")).
  reflexivity.
Qed.

Lemma reachable_documents_have_rooms_witness :
  is_Some (room_of
    (handleClientMessage send_none 0 hi_frame
       (handleClientConnection 50 "r" 0 (request_for "/repo-7-foo.ts" "203.0.113.9")
          (accept 0 world0))) "repo-7-foo.ts").
Proof.
  destruct (reachable_documents_have_rooms 50 _ "repo-7-foo.ts" first_update_reachable)
    as [H _].
  apply H. vm_compute. eexists. reflexivity.
Defined.

Lemma reachable_member_of_one_room_witness :
  ws_roomId (socket_of
    (handleClientMessage send_none 0 hi_frame
       (handleClientConnection 50 "r" 0 (request_for "/repo-7-foo.ts" "203.0.113.9")
          (accept 0 world0))) 0%nat) = Some "repo-7-foo.ts".
Proof.
  eapply (reachable_member_of_one_room 50 _ "repo-7-foo.ts" _ 0%nat first_update_reachable).
  - vm_compute. reflexivity.
  - vm_compute. auto.
Defined.

Lemma reachable_rooms_allowed_witness :
  isAllowedRoom "repo-7-foo.ts" = true.
Proof.
  eapply (reachable_rooms_allowed 50 emptied_room "repo-7-foo.ts" _ emptied_room_reachable).
  vm_compute. reflexivity.
Defined.

Lemma reachable_grace_entry_pending_witness :
  ∃ due, timers emptied_room !! 0%nat = Some (due, "repo-7-foo.ts").
Proof.
  eapply (reachable_grace_entry_pending 50 emptied_room "repo-7-foo.ts" 0%nat
            emptied_room_reachable).
  vm_compute. reflexivity.
Defined.

Lemma reachable_quota_bounded_witness :
  0 ≤ quota (connectionTracker emptied_room) "203.0.113.9" "repo-7-foo.ts"
    ≤ MAX_CONNECTIONS_PER_IP_PER_ROOM.
Proof.
  destruct (reachable_quota_bounded 50 emptied_room emptied_room_reachable) as [_ H].
  apply H.
Defined.

(** ** Sweeps, tickers and handlers *)

Section SweepFacts.
Context {Y : YjsLib}.
Implicit Types (w : World Y) (roomId : string) (client : nat) (room : RoomInfo).

(** *** What a broadcast leaves alone *)

Lemma evict_fold_frame roomId (dead : list nat) : ∀ w,
  let w' := foldl (evict roomId) w dead in
  sockets w' = sockets w ∧ timers w' = timers w ∧ nextTimer w' = nextTimer w
  ∧ connectionTracker w' = connectionTracker w
  ∧ gracePeriods (roomManager w') = gracePeriods (roomManager w)
  ∧ yjsManager (roomManager w') = yjsManager (roomManager w)
  ∧ now w' = now w
  ∧ ∀ r, r ≠ roomId → room_of w' r = room_of w r.
Proof.
  induction dead as [|d dead IH]; intros w; simpl.
  - repeat split; auto.
  - destruct (IH (evict roomId w d)) as (-> & -> & -> & -> & -> & -> & -> & Hr).
    repeat split. intros r Hne. rewrite (Hr r Hne). unfold room_of. simpl.
    apply lookup_alter_ne. congruence.
Qed.

(** Extra X23.  A broadcast changes the member set and activity time of
    its own room and, for a code-editor room, that room's document and
    snapshot; sockets, timeouts, grace entries, the connection table, every
    other room and every other document stay as they are.  On a room that
    does not exist it changes nothing at all, and the sender is never
    evicted. *)
Theorem broadcast_leaves_the_rest send roomId message sender w :
  let w' := fst (broadcast send roomId message sender w) in
  sockets w' = sockets w ∧ timers w' = timers w ∧ nextTimer w' = nextTimer w
  ∧ connectionTracker w' = connectionTracker w
  ∧ gracePeriods (roomManager w') = gracePeriods (roomManager w)
  ∧ (∀ r, r ≠ roomId →
       room_of w' r = room_of w r
       ∧ documents (yjsManager (roomManager w')) !! r
         = documents (yjsManager (roomManager w)) !! r
       ∧ documentStates (yjsManager (roomManager w')) !! r
         = documentStates (yjsManager (roomManager w)) !! r)
  ∧ (SaveManager.isCodeEditorRoom roomId = false →
       yjsManager (roomManager w') = yjsManager (roomManager w))
  ∧ (room_of w roomId = None → w' = w)
  ∧ (∀ room, room_of w roomId = Some room → In sender (clients room) →
       ∃ room', room_of w' roomId = Some room' ∧ In sender (clients room')).
Proof.
  intros w'. destruct (room_of w roomId) as [room|] eqn:Hroom.
  2: { assert (E : w' = w) by (subst w'; unfold broadcast; rewrite Hroom; reflexivity).
       rewrite E. repeat split; auto. discriminate. }
  destruct (broadcast_spec send message sender roomId w room Hroom)
    as (_ & _ & (room' & Hr' & Hcl) & Hy).
  fold w' in Hr', Hy.
  assert (Hframe : sockets w' = sockets w ∧ timers w' = timers w
                   ∧ nextTimer w' = nextTimer w
                   ∧ connectionTracker w' = connectionTracker w
                   ∧ gracePeriods (roomManager w') = gracePeriods (roomManager w)
                   ∧ ∀ r, r ≠ roomId → room_of w' r = room_of w r).
  { subst w'. unfold broadcast. rewrite Hroom.
    set (w1 := if SaveManager.isCodeEditorRoom roomId
               then upd_rm (set_yjsManager (fun _ =>
                      fst (handleYjsMessage roomId message (yjsManager (roomManager w)))))
                      (emit (EvApplyUpdate roomId message) w)
               else w).
    assert (Happ : (if SaveManager.isCodeEditorRoom roomId
                    then let '(m, c) := handleYjsMessage roomId message
                                          (yjsManager (roomManager w)) in
                         (upd_rm (set_yjsManager (fun _ => m))
                            (emit (EvApplyUpdate roomId message) w), c)
                    else (w, Normal tt)) = (w1, Normal tt)).
    { subst w1. destruct (SaveManager.isCodeEditorRoom roomId); [|reflexivity].
      pose proof (handleYjsMessage_returns roomId message (yjsManager (roomManager w)))
        as Hret.
      destruct (handleYjsMessage roomId message (yjsManager (roomManager w))) as [m c].
      simpl in *. subst c. reflexivity. }
    rewrite Happ. clear Happ.
    assert (H1 : sockets w1 = sockets w ∧ timers w1 = timers w
                 ∧ nextTimer w1 = nextTimer w
                 ∧ connectionTracker w1 = connectionTracker w
                 ∧ gracePeriods (roomManager w1) = gracePeriods (roomManager w)
                 ∧ rooms (roomManager w1) = rooms (roomManager w)).
    { subst w1. destruct (SaveManager.isCodeEditorRoom roomId); repeat split. }
    destruct H1 as (S1 & T1 & N1 & C1 & G1 & R1).
    rewrite <- (emit_all_nil w1). rewrite visit_fold.
    set (w2 := emit_all _ w1). set (dead := [] ++ _).
    destruct (evict_fold_frame roomId dead w2) as (S3 & T3 & N3 & C3 & G3 & _ & _ & R3).
    simpl. rewrite S3, T3, N3, C3, G3. simpl.
    split; [exact S1|]. split; [exact T1|]. split; [exact N1|]. split; [exact C1|].
    split; [exact G1|].
    intros r Hne. unfold room_of. simpl. rewrite lookup_alter_ne by congruence.
    pose proof (R3 r Hne) as Hr3. unfold room_of in Hr3. rewrite Hr3.
    simpl. rewrite R1. reflexivity. }
  destruct Hframe as (S & T & N & C & G & R).
  split; [exact S|]. split; [exact T|]. split; [exact N|]. split; [exact C|].
  split; [exact G|]. split; [|split; [|split]].
  - intros r Hne. split; [apply R; exact Hne|]. rewrite Hy.
    destruct (SaveManager.isCodeEditorRoom roomId); [|auto].
    destruct (handleYjsMessage_lookups roomId message (yjsManager (roomManager w)))
      as (Hother & _). apply Hother. exact Hne.
  - intros Hk. rewrite Hy, Hk. reflexivity.
  - discriminate.
  - intros room0 [= <-] Hin. exists room'. split; [exact Hr'|].
    rewrite Hcl. apply filter_In. split; [exact Hin|].
    unfold is_dead, is_peer. rewrite Nat.eqb_refl. reflexivity.
Qed.

(** *** The sweep of inactive members *)

Lemma cleanupRoom_empty roomId w room :
  room_of w roomId = Some room → clients room = [] →
  cleanupRoom roomId w
  = (if SaveManager.isCodeEditorRoom roomId
     then upd_rm (set_yjsManager (cleanupDocument roomId))
            (upd_rm (set_rooms (delete roomId)) w)
     else upd_rm (set_rooms (delete roomId)) w).
Proof. intros E Hc. unfold cleanupRoom. rewrite E, Hc. reflexivity. Qed.

Lemma dead_are_inactive w (l : list nat) :
  List.filter (fun c => negb (existsb (Nat.eqb c)
                 (List.filter (fun client => isInactive (socket_of w client)) l))) l
  = active_in w l.
Proof.
  unfold active_in. apply List.filter_ext_in. intros c Hc.
  destruct (isActive (socket_of w c)) eqn:Ha; simpl.
  - apply negb_true_iff, not_true_is_false. intros (x & Hx & Heq)%existsb_exists.
    apply Nat.eqb_eq in Heq as <-. apply filter_In in Hx as [_ Hx].
    rewrite isInactive_spec, Ha in Hx. discriminate Hx.
  - apply negb_false_iff, existsb_exists. exists c. split; [|apply Nat.eqb_refl].
    apply filter_In. split; [exact Hc|]. rewrite isInactive_spec, Ha. reflexivity.
Qed.

Lemma active_in_idem w w' (l : list nat) :
  sockets w' = sockets w → active_in w' (active_in w l) = active_in w l.
Proof.
  intros Hs. unfold active_in, socket_of. rewrite Hs.
  induction l as [|c l IH]; simpl; [reflexivity|].
  destruct (isActive (default blank_socket (sockets w !! c))) eqn:Ha; simpl;
    rewrite ?Ha, IH; reflexivity.
Qed.

Lemma active_in_ext w w' (l : list nat) :
  sockets w' = sockets w → active_in w' l = active_in w l.
Proof. intros Hs. unfold active_in, socket_of. rewrite Hs. reflexivity. Qed.

(** One turn of the sweep. *)
Lemma reapRoom_spec roomId w (n : Z) :
  let res := reapRoom (w, n) roomId in
  sockets (fst res) = sockets w
  ∧ (∀ r, r ≠ roomId → room_of (fst res) r = room_of w r)
  ∧ (∀ r, is_Some (gracePeriods (roomManager w) !! r) →
          is_Some (gracePeriods (roomManager (fst res)) !! r))
  ∧ match room_of w roomId with
    | None => res = (w, n)
    | Some room =>
        snd res = n + Z.of_nat (length (clients room))
                    - Z.of_nat (length (active_in w (clients room)))
        ∧ ((∃ room', room_of (fst res) roomId = Some room'
              ∧ clients room' = active_in w (clients room)
              ∧ (clients room ≠ [] → active_in w (clients room) = [] →
                   SaveManager.isCodeEditorRoom roomId = true
                   ∧ is_Some (gracePeriods (roomManager (fst res)) !! roomId)))
           ∨ (room_of (fst res) roomId = None
              ∧ SaveManager.isCodeEditorRoom roomId = false
              ∧ clients room ≠ [] ∧ active_in w (clients room) = []))
    end.
Proof.
  intros res. subst res. unfold reapRoom.
  destruct (room_of w roomId) as [room|] eqn:E; [|simpl; auto].
  rewrite evict_count_fold.
  set (dead := List.filter (fun client => isInactive (socket_of w client)) (clients room)).
  destruct (evict_fold roomId dead w room E) as (_ & _ & _ & (room1 & E1 & Hc1)).
  destruct (evict_fold_frame roomId dead w) as (S1 & _ & _ & _ & G1 & _ & _ & R1).
  set (w1 := foldl (evict roomId) w dead) in *.
  subst dead. rewrite dead_are_inactive in Hc1.
  assert (Hlen : Z.of_nat (length (List.filter (fun client => isInactive (socket_of w client))
                                     (clients room)))
                 = Z.of_nat (length (clients room))
                   - Z.of_nat (length (active_in w (clients room)))).
  { unfold active_in. generalize (clients room). intros l.
    induction l as [|c l IH]; simpl; [reflexivity|].
    rewrite isInactive_spec. destruct (isActive (socket_of w c)); simpl; lia. }
  unfold room_size. rewrite E1, Hc1.
  destruct (negb (Nat.eqb (length (clients room)) (length (active_in w (clients room))))
            && Nat.eqb (length (active_in w (clients room))) 0) eqn:Hcond.
  - apply andb_true_iff in Hcond as [Hneq Hz].
    apply Nat.eqb_eq in Hz. apply negb_true_iff, Nat.eqb_neq in Hneq.
    assert (Hnil : active_in w (clients room) = [])
      by (destruct (active_in w (clients room)); [reflexivity | discriminate Hz]).
    assert (Hne : clients room ≠ []).
    { intros Hn. apply Hneq. rewrite Hz, Hn. reflexivity. }
    destruct (SaveManager.isCodeEditorRoom roomId) eqn:Hk.
    + rewrite (startGracePeriod_editor roomId w1 Hk). simpl.
      split; [exact S1|]. split; [exact R1|]. split.
      { intros r Hr. rewrite G1. destruct (decide (r = roomId)) as [->|Hner].
        - rewrite lookup_insert_eq. eexists. reflexivity.
        - rewrite lookup_insert_ne by congruence. exact Hr. }
      split; [lia|]. left. exists room1. split; [exact E1|]. split; [exact Hc1|].
      intros _ _. split; [reflexivity|]. rewrite lookup_insert_eq. eexists. reflexivity.
    + rewrite (startGracePeriod_other roomId w1 Hk).
      rewrite (cleanupRoom_empty roomId w1 room1 E1) by congruence.
      rewrite Hk. simpl.
      split; [exact S1|]. split.
      { intros r Hner. unfold room_of. simpl. rewrite lookup_delete_ne by congruence.
        apply R1. exact Hner. }
      split; [intros r Hr; rewrite G1; exact Hr|].
      split; [lia|]. right. split; [|auto].
      unfold room_of. simpl. apply lookup_delete_eq.
  - simpl. split; [exact S1|]. split; [exact R1|].
    split; [intros r Hr; rewrite G1; exact Hr|].
    split; [lia|]. left. exists room1. split; [exact E1|]. split; [exact Hc1|].
    intros Hne Hnil. exfalso. rewrite Hnil in Hcond. simpl in Hcond.
    rewrite andb_true_r in Hcond. apply negb_false_iff, Nat.eqb_eq in Hcond.
    destruct (clients room); [apply Hne; reflexivity | discriminate Hcond].
Qed.

Lemma reap_sweep order w :
  let res := cleanupInactiveClients order w in
  sockets (fst res) = sockets w
  ∧ (∀ r, ¬ In r order → room_of (fst res) r = room_of w r)
  ∧ (∀ r, room_of w r = None → room_of (fst res) r = None)
  ∧ (∀ r room, In r order → room_of w r = Some room →
       (∃ room', room_of (fst res) r = Some room'
          ∧ clients room' = active_in w (clients room)
          ∧ (clients room ≠ [] → active_in w (clients room) = [] →
               SaveManager.isCodeEditorRoom r = true
               ∧ is_Some (gracePeriods (roomManager (fst res)) !! r)))
       ∨ (room_of (fst res) r = None ∧ SaveManager.isCodeEditorRoom r = false
          ∧ clients room ≠ [] ∧ active_in w (clients room) = []))
  ∧ (NoDup order →
       snd res = foldl (fun n r => n + Z.of_nat (room_size w r) - getActiveClientCount r w)
                       0 order).
Proof.
  unfold cleanupInactiveClients. induction order as [|r0 order IH] using rev_ind.
  - simpl. repeat split; auto. intros r room [].
  - rewrite !foldl_app. simpl.
    destruct IH as (S & Rout & Rnone & Rin & Hcount).
    destruct (foldl reapRoom (w, 0) order) as [wk nk] eqn:Ek. simpl in S, Rout, Rnone, Rin, Hcount.
    destruct (reapRoom_spec r0 wk nk) as (S' & R' & G' & Hm).
    set (res := reapRoom (wk, nk) r0) in *.
    split; [rewrite S'; exact S|]. split; [|split; [|split]].
    + intros r Hr. rewrite R'.
      * apply Rout. intros Hin. apply Hr. apply in_or_app. left. exact Hin.
      * intros ->. apply Hr. apply in_or_app. right. left. reflexivity.
    + intros r Hn. destruct (decide (r = r0)) as [->|Hne].
      * rewrite (Rnone r0 Hn) in Hm. rewrite Hm. simpl. apply Rnone. exact Hn.
      * rewrite (R' r Hne). apply Rnone. exact Hn.
    + intros r room Hin E. destruct (decide (r = r0)) as [->|Hne].
      * destruct (in_dec string_dec r0 order) as [Hold|Hnew].
        -- destruct (Rin r0 room Hold E) as [(roomk & Ek' & Hck & Hgk)|(Ek' & Hk & Hne' & Hnil)].
           ++ rewrite Ek' in Hm. destruct Hm as (_ & [(room' & E' & Hc' & _)|(_ & _ & Hne' & Hnil)]).
              ** left. exists room'. split; [exact E'|]. split.
                 { rewrite Hc', Hck. apply active_in_idem. exact S. }
                 intros Hne' Hnil. destruct (Hgk Hne' Hnil) as [Hk Hg0].
                 split; [exact Hk | apply G'; exact Hg0].
              ** exfalso. apply Hne'. rewrite Hck in *.
                 rewrite (active_in_idem w wk (clients room) S) in Hnil. exact Hnil.
           ++ rewrite Ek' in Hm. right. rewrite Hm. simpl. auto.
        -- rewrite (Rout r0 Hnew), E in Hm.
           rewrite (active_in_ext w wk (clients room) S) in Hm.
           destruct Hm as (_ & [(room' & E' & Hc' & Hg')|Hgone]).
           ++ left. exists room'. split; [exact E'|]. split; [exact Hc'|].
              intros H1 H2. apply (Hg' H1 H2).
           ++ right. exact Hgone.
      * assert (Hold : In r order).
        { apply in_app_or in Hin as [Hin|[Hin|[]]]; [exact Hin | congruence]. }
        rewrite (R' r Hne).
        destruct (Rin r room Hold E) as [(roomk & Ek' & Hck & Hgk)|Hgone].
        -- left. exists roomk. split; [exact Ek'|]. split; [exact Hck|].
           intros H1 H2. destruct (Hgk H1 H2) as [Hk Hg0].
           split; [exact Hk | apply G'; exact Hg0].
        -- right. exact Hgone.
    + intros Hnd. apply NoDup_app in Hnd as (Hnd & Hdisj & _).
      assert (Hnew : ¬ In r0 order).
      { intros Hin. apply (Hdisj r0); apply list_elem_of_In; [exact Hin | left; reflexivity]. }
      rewrite <- (Hcount Hnd). rewrite (Rout r0 Hnew) in Hm.
      unfold room_size. rewrite getActiveClientCount_filter.
      destruct (room_of w r0) as [room|].
      * destruct Hm as (-> & _). rewrite (active_in_ext w wk (clients room) S). reflexivity.
      * rewrite Hm. simpl. lia.
Qed.

(** Extra X24.  [cleanupInactiveClients] closes no socket and creates no
    room.  A room it visits either stays, with exactly its active members
    in their order, or is destroyed.  It stays unless the sweep leaves a
    room that had members empty; then it stays, with a grace entry, only
    if it is a code-editor room, and a room of any other kind is
    destroyed.  Rooms it does not visit are untouched, no room's active
    count changes, and the number it returns is the number of members that
    were not active. *)
Theorem cleanupInactiveClients_keeps_active order w :
  let w' := fst (cleanupInactiveClients order w) in
  sockets w' = sockets w
  ∧ (∀ r, ¬ In r order → room_of w' r = room_of w r)
  ∧ (∀ r, room_of w r = None → room_of w' r = None)
  ∧ (∀ r room, In r order → room_of w r = Some room →
       (∃ room', room_of w' r = Some room'
          ∧ clients room' = active_in w (clients room)
          ∧ (clients room ≠ [] → active_in w (clients room) = [] →
               SaveManager.isCodeEditorRoom r = true
               ∧ is_Some (gracePeriods (roomManager w') !! r)))
       ∨ (room_of w' r = None ∧ SaveManager.isCodeEditorRoom r = false
          ∧ clients room ≠ [] ∧ active_in w (clients room) = []))
  ∧ (∀ r room, In r order → room_of w r = Some room →
       clients room ≠ [] → active_in w (clients room) = [] →
       if SaveManager.isCodeEditorRoom r
       then (∃ room', room_of w' r = Some room' ∧ clients room' = [])
            ∧ is_Some (gracePeriods (roomManager w') !! r)
       else room_of w' r = None)
  ∧ (∀ r, getActiveClientCount r w' = getActiveClientCount r w)
  ∧ (NoDup order →
       snd (cleanupInactiveClients order w)
       = foldl (fun n r => n + Z.of_nat (room_size w r) - getActiveClientCount r w) 0 order).
Proof.
  intros w'. destruct (reap_sweep order w) as (S & Rout & Rnone & Rin & Hcount).
  fold w' in S, Rout, Rnone, Rin.
  split; [exact S|]. split; [exact Rout|]. split; [exact Rnone|]. split; [exact Rin|].
  split; [|split; [|exact Hcount]].
  { intros r room Hin E Hne Hnil.
    destruct (Rin r room Hin E) as [(room' & E' & Hc' & Hg)|(E' & Hk & _)].
    - destruct (Hg Hne Hnil) as [Hk Hg']. rewrite Hk.
      split; [|exact Hg']. exists room'. split; [exact E'|]. rewrite Hc'. exact Hnil.
    - rewrite Hk. exact E'. }
  intros r. rewrite !getActiveClientCount_filter.
  destruct (room_of w r) as [room|] eqn:E; [|rewrite (Rnone r E); reflexivity].
  destruct (in_dec string_dec r order) as [Hin|Hout].
  - destruct (Rin r room Hin E) as [(room' & E' & Hc' & _)|(E' & _ & _ & Hnil)].
    + rewrite E', Hc'. rewrite (active_in_idem w w' (clients room) S). reflexivity.
    + rewrite E', Hnil. reflexivity.
  - rewrite (Rout r Hout), E. rewrite (active_in_ext w w' (clients room) S). reflexivity.
Qed.

(** *** The sweep of empty rooms *)

Lemma sweepRoom_unfold roomId w (n : Z) :
  sweepRoom (w, n) roomId
  = if is_swept w roomId then (cleanupRoom roomId w, n + 1) else (w, n).
Proof.
  unfold sweepRoom, is_swept. destruct (room_of w roomId) as [room|] eqn:E.
  - rewrite (bool_decide_eq_true_2 (is_Some (Some room))) by (eexists; reflexivity).
    reflexivity.
  - rewrite (bool_decide_eq_false_2 (is_Some (@None RoomInfo)))
      by (intros [x Hx]; discriminate Hx).
    reflexivity.
Qed.

Lemma count_ext_active roomId w1 w2 :
  room_of w1 roomId = room_of w2 roomId →
  (∀ c, isActive (socket_of w1 c) = isActive (socket_of w2 c)) →
  getActiveClientCount roomId w1 = getActiveClientCount roomId w2.
Proof.
  intros Hr Hs. rewrite !getActiveClientCount_filter, Hr.
  destruct (room_of w2 roomId) as [room|]; [|reflexivity].
  unfold active_in. rewrite (List.filter_ext _ _ Hs). reflexivity.
Qed.

Lemma is_swept_ext roomId w1 w2 :
  room_of w1 roomId = room_of w2 roomId →
  gracePeriods (roomManager w1) = gracePeriods (roomManager w2) →
  (∀ c, isActive (socket_of w1 c) = isActive (socket_of w2 c)) →
  is_swept w1 roomId = is_swept w2 roomId.
Proof.
  intros Hr Hg Hs. unfold is_swept.
  rewrite (count_ext_active roomId w1 w2 Hr Hs), Hr, Hg. reflexivity.
Qed.

Lemma zero_count_inactive roomId w room c :
  room_of w roomId = Some room → getActiveClientCount roomId w = 0 →
  In c (clients room) → isActive (socket_of w c) = false.
Proof.
  intros E Hz Hin. rewrite getActiveClientCount_filter, E in Hz.
  destruct (isActive (socket_of w c)) eqn:Ha; [|reflexivity].
  assert (Hc : In c (active_in w (clients room))) by (apply filter_In; auto).
  destruct (active_in w (clients room)); [destruct Hc | discriminate Hz].
Qed.

Lemma closing_idem s : closing (closing s) = closing s.
Proof.
  unfold closing. destruct (Z.eqb_spec (readyState s) 3) as [E|E].
  - rewrite (proj2 (Z.eqb_eq _ _) E). reflexivity.
  - reflexivity.
Qed.

Lemma is_swept_facts roomId w :
  is_swept w roomId = true →
  (∃ room, room_of w roomId = Some room)
  ∧ getActiveClientCount roomId w = 0
  ∧ gracePeriods (roomManager w) !! roomId = None.
Proof.
  unfold is_swept. intros H. apply andb_true_iff in H as [H Hg].
  apply andb_true_iff in H as [Hr Hz].
  apply bool_decide_eq_true in Hr. apply Z.eqb_eq in Hz.
  apply negb_true_iff, bool_decide_eq_false in Hg.
  split; [destruct Hr as [room Hr]; eauto|]. split; [exact Hz|].
  destruct (gracePeriods (roomManager w) !! roomId); [|reflexivity].
  exfalso. apply Hg. eexists. reflexivity.
Qed.

Lemma empty_sweep order w :
  let res := cleanupEmptyRooms order w in
  (∀ r, room_of (fst res) r
        = if bool_decide (r ∈ order) && is_swept w r then None else room_of w r)
  ∧ gracePeriods (roomManager (fst res)) = gracePeriods (roomManager w)
  ∧ timers (fst res) = timers w
  ∧ (∀ c, socket_of (fst res) c = socket_of w c
          ∨ (socket_of (fst res) c = closing (socket_of w c)
             ∧ isActive (socket_of w c) = false))
  ∧ (∀ r room c, r ∈ order → is_swept w r = true → room_of w r = Some room →
       In c (clients room) → readyState (socket_of (fst res) c) ≠ 1)
  ∧ (∀ r, r ∈ order → is_swept w r = true → SaveManager.isCodeEditorRoom r = true →
       documents (yjsManager (roomManager (fst res))) !! r = None
       ∧ documentStates (yjsManager (roomManager (fst res))) !! r = None)
  ∧ (NoDup order → snd res = Z.of_nat (length (List.filter (is_swept w) order))).
Proof.
  unfold cleanupEmptyRooms. induction order as [|r0 order IH] using rev_ind.
  - simpl. split; [|split; [|split; [|split; [|split; [|split]]]]]; auto.
    + intros r room c Hin. apply elem_of_nil in Hin. destruct Hin.
    + intros r Hin. apply elem_of_nil in Hin. destruct Hin.
  - rewrite !foldl_app. simpl.
    destruct IH as (Rm & G & T & A & M & D & C).
    destruct (foldl sweepRoom (w, 0) order) as [wk nk] eqn:Ek.
    simpl in Rm, G, T, A, M, D, C.
    assert (Hact : ∀ c, isActive (socket_of wk c) = isActive (socket_of w c)).
    { intros c. destruct (A c) as [->|[-> Hin]]; [reflexivity|].
      rewrite closing_inactive, Hin. reflexivity. }
    assert (Hsw : is_swept wk r0 = negb (bool_decide (r0 ∈ order)) && is_swept w r0).
    { pose proof (Rm r0) as Hr0. destruct (bool_decide (r0 ∈ order)); simpl in *.
      - destruct (is_swept w r0) eqn:Hs.
        + unfold is_swept. rewrite Hr0.
          rewrite bool_decide_eq_false_2 by (intros [x Hx]; discriminate Hx). reflexivity.
        + rewrite <- Hs. apply is_swept_ext; assumption.
      - apply is_swept_ext; assumption. }
    rewrite sweepRoom_unfold. rewrite Hsw.
    assert (Hin0 : ∀ r, bool_decide (r ∈ order ++ [r0])
                        = bool_decide (r ∈ order) || bool_decide (r = r0)).
    { intros r. destruct (bool_decide_reflect (r ∈ order)) as [H1|H1];
        destruct (bool_decide_reflect (r = r0)) as [H2|H2]; simpl.
      - apply bool_decide_eq_true_2. apply elem_of_app. left. exact H1.
      - apply bool_decide_eq_true_2. apply elem_of_app. left. exact H1.
      - apply bool_decide_eq_true_2. apply elem_of_app. right. subst r. apply list_elem_of_here.
      - apply bool_decide_eq_false_2. intros Hin. apply elem_of_app in Hin as [Hin|Hin];
          [contradiction|]. apply list_elem_of_singleton in Hin. contradiction. }
    destruct (bool_decide_reflect (r0 ∈ order)) as [Hold|Hnew]; simpl.
    + (* visited before: nothing happens *)
      split; [|split; [exact G|split; [exact T|split; [exact A|split; [|split]]]]].
      * intros r. rewrite Rm, Hin0.
        destruct (bool_decide_reflect (r = r0)) as [->|Hne]; [|rewrite orb_false_r; reflexivity].
        rewrite (bool_decide_eq_true_2 _ Hold). reflexivity.
      * intros r room c Hin. apply M. apply elem_of_app in Hin as [Hin|Hin]; [exact Hin|].
        apply list_elem_of_singleton in Hin. subst r. exact Hold.
      * intros r Hin. apply D. apply elem_of_app in Hin as [Hin|Hin]; [exact Hin|].
        apply list_elem_of_singleton in Hin. subst r. exact Hold.
      * intros Hnd. apply NoDup_app in Hnd as (_ & Hdisj & _). exfalso.
        apply (Hdisj r0 Hold). apply list_elem_of_here.
    + destruct (is_swept w r0) eqn:Hs0.
      * (* the room is destroyed now *)
        destruct (is_swept_facts r0 w Hs0) as ((room0 & E0) & Hz0 & Hg0).
        assert (Ek0 : room_of wk r0 = Some room0).
        { rewrite Rm. rewrite (bool_decide_eq_false_2 _ Hnew). exact E0. }
        destruct (cleanupRoom_rm r0 wk room0 Ek0)
          as (Hr & Hg & Hy & _ & Hclosed & Hsock & Hrest & _ & _).
        destruct (cleanupRoom_frame r0 wk) as (Htm & _ & _).
        simpl.
        assert (A' : ∀ c, socket_of (cleanupRoom r0 wk) c = socket_of w c
                          ∨ (socket_of (cleanupRoom r0 wk) c = closing (socket_of w c)
                             ∧ isActive (socket_of w c) = false)).
        { intros c. destruct (in_dec Nat.eq_dec c (clients room0)) as [Hin|Hout].
          - assert (Hia : isActive (socket_of w c) = false)
              by (apply (zero_count_inactive r0 w room0 c E0 Hz0 Hin)).
            destruct (Hsock c) as [->| ->].
            + destruct (A c) as [->|[-> _]]; auto.
            + right. split; [|exact Hia].
              destruct (A c) as [->|[-> _]]; [reflexivity | apply closing_idem].
          - rewrite (Hrest c Hout). apply A. }
        assert (Hkeep : ∀ c, readyState (socket_of wk c) ≠ 1 →
                             readyState (socket_of (cleanupRoom r0 wk) c) ≠ 1).
        { intros c Hc. destruct (Hsock c) as [->| ->]; [exact Hc | apply closing_not_open]. }
        split; [|split; [|split; [|split; [exact A'|split; [|split]]]]].
        -- intros r. unfold room_of. rewrite Hr, Hin0.
           destruct (bool_decide_reflect (r = r0)) as [->|Hne].
           ++ rewrite orb_true_r, Hs0. simpl. apply lookup_delete_eq.
           ++ rewrite orb_false_r. rewrite lookup_delete_ne by congruence. apply Rm.
        -- rewrite Hg. exact G.
        -- rewrite Htm. exact T.
        -- intros r room c Hin Hs E Hc. apply elem_of_app in Hin as [Hin|Hin].
           ++ apply Hkeep. apply (M r room c Hin Hs E Hc).
           ++ apply list_elem_of_singleton in Hin. subst r.
              assert (room = room0) by congruence. subst room. apply Hclosed. exact Hc.
        -- intros r Hin Hs Hk. apply elem_of_app in Hin as [Hin|Hin].
           ++ destruct (D r Hin Hs Hk) as [Hd Hst]. rewrite Hy.
              destruct (SaveManager.isCodeEditorRoom r0); [|auto]. simpl.
              destruct (decide (r = r0)) as [->|Hne].
              ** rewrite !lookup_delete_eq. auto.
              ** rewrite !lookup_delete_ne by congruence. auto.
           ++ apply list_elem_of_singleton in Hin. subst r. rewrite Hy, Hk. simpl.
              rewrite !lookup_delete_eq. auto.
        -- intros Hnd. apply NoDup_app in Hnd as (Hnd & _ & _).
           rewrite List.filter_app, length_app. simpl. rewrite Hs0. simpl.
           rewrite (C Hnd). lia.
      * (* the room stays *)
        simpl.
        split; [|split; [exact G|split; [exact T|split; [exact A|split; [|split]]]]].
        -- intros r. rewrite Rm, Hin0.
           destruct (bool_decide_reflect (r = r0)) as [->|Hne]; [|rewrite orb_false_r; reflexivity].
           rewrite Hs0, !andb_false_r. reflexivity.
        -- intros r room c Hin Hs. apply elem_of_app in Hin as [Hin|Hin]; [apply M; assumption|].
           apply list_elem_of_singleton in Hin. subst r. congruence.
        -- intros r Hin Hs. apply elem_of_app in Hin as [Hin|Hin]; [apply D; assumption|].
           apply list_elem_of_singleton in Hin. subst r. congruence.
        -- intros Hnd. apply NoDup_app in Hnd as (Hnd & _ & _).
           rewrite List.filter_app, length_app. simpl. rewrite Hs0. simpl.
           rewrite (C Hnd). lia.
Qed.

(** Extra X25.  [cleanupEmptyRooms] destroys exactly the rooms it visits
    that have no active member and no grace entry, with the document and
    snapshot of a code-editor room, and leaves every other room as it is.
    No member of a destroyed room is left open; no socket becomes active
    or inactive, so no room's active count changes; grace entries and
    timeouts are untouched; the number returned is the number of rooms
    destroyed. *)
Theorem cleanupEmptyRooms_destroys_idle_rooms order w :
  let w' := fst (cleanupEmptyRooms order w) in
  (∀ r, room_of w' r
        = if bool_decide (r ∈ order) && is_swept w r then None else room_of w r)
  ∧ gracePeriods (roomManager w') = gracePeriods (roomManager w)
  ∧ timers w' = timers w
  ∧ (∀ c, isActive (socket_of w' c) = isActive (socket_of w c))
  ∧ (∀ r, getActiveClientCount r w' = getActiveClientCount r w)
  ∧ (∀ r room c, r ∈ order → is_swept w r = true → room_of w r = Some room →
       In c (clients room) → readyState (socket_of w' c) ≠ 1)
  ∧ (∀ r, r ∈ order → is_swept w r = true → SaveManager.isCodeEditorRoom r = true →
       documents (yjsManager (roomManager w')) !! r = None
       ∧ documentStates (yjsManager (roomManager w')) !! r = None)
  ∧ (NoDup order →
       snd (cleanupEmptyRooms order w)
       = Z.of_nat (length (List.filter (is_swept w) order))).
Proof.
  intros w'. destruct (empty_sweep order w) as (Rm & G & T & A & M & D & C).
  fold w' in Rm, G, T, A, M, D.
  assert (Hact : ∀ c, isActive (socket_of w' c) = isActive (socket_of w c)).
  { intros c. destruct (A c) as [->|[-> Hin]]; [reflexivity|].
    rewrite closing_inactive, Hin. reflexivity. }
  split; [exact Rm|]. split; [exact G|]. split; [exact T|]. split; [exact Hact|].
  split; [|split; [exact M|split; [exact D|exact C]]].
  intros r. pose proof (Rm r) as Hr.
  destruct (bool_decide (r ∈ order) && is_swept w r) eqn:Hb.
  - apply andb_true_iff in Hb as [_ Hs].
    destruct (is_swept_facts r w Hs) as (_ & Hz & _).
    rewrite Hz, getActiveClientCount_filter, Hr. reflexivity.
  - apply count_ext_active; assumption.
Qed.

(** *** The heartbeat *)

Lemma socket_of_alter_gen (f : ExtendedWebSocket → ExtendedWebSocket) ws w c :
  socket_of (upd_sockets (alter f ws) w) c
  = if decide (c = ws)
    then match sockets w !! ws with Some s => f s | None => blank_socket end
    else socket_of w c.
Proof.
  unfold socket_of. simpl. destruct (decide (c = ws)) as [->|Hne].
  - rewrite lookup_alter_eq. destruct (sockets w !! ws); reflexivity.
  - rewrite lookup_alter_ne by congruence. reflexivity.
Qed.

Lemma failsHeartbeat_closing s : failsHeartbeat (closing s) = true.
Proof.
  unfold failsHeartbeat. pose proof (closing_not_open s) as H.
  destruct (Z.eqb_spec (readyState (closing s)) 1); [contradiction|].
  simpl. rewrite orb_true_r. reflexivity.
Qed.

Lemma blank_facts :
  isActive blank_socket = false ∧ failsHeartbeat blank_socket = true
  ∧ readyState blank_socket ≠ 1.
Proof. repeat split. discriminate. Qed.

(** The socket a turn of the heartbeat leaves at [ws]. *)
Lemma heartbeatVisit_socket ping w (p t : Z) ws :
  let res := heartbeatVisit ping (w, (p, t)) ws in
  roomManager (fst res) = roomManager w ∧ timers (fst res) = timers w
  ∧ connectionTracker (fst res) = connectionTracker w
  ∧ (∀ c, c ≠ ws → socket_of (fst res) c = socket_of w c)
  ∧ (∀ c, is_Some (sockets w !! c) → is_Some (sockets (fst res) !! c))
  ∧ (if negb (failsHeartbeat (socket_of w ws)) && ping ws
     then socket_of (fst res) ws = set_isAlive false (socket_of w ws)
          ∧ is_Some (sockets w !! ws)
          ∧ snd res = (p + 1, t)
     else readyState (socket_of (fst res) ws) ≠ 1 ∧ snd res = (p, t + 1)).
Proof.
  assert (Hdom : ∀ (f : ExtendedWebSocket → ExtendedWebSocket) (m : gmap nat ExtendedWebSocket) c,
            is_Some (m !! c) → is_Some (alter f ws m !! c)).
  { intros f m c [s Hs]. destruct (decide (c = ws)) as [->|Hne].
    - rewrite lookup_alter_eq, Hs. eexists. reflexivity.
    - rewrite lookup_alter_ne by congruence. eexists. exact Hs. }
  unfold heartbeatVisit. simpl.
  destruct (failsHeartbeat (socket_of w ws)) eqn:Hf; simpl.
  - split; [reflexivity|]. split; [reflexivity|]. split; [reflexivity|].
    split; [|split; [|split; [|reflexivity]]].
    + intros c Hne. rewrite socket_of_terminate. rewrite decide_False by exact Hne. reflexivity.
    + intros c Hc. apply Hdom. exact Hc.
    + rewrite socket_of_terminate. rewrite decide_True by reflexivity. apply closing_not_open.
  - assert (Hex : is_Some (sockets w !! ws)).
    { unfold socket_of in Hf. destruct (sockets w !! ws); [eexists; reflexivity|].
      simpl in Hf. discriminate Hf. }
    destruct (ping ws); simpl.
    + split; [reflexivity|]. split; [reflexivity|]. split; [reflexivity|].
      split; [|split; [|split; [|split; [exact Hex|reflexivity]]]].
      * intros c Hne. rewrite socket_of_alter_gen. rewrite decide_False by exact Hne. reflexivity.
      * intros c Hc. apply Hdom. exact Hc.
      * rewrite socket_of_alter_gen. rewrite decide_True by reflexivity.
        unfold socket_of. destruct Hex as [s ->]. reflexivity.
    + split; [reflexivity|]. split; [reflexivity|]. split; [reflexivity|].
      split; [|split; [|split; [|reflexivity]]].
      * intros c Hne. rewrite socket_of_terminate. rewrite decide_False by exact Hne.
        rewrite socket_of_alter_gen. rewrite decide_False by exact Hne. reflexivity.
      * intros c Hc. apply Hdom, Hdom. exact Hc.
      * rewrite socket_of_terminate. rewrite decide_True by reflexivity. apply closing_not_open.
Qed.

Lemma not_open_inactive s : readyState s ≠ 1 → isActive s = false ∧ failsHeartbeat s = true.
Proof.
  intros H. unfold isActive, failsHeartbeat.
  destruct (Z.eqb_spec (readyState s) 1); [contradiction|]. simpl.
  rewrite orb_true_r. auto.
Qed.

Lemma flagged_inactive s :
  isActive (set_isAlive false s) = false ∧ failsHeartbeat (set_isAlive false s) = true.
Proof.
  unfold isActive, failsHeartbeat. simpl. split; [|reflexivity].
  rewrite andb_false_r. reflexivity.
Qed.

Lemma heartbeat_sweep ping (l : list nat) w :
  let res := heartbeat ping l w in
  roomManager (fst res) = roomManager w ∧ timers (fst res) = timers w
  ∧ connectionTracker (fst res) = connectionTracker w
  ∧ (∀ c, ¬ In c l → socket_of (fst res) c = socket_of w c)
  ∧ (∀ c, In c l → isActive (socket_of (fst res) c) = false
                   ∧ failsHeartbeat (socket_of (fst res) c) = true)
  ∧ (∀ c, In c l → failsHeartbeat (socket_of w c) = true ∨ ping c = false →
          readyState (socket_of (fst res) c) ≠ 1)
  ∧ (∀ c, readyState (socket_of w c) ≠ 1 → readyState (socket_of (fst res) c) ≠ 1)
  ∧ (NoDup l →
       (∀ c, In c l → failsHeartbeat (socket_of w c) = false → ping c = true →
          socket_of (fst res) c = set_isAlive false (socket_of w c)
          ∧ is_Some (sockets (fst res) !! c))
       ∧ snd res
         = (Z.of_nat (length (List.filter
                (fun c => negb (failsHeartbeat (socket_of w c)) && ping c) l)),
            Z.of_nat (length (List.filter
                (fun c => negb (negb (failsHeartbeat (socket_of w c)) && ping c)) l)))).
Proof.
  unfold heartbeat. induction l as [|c0 l IH] using rev_ind.
  - simpl. split; [reflexivity|]. split; [reflexivity|]. split; [reflexivity|].
    split; [auto|]. split; [intros c0 []|]. split; [intros c0 []|]. split; [auto|].
    intros _. split; [intros c0 []|reflexivity].
  - rewrite !foldl_app. simpl.
    destruct IH as (Rm & T & C & Out & In1 & In2 & Keep & Hnd).
    destruct (foldl (heartbeatVisit ping) (w, (0, 0)) l) as [wk [p t]] eqn:Ek.
    simpl in Rm, T, C, Out, In1, In2, Keep, Hnd.
    destruct (heartbeatVisit_socket ping wk p t c0) as (Rm' & T' & C' & Oth & Dom & Here).
    set (res := heartbeatVisit ping (wk, (p, t)) c0) in *.
    assert (Hin_cases : ∀ c, In c (l ++ [c0]) → c = c0 ∨ (c ≠ c0 ∧ In c l)).
    { intros c Hin. destruct (decide (c = c0)) as [->|Hne]; [left; reflexivity|].
      right. split; [exact Hne|]. apply in_app_or in Hin as [Hin|[Hin|[]]];
        [exact Hin | congruence]. }
    assert (Hhere : isActive (socket_of (fst res) c0) = false
                    ∧ failsHeartbeat (socket_of (fst res) c0) = true).
    { destruct (negb (failsHeartbeat (socket_of wk c0)) && ping c0).
      - destruct Here as (-> & _). apply flagged_inactive.
      - destruct Here as (Hno & _). apply not_open_inactive. exact Hno. }
    assert (Hkeep' : ∀ c, readyState (socket_of wk c) ≠ 1 →
                          readyState (socket_of (fst res) c) ≠ 1).
    { intros c Hc. destruct (decide (c = c0)) as [->|Hne]; [|rewrite (Oth c Hne); exact Hc].
      destruct (negb (failsHeartbeat (socket_of wk c0)) && ping c0) eqn:Hb.
      - destruct Here as (-> & _). exact Hc.
      - destruct Here as (Hno & _). exact Hno. }
    split; [rewrite Rm'; exact Rm|]. split; [rewrite T'; exact T|].
    split; [rewrite C'; exact C|]. split; [|split; [|split; [|split]]].
    + intros c Hc. rewrite Oth.
      * apply Out. intros Hin. apply Hc. apply in_or_app. left. exact Hin.
      * intros ->. apply Hc. apply in_or_app. right. left. reflexivity.
    + intros c Hin. destruct (Hin_cases c Hin) as [->|[Hne Hold]]; [exact Hhere|].
      rewrite (Oth c Hne). apply In1. exact Hold.
    + intros c Hin Hbad. destruct (in_dec Nat.eq_dec c l) as [Hold|Hnew].
      * apply Hkeep'. apply In2; assumption.
      * assert (c = c0) by (destruct (Hin_cases c Hin) as [->|[_ ?]]; [reflexivity|contradiction]).
        subst c. rewrite (Out c0 Hnew) in Here.
        destruct (negb (failsHeartbeat (socket_of w c0)) && ping c0) eqn:Hb.
        -- apply andb_true_iff in Hb as [Hb1 Hb2]. apply negb_true_iff in Hb1.
           destruct Hbad; congruence.
        -- apply Here.
    + intros c Hc. apply Hkeep'. apply Keep. exact Hc.
    + intros Hnd'. apply NoDup_app in Hnd' as (Hnd' & Hdisj & _).
      assert (Hnew : ¬ In c0 l).
      { intros Hin. apply (Hdisj c0); [apply list_elem_of_In; exact Hin|].
        apply list_elem_of_here. }
      destruct (Hnd Hnd') as (Hp & Hcnt). rewrite (Out c0 Hnew) in Here. split.
      * intros c Hin Hf Hpg. destruct (Hin_cases c Hin) as [->|[Hne Hold]].
        -- rewrite Hf, Hpg in Here. simpl in Here. destruct Here as (Hs & Hex & _).
           split; [exact Hs | apply Dom; exact Hex].
        -- rewrite (Oth c Hne). destruct (Hp c Hold Hf Hpg) as [Hs Hex].
           split; [exact Hs | apply Dom; exact Hex].
      * rewrite !List.filter_app, !length_app. simpl.
        destruct (negb (failsHeartbeat (socket_of w c0)) && ping c0); simpl;
          destruct Here as (_ & Hsnd); try destruct Hsnd as (_ & Hsnd);
          rewrite Hsnd; injection Hcnt as -> ->; f_equal; lia.
Qed.

(** Extra X26.  A turn of the heartbeat touches nothing but the sockets it
    is given.  Afterwards none of them counts as active, so a room all of
    whose members were visited has an active count of zero until a pong
    arrives; a socket that failed the test, or whose ping threw, is no
    longer open; and the turn counts each socket once, as pinged or as
    terminated. *)
Theorem heartbeat_flags_every_socket ping wssClients w :
  let w' := fst (heartbeat ping wssClients w) in
  roomManager w' = roomManager w ∧ timers w' = timers w
  ∧ connectionTracker w' = connectionTracker w
  ∧ (∀ c, ¬ In c wssClients → socket_of w' c = socket_of w c)
  ∧ (∀ c, In c wssClients → isActive (socket_of w' c) = false)
  ∧ (∀ c, In c wssClients → failsHeartbeat (socket_of w c) = true ∨ ping c = false →
          readyState (socket_of w' c) ≠ 1)
  ∧ (∀ r room, room_of w r = Some room → (∀ c, In c (clients room) → In c wssClients) →
       getActiveClientCount r w' = 0)
  ∧ (NoDup wssClients →
       snd (heartbeat ping wssClients w)
       = (Z.of_nat (length (List.filter
              (fun c => negb (failsHeartbeat (socket_of w c)) && ping c) wssClients)),
          Z.of_nat (length (List.filter
              (fun c => negb (negb (failsHeartbeat (socket_of w c)) && ping c)) wssClients)))).
Proof.
  intros w'. destruct (heartbeat_sweep ping wssClients w)
    as (Rm & T & C & Out & In1 & In2 & _ & Hnd).
  fold w' in Rm, T, C, Out, In1, In2.
  split; [exact Rm|]. split; [exact T|]. split; [exact C|]. split; [exact Out|].
  split; [intros c Hc; apply In1; exact Hc|]. split; [exact In2|]. split.
  - intros r room E Hall. rewrite getActiveClientCount_filter.
    unfold room_of. rewrite Rm. unfold room_of in E. rewrite E.
    unfold active_in. rewrite filter_none; [reflexivity|].
    intros c Hc. apply In1. apply Hall. exact Hc.
  - intros Hn. apply (Hnd Hn).
Qed.

(** Extra X27.  A socket that passed the heartbeat test and was pinged
    stays open but flagged; its pong makes it count as active again and
    pass the next test.  Without a pong, the next turn of the heartbeat
    that visits it terminates it. *)
Theorem heartbeat_needs_a_pong ping wssClients w ws :
  In ws wssClients →
  NoDup wssClients →
  let w1 := fst (heartbeat ping wssClients w) in
  (failsHeartbeat (socket_of w ws) = false → ping ws = true →
     readyState (socket_of w1 ws) = 1
     ∧ isActive (socket_of (handlePong ws w1) ws) = true
     ∧ failsHeartbeat (socket_of (handlePong ws w1) ws) = false)
  ∧ (∀ ping2 wssClients2 w2,
       socket_of w2 ws = socket_of w1 ws → In ws wssClients2 →
       readyState (socket_of (fst (heartbeat ping2 wssClients2 w2)) ws) ≠ 1).
Proof.
  intros Hin Hnd w1. destruct (heartbeat_sweep ping wssClients w)
    as (_ & _ & _ & _ & In1 & _ & _ & Hp).
  fold w1 in In1, Hp. split.
  - intros Hf Hpg. destruct (Hp Hnd) as (Hp1 & _).
    destruct (Hp1 ws Hin Hf Hpg) as (Hs & [s1 Hex]).
    unfold failsHeartbeat in Hf.
    apply orb_false_iff in Hf as [Hf Hcid]. apply orb_false_iff in Hf as [Hf Hrid].
    apply orb_false_iff in Hf as [_ Hop].
    apply negb_false_iff in Hcid, Hrid, Hop.
    assert (Hpong : socket_of (handlePong ws w1) ws
                    = set_ws_lastActivity (now w1) (set_isAlive true (socket_of w1 ws))).
    { unfold handlePong. rewrite socket_of_alter_gen. rewrite decide_True by reflexivity.
      unfold socket_of. rewrite Hex. reflexivity. }
    rewrite Hpong, Hs. unfold isActive, failsHeartbeat. simpl.
    rewrite Hop, Hcid, Hrid. split; [apply Z.eqb_eq; exact Hop|]. split; reflexivity.
  - intros ping2 l2 w2 Hsame Hin2.
    destruct (heartbeat_sweep ping2 l2 w2) as (_ & _ & _ & _ & _ & In2 & _).
    apply In2; [exact Hin2|]. left. rewrite Hsame. apply In1. exact Hin.
Qed.

(** *** The connection handler *)

Lemma refusal_outcome c code reason w w0 :
  roomManager w0 = roomManager w → timers w0 = timers w → sockets w0 = sockets w →
  (listening c w0 → listening c w) →
  let w' := closeSocket c code reason w0 in
  roomManager w' = roomManager w ∧ timers w' = timers w
  ∧ socket_of w' c = closing (socket_of w c)
  ∧ (∀ x, x ≠ c → socket_of w' x = socket_of w x)
  ∧ (listening c w' → listening c w).
Proof.
  intros Hrm Ht Hs Hl w'. subst w'.
  split; [exact Hrm|]. split; [exact Ht|]. split; [|split].
  - rewrite socket_of_close. rewrite decide_True by reflexivity.
    unfold socket_of. rewrite Hs. reflexivity.
  - intros x Hne. rewrite socket_of_close. rewrite decide_False by exact Hne.
    unfold socket_of. rewrite Hs. reflexivity.
  - intros H. apply Hl. unfold listening in *. simpl in H.
    apply in_app_or in H as [H|[H|[]]]; [exact H | discriminate H].
Qed.

Ltac refuse :=
  match goal with
  | |- context [closeSocket ?c ?code ?reason ?w0] =>
      match goal with
      | |- context [closing (socket_of ?w c)] =>
          apply (refusal_outcome c code reason w w0); auto
      end
  end.

(** Extra X28.  The connection handler lets a socket in exactly when the
    four gates pass.  Then the socket is a member of the room it asked
    for, carries that room's id, a new client id and the alive flag, its
    pair of IP and room counts one more, a grace entry of the room is
    gone, and the handlers are registered.  Otherwise the socket is
    closed and no room, timeout or other socket changes, and no handler is
    registered. *)
Theorem handleClientConnection_outcome maxClientsPerRoom random ws request w :
  let w' := handleClientConnection maxClientsPerRoom random ws request w in
  let roomId := roomIdOfRequest request in
  let clientIP := or_string (req_remoteAddress request) "unknown" in
  if passes_gates maxClientsPerRoom request w then
    (∃ room', room_of w' roomId = Some room' ∧ In ws (clients room'))
    ∧ socket_of w' ws
      = assigned_fields roomId (generateClientId (now w) random) clientIP (now w)
          (socket_of w ws)
    ∧ (∀ ip r, quota (connectionTracker w') ip r
               = if bool_decide (ip = clientIP ∧ r = roomId)
                 then quota (connectionTracker w) clientIP roomId + 1
                 else quota (connectionTracker w) ip r)
    ∧ gracePeriods (roomManager w') !! roomId = None
    ∧ (∀ r, r ≠ roomId → room_of w' r = room_of w r)
    ∧ (∀ x, x ≠ ws → socket_of w' x = socket_of w x)
    ∧ listening ws w'
  else
    roomManager w' = roomManager w ∧ timers w' = timers w
    ∧ socket_of w' ws = closing (socket_of w ws)
    ∧ (∀ x, x ≠ ws → socket_of w' x = socket_of w x)
    ∧ (listening ws w' → listening ws w).
Proof.
  intros w' roomId clientIP. subst w'.
  unfold passes_gates, handleClientConnection. fold roomId. fold clientIP.
  destruct (bool_decide_reflect (roomId = "default")) as [Hd|Hd]; cbn [negb andb].
  { refuse. }
  destruct (isAllowedRoom roomId) eqn:Ha; cbn [negb andb]; [|refuse].
  destruct (Z.ltb_spec (quota (connectionTracker w) clientIP roomId)
              MAX_CONNECTIONS_PER_IP_PER_ROOM) as [Hq|Hq]; cbn [negb andb].
  2: { rewrite trackConnection_refuses by exact Hq. cbn [negb].
       refuse.
       unfold listening. simpl. intros Hl.
       apply in_app_or in Hl as [Hl|[Hl|[]]]; [exact Hl | discriminate Hl]. }
  rewrite trackConnection_accepts by exact Hq.
  set (t := <[clientIP := _]> (connectionTracker w)).
  set (w1 := emit (EvTrack clientIP roomId true) (upd_tracker (fun _ => t) w)).
  cbn [negb].
  change (getActiveClientCount roomId w1) with (getActiveClientCount roomId w).
  destruct (Z.ltb_spec (getActiveClientCount roomId w) maxClientsPerRoom) as [Hc|Hc].
  2: { destruct (Z.leb_spec maxClientsPerRoom (getActiveClientCount roomId w)); [|lia].
       refuse.
       unfold listening. simpl. intros Hl.
       apply in_app_or in Hl as [Hl|[Hl|[]]]; [|discriminate Hl].
       apply in_app_or in Hl as [Hl|[Hl|[]]]; [exact Hl | discriminate Hl]. }
  destruct (Z.leb_spec maxClientsPerRoom (getActiveClientCount roomId w)); [lia|].
  set (w2 := upd_sockets <[ws := _]> w1).
  destruct (addClient_frame roomId ws w2)
    as (Hr & Hg & _ & _ & Hs & _ & _ & Ht & _ & _).
  destruct (addClient roomId ws w2) as [w3 n3]. simpl in Hr, Hg, Hs, Ht.
  split; [|split; [|split; [|split; [|split; [|split]]]]].
  - exists (joined ws roomId w2). split.
    + unfold room_of. simpl. rewrite Hr. apply lookup_insert_eq.
    + apply has_client_In. apply joined_has_client.
  - unfold socket_of. simpl. rewrite Hs. simpl. rewrite lookup_insert_eq. reflexivity.
  - intros ip r. simpl. rewrite Ht. simpl.
    pose proof (quota_track clientIP roomId (connectionTracker w) ip r Hq) as Hqt.
    rewrite trackConnection_accepts in Hqt by exact Hq. exact Hqt.
  - simpl. rewrite Hg. apply lookup_delete_eq.
  - intros r Hne. unfold room_of. simpl. rewrite Hr.
    rewrite lookup_insert_ne by congruence. reflexivity.
  - intros x Hne. unfold socket_of. simpl. rewrite Hs. simpl.
    rewrite lookup_insert_ne by congruence. reflexivity.
  - unfold listening. simpl. apply in_or_app. right. left. reflexivity.
Qed.

(** *** A connection and its disconnection *)

Lemma or_string_truthy o d : d ≠ "" → or_string o d ≠ "".
Proof.
  intros Hd. unfold or_string. destruct o as [s|]; [|exact Hd].
  case_bool_decide; assumption.
Qed.

Lemma or_string_idem s d : s ≠ "" → or_string (Some s) d = s.
Proof. intros Hs. unfold or_string. rewrite bool_decide_eq_false_2 by exact Hs. reflexivity. Qed.

Lemma isTruthy_Some s : s ≠ "" → isTruthy (Some s) = true.
Proof. intros Hs. unfold isTruthy. rewrite bool_decide_eq_false_2 by exact Hs. reflexivity. Qed.

Lemma generateClientId_truthy t random : generateClientId t random ≠ "".
Proof. unfold generateClientId. rewrite append_cons. discriminate. Qed.

Lemma passes_gates_true maxClientsPerRoom request w :
  passes_gates maxClientsPerRoom request w = true →
  roomIdOfRequest request ≠ "default"
  ∧ isAllowedRoom (roomIdOfRequest request) = true
  ∧ quota (connectionTracker w) (or_string (req_remoteAddress request) "unknown")
      (roomIdOfRequest request) < MAX_CONNECTIONS_PER_IP_PER_ROOM
  ∧ getActiveClientCount (roomIdOfRequest request) w < maxClientsPerRoom.
Proof.
  unfold passes_gates. intros H.
  apply andb_true_iff in H as [H Hc]. apply andb_true_iff in H as [H Hq].
  apply andb_true_iff in H as [Hd Ha].
  apply negb_true_iff, bool_decide_eq_false in Hd.
  apply Z.ltb_lt in Hc, Hq. auto.
Qed.

(** What the handler comes to when the four gates pass. *)
Lemma handleClientConnection_accepted maxClientsPerRoom random ws request w :
  passes_gates maxClientsPerRoom request w = true →
  let roomId := roomIdOfRequest request in
  let clientIP := or_string (req_remoteAddress request) "unknown" in
  handleClientConnection maxClientsPerRoom random ws request w
  = emit (EvListen ws)
      (fst (addClient roomId ws
         (upd_sockets
            <[ws := assigned_fields roomId (generateClientId (now w) random) clientIP (now w)
                      (socket_of w ws)]>
            (emit (EvTrack clientIP roomId true)
               (upd_tracker (fun _ => fst (trackConnection clientIP roomId (connectionTracker w)))
                  w))))).
Proof.
  intros Hp roomId clientIP.
  destruct (passes_gates_true _ _ _ Hp) as (Hd & Ha & Hq & Hc).
  fold roomId in Hd, Ha, Hq, Hc. fold clientIP in Hq.
  unfold handleClientConnection. fold roomId. fold clientIP.
  rewrite (bool_decide_eq_false_2 _ Hd), Ha. cbn [negb andb].
  rewrite trackConnection_accepts by exact Hq. cbn [negb fst].
  set (w1 := emit _ (upd_tracker _ w)).
  change (getActiveClientCount roomId w1) with (getActiveClientCount roomId w).
  destruct (Z.leb_spec maxClientsPerRoom (getActiveClientCount roomId w)); [lia|].
  destruct (addClient roomId ws _) as [w3 n3]. reflexivity.
Qed.

Lemma removeClient_frame roomId client w :
  let w' := fst (removeClient roomId client w) in
  (∀ room', room_of w' roomId = Some room' → ¬ In client (clients room'))
  ∧ (∀ r, r ≠ roomId → room_of w' r = room_of w r)
  ∧ connectionTracker w' = connectionTracker w
  ∧ (∀ c, ws_roomId (socket_of w' c) = ws_roomId (socket_of w c)
          ∧ ws_clientId (socket_of w' c) = ws_clientId (socket_of w c)
          ∧ ws_socket (socket_of w' c) = ws_socket (socket_of w c)).
Proof.
  unfold removeClient. destruct (room_of w roomId) as [room|] eqn:E.
  2: { simpl. rewrite E. repeat split; auto. discriminate. }
  destruct (has_client client room) eqn:Hh; simpl.
  2: { rewrite E. repeat split; auto. intros room' [= <-].
       apply has_client_not_In. exact Hh. }
  set (w1 := upd_rm (set_rooms <[roomId := room_touch (now w) (room_delete client room)]>) w).
  assert (E1 : room_of w1 roomId = Some (room_touch (now w) (room_delete client room)))
    by (unfold room_of; simpl; apply lookup_insert_eq).
  assert (Hnot : ¬ In client (clients (room_touch (now w) (room_delete client room)))).
  { simpl. intros Hin. apply filter_In in Hin as [_ Hin].
    rewrite Nat.eqb_refl in Hin. discriminate Hin. }
  assert (Hoth : ∀ r, r ≠ roomId → room_of w1 r = room_of w r).
  { intros r Hne. unfold room_of. simpl. apply lookup_insert_ne. congruence. }
  destruct (getActiveClientCount roomId w1 =? 0); simpl.
  2: { rewrite E1. repeat split; auto. intros room' [= <-]. exact Hnot. }
  destruct (SaveManager.isCodeEditorRoom roomId) eqn:Hk.
  - rewrite (startGracePeriod_editor roomId w1 Hk). simpl.
    split; [|repeat split; auto].
    intros room' Hr. change (room_of w1 roomId = Some room') in Hr.
    rewrite E1 in Hr. injection Hr as <-. exact Hnot.
  - rewrite (startGracePeriod_other roomId w1 Hk).
    destruct (cleanupRoom_rm roomId w1 _ E1) as (Hr & _ & _ & _ & _ & Hsock & _ & Ht & _).
    destruct (cleanupRoom_frame roomId w1) as (_ & _ & Hother).
    split; [|split; [|split]].
    + intros room' Hr'. unfold room_of in Hr'. rewrite Hr, lookup_delete_eq in Hr'.
      discriminate Hr'.
    + intros r Hne. rewrite (Hother r Hne). apply Hoth. exact Hne.
    + exact Ht.
    + intros c. destruct (Hsock c) as [->| ->]; [auto|].
      change (socket_of w1 c) with (socket_of w c).
      unfold closing. destruct (readyState (socket_of w c) =? 3); auto.
Qed.

(** Extra X29.  A socket that is let in and then disconnects leaves the
    connection table as it was before it came, is no longer a member of
    its room, and has changed no other room.  The release is made
    whether or not the socket is still a member: a second disconnection
    of the same socket releases the pair once more. *)
Theorem connect_then_disconnect maxClientsPerRoom random ws request code reason w :
  ws_socket (socket_of w ws) = None →
  tracker_wf (connectionTracker w) →
  passes_gates maxClientsPerRoom request w = true →
  let roomId := roomIdOfRequest request in
  let clientIP := or_string (req_remoteAddress request) "unknown" in
  let w1 := handleClientConnection maxClientsPerRoom random ws request w in
  let w2 := handleClientDisconnection ws code reason w1 in
  connectionTracker w2 = connectionTracker w
  ∧ (∀ room', room_of w2 roomId = Some room' → ¬ In ws (clients room'))
  ∧ (∀ r, r ≠ roomId → room_of w2 r = room_of w r)
  ∧ connectionTracker (handleClientDisconnection ws code reason w2)
    = untrackConnection clientIP roomId (connectionTracker w).
Proof.
  intros Hsock Hwf Hp roomId clientIP w1 w2.
  destruct (passes_gates_true _ _ _ Hp) as (Hd & Ha & Hq & Hc).
  fold roomId in Hd, Ha, Hq, Hc. fold clientIP in Hq.
  assert (Hip : clientIP ≠ "") by (apply or_string_truthy; discriminate).
  assert (Hrid : roomId ≠ "") by (apply or_string_truthy; discriminate).
  pose proof (handleClientConnection_accepted _ random ws _ _ Hp) as Heq.
  cbv zeta in Heq. fold roomId in Heq. fold clientIP in Heq. fold w1 in Heq.
  set (s1 := assigned_fields roomId (generateClientId (now w) random) clientIP (now w)
               (socket_of w ws)) in Heq.
  set (w0 := upd_sockets <[ws := s1]> _) in Heq.
  destruct (addClient_frame roomId ws w0) as (Hr & _ & _ & _ & Hs & _ & _ & Ht & _ & _).
  assert (Hs1 : socket_of w1 ws = s1).
  { rewrite Heq. unfold socket_of. simpl. rewrite Hs. simpl.
    rewrite lookup_insert_eq. reflexivity. }
  assert (Ht1 : connectionTracker w1
                = fst (trackConnection clientIP roomId (connectionTracker w))).
  { rewrite Heq. simpl. rewrite Ht. reflexivity. }
  assert (Hr1 : ∀ r, r ≠ roomId → room_of w1 r = room_of w r).
  { intros r Hne. rewrite Heq. unfold room_of. simpl. rewrite Hr.
    rewrite lookup_insert_ne by congruence. reflexivity. }
  assert (Hids : ∀ v, ws_roomId (socket_of v ws) = Some roomId →
                      ws_clientId (socket_of v ws) = Some (generateClientId (now w) random) →
                      ws_socket (socket_of v ws) = Some (Some clientIP) →
                      handleClientDisconnection ws code reason v
                      = emit (EvUntrack clientIP roomId)
                          (upd_tracker (untrackConnection clientIP roomId)
                             (fst (removeClient roomId ws v)))).
  { intros v H1 H2 H3. unfold handleClientDisconnection. rewrite H1, H2, H3.
    assert (Tr : isTruthy (Some roomId) = true) by (apply isTruthy_Some; exact Hrid).
    assert (Tc : isTruthy (Some (generateClientId (now w) random)) = true)
      by (apply isTruthy_Some, generateClientId_truthy).
    assert (Or : or_string (Some roomId) "" = roomId) by (apply or_string_idem; exact Hrid).
    assert (Oc : or_string (Some clientIP) "unknown" = clientIP)
      by (apply or_string_idem; exact Hip).
    rewrite Tr, Tc, Or, Oc. cbn [negb orb].
    destruct (removeClient roomId ws v) as [v1 n1]. reflexivity. }
  assert (H1 : ws_roomId (socket_of w1 ws) = Some roomId) by (rewrite Hs1; reflexivity).
  assert (H2 : ws_clientId (socket_of w1 ws) = Some (generateClientId (now w) random))
    by (rewrite Hs1; reflexivity).
  assert (H3 : ws_socket (socket_of w1 ws) = Some (Some clientIP))
    by (rewrite Hs1; simpl; rewrite Hsock; reflexivity).
  assert (E2 : w2 = emit (EvUntrack clientIP roomId)
                      (upd_tracker (untrackConnection clientIP roomId)
                         (fst (removeClient roomId ws w1))))
    by (apply Hids; assumption).
  destruct (removeClient_frame roomId ws w1) as (Hnot & Hoth & Htr & Hsame).
  assert (T2 : connectionTracker w2 = connectionTracker w).
  { rewrite E2. simpl. rewrite Htr, Ht1. apply untrack_after_track; assumption. }
  split; [exact T2|]. split; [|split].
  - intros room' Hr'. rewrite E2 in Hr'. apply Hnot. exact Hr'.
  - intros r Hne. rewrite E2. change (room_of (emit _ (upd_tracker _ ?v)) r) with (room_of v r).
    rewrite (Hoth r Hne). apply Hr1. exact Hne.
  - destruct (Hsame ws) as (I1 & I2 & I3).
    rewrite Hids.
    + simpl. destruct (removeClient_frame roomId ws w2) as (_ & _ & -> & _).
      rewrite T2. reflexivity.
    + rewrite E2. change (socket_of (emit _ (upd_tracker _ ?v)) ws) with (socket_of v ws).
      rewrite I1. exact H1.
    + rewrite E2. change (socket_of (emit _ (upd_tracker _ ?v)) ws) with (socket_of v ws).
      rewrite I2. exact H2.
    + rewrite E2. change (socket_of (emit _ (upd_tracker _ ?v)) ws) with (socket_of v ws).
      rewrite I3. exact H3.
Qed.

(** *** Shutdown *)

Lemma only_closes_refl w : only_closes w w.
Proof. intros c. left. reflexivity. Qed.

Lemma only_closes_trans w1 w2 w3 :
  only_closes w1 w2 → only_closes w2 w3 → only_closes w1 w3.
Proof.
  intros H12 H23 c. destruct (H23 c) as [->| ->], (H12 c) as [->| ->]; auto.
  rewrite closing_idem. auto.
Qed.

Lemma only_closes_not_open w w' c :
  only_closes w w' → readyState (socket_of w c) ≠ 1 → readyState (socket_of w' c) ≠ 1.
Proof. intros H Hc. destruct (H c) as [->| ->]; [exact Hc | apply closing_not_open]. Qed.

Lemma closeSocket_only_closes c code reason w : only_closes w (closeSocket c code reason w).
Proof.
  intros x. rewrite socket_of_close. destruct (decide (x = c)) as [->|]; auto.
Qed.

Lemma close_all code reason (l : list nat) : ∀ w,
  let w' := foldl (fun w ws => closeSocket ws code reason w) w l in
  roomManager w' = roomManager w ∧ timers w' = timers w ∧ nextTimer w' = nextTimer w
  ∧ only_closes w w'
  ∧ ∀ c, In c l → readyState (socket_of w' c) ≠ 1.
Proof.
  induction l as [|c0 l IH]; intros w; simpl.
  - repeat split. apply only_closes_refl. intros c [].
  - destruct (IH (closeSocket c0 code reason w)) as (-> & -> & -> & Hcl & Hin).
    split; [reflexivity|]. split; [reflexivity|]. split; [reflexivity|]. split.
    + eapply only_closes_trans; [apply closeSocket_only_closes | exact Hcl].
    + intros c [<-|Hc]; [|apply Hin; exact Hc].
      apply (only_closes_not_open _ _ _ Hcl).
      rewrite socket_of_close. rewrite decide_True by reflexivity. apply closing_not_open.
Qed.

Lemma clear_fold (l : list string) : ∀ w,
  let w' := foldl (fun w roomId =>
                     match gracePeriods (roomManager w) !! roomId with
                     | Some timeout =>
                         emit (EvClearTimeout timeout) (upd_timers (delete timeout) w)
                     | None => w
                     end) w l in
  roomManager w' = roomManager w ∧ sockets w' = sockets w ∧ nextTimer w' = nextTimer w
  ∧ (∀ h x, timers w' !! h = Some x → timers w !! h = Some x)
  ∧ (∀ r h, In r l → gracePeriods (roomManager w) !! r = Some h → timers w' !! h = None).
Proof.
  induction l as [|r0 l IH]; intros w; simpl.
  - repeat split; auto. intros r h [].
  - set (w1 := match gracePeriods (roomManager w) !! r0 with
               | Some timeout => emit (EvClearTimeout timeout) (upd_timers (delete timeout) w)
               | None => w
               end).
    assert (H1 : roomManager w1 = roomManager w ∧ sockets w1 = sockets w
                 ∧ nextTimer w1 = nextTimer w
                 ∧ (∀ h x, timers w1 !! h = Some x → timers w !! h = Some x)
                 ∧ (∀ h, gracePeriods (roomManager w) !! r0 = Some h → timers w1 !! h = None)).
    { subst w1. destruct (gracePeriods (roomManager w) !! r0) as [h0|]; simpl.
      - repeat split.
        + intros h x Hx. apply lookup_delete_Some in Hx as [_ Hx]. exact Hx.
        + intros h [= <-]. apply lookup_delete_eq.
      - repeat split; auto. discriminate. }
    destruct H1 as (Rm1 & S1 & N1 & Sub1 & Del1).
    destruct (IH w1) as (Rm & S & N & Sub & Del).
    split; [rewrite Rm; exact Rm1|]. split; [rewrite S; exact S1|].
    split; [rewrite N; exact N1|]. split.
    + intros h x Hx. apply Sub1, Sub. exact Hx.
    + intros r h [<-|Hin] Hg.
      * destruct (timers _ !! h) as [x|] eqn:Ex; [|reflexivity].
        apply Sub in Ex. rewrite (Del1 h Hg) in Ex. discriminate Ex.
      * apply (Del r h Hin). rewrite Rm1. exact Hg.
Qed.

Lemma close_members_fold (order : list string) : ∀ w,
  let w' := foldl (fun w roomId =>
                     match room_of w roomId with
                     | None => w
                     | Some room =>
                         foldl (fun w client =>
                                  if readyState (socket_of w client) =? 1
                                  then closeSocket client 1001 "Server shutting down" w
                                  else w) w (clients room)
                     end) w order in
  roomManager w' = roomManager w ∧ timers w' = timers w ∧ nextTimer w' = nextTimer w
  ∧ only_closes w w'
  ∧ ∀ r room c, In r order → room_of w r = Some room → In c (clients room) →
                readyState (socket_of w' c) ≠ 1.
Proof.
  induction order as [|r0 order IH]; intros w; simpl.
  - repeat split. apply only_closes_refl. intros r room c [].
  - set (w1 := match room_of w r0 with
               | None => w
               | Some room => foldl _ w (clients room)
               end).
    assert (H1 : roomManager w1 = roomManager w ∧ timers w1 = timers w
                 ∧ nextTimer w1 = nextTimer w ∧ only_closes w w1
                 ∧ ∀ room c, room_of w r0 = Some room → In c (clients room) →
                             readyState (socket_of w1 c) ≠ 1).
    { subst w1. destruct (room_of w r0) as [room0|].
      - destruct (close_fold_frame (fun w c => readyState (socket_of w c) =? 1)
                    1001 "Server shutting down" (clients room0) w) as (Rm & T & _).
        destruct (close_fold_sockets 1001 "Server shutting down" (clients room0) w)
          as (Hin & Hall & _ & _ & N).
        split; [exact Rm|]. split; [exact T|]. split; [exact N|]. split; [exact Hall|].
        intros room c [= <-] Hc. apply Hin. exact Hc.
      - repeat split. apply only_closes_refl. discriminate. }
    destruct H1 as (Rm1 & T1 & N1 & Cl1 & In1).
    destruct (IH w1) as (Rm & T & N & Cl & Hin).
    split; [rewrite Rm; exact Rm1|]. split; [rewrite T; exact T1|].
    split; [rewrite N; exact N1|]. split.
    + eapply only_closes_trans; eassumption.
    + intros r room c [<-|Hr] E Hc.
      * apply (only_closes_not_open _ _ _ Cl). apply (In1 room c E Hc).
      * apply (Hin r room c Hr); [|exact Hc]. unfold room_of. rewrite Rm1. exact E.
Qed.

(** Extra X30.  The shutdown signal leaves no room, no grace entry, no
    document, no snapshot and no connection count; every socket of the
    server and every member of a listed room is closed or closing; the
    timeout of every listed grace entry is cleared and none is armed;
    nothing is done to a socket but closing it. *)
Theorem gracefulShutdown_forgets_everything wssClients order graceOrder w :
  let w' := gracefulShutdown wssClients order graceOrder w in
  rooms (roomManager w') = ∅ ∧ gracePeriods (roomManager w') = ∅
  ∧ documents (yjsManager (roomManager w')) = ∅
  ∧ documentStates (yjsManager (roomManager w')) = ∅
  ∧ connectionTracker w' = ∅
  ∧ (∀ c, In c wssClients → readyState (socket_of w' c) ≠ 1)
  ∧ (∀ r room c, In r order → room_of w r = Some room → In c (clients room) →
       readyState (socket_of w' c) ≠ 1)
  ∧ (∀ r h, In r graceOrder → gracePeriods (roomManager w) !! r = Some h →
       timers w' !! h = None)
  ∧ (∀ h x, timers w' !! h = Some x → timers w !! h = Some x)
  ∧ nextTimer w' = nextTimer w
  ∧ only_closes w w'.
Proof.
  intros w'. subst w'. unfold gracefulShutdown, shutdown, clearGracePeriods.
  destruct (close_all 1001 "Server shutting down" wssClients w)
    as (Rm1 & T1 & N1 & Cl1 & In1).
  set (w1 := foldl (fun w ws => closeSocket ws 1001 "Server shutting down" w) w wssClients) in *.
  destruct (clear_fold graceOrder w1) as (Rm2 & S2 & N2 & Sub2 & Del2).
  set (w2 := foldl _ w1 graceOrder) in *.
  set (w3 := upd_rm (set_gracePeriods (fun _ => ∅)) w2).
  destruct (close_members_fold order w3) as (Rm4 & T4 & N4 & Cl4 & In4).
  set (w4 := foldl _ w3 order) in *.
  assert (Cl : only_closes w w4).
  { eapply only_closes_trans; [exact Cl1|]. eapply only_closes_trans; [|exact Cl4].
    intros c. left. unfold socket_of. simpl. rewrite S2. reflexivity. }
  simpl. split; [reflexivity|]. split; [rewrite Rm4; reflexivity|].
  split; [reflexivity|]. split; [reflexivity|]. split; [reflexivity|].
  split; [|split; [|split; [|split; [|split]]]].
  - intros c Hc. apply (only_closes_not_open w1).
    + eapply only_closes_trans; [|exact Cl4].
      intros x. left. unfold socket_of. simpl. rewrite S2. reflexivity.
    + apply In1. exact Hc.
  - intros r room c Hr E Hc. apply (In4 r room c Hr); [|exact Hc].
    unfold room_of. simpl. rewrite Rm2, Rm1. exact E.
  - intros r h Hr Hg. rewrite T4. simpl. apply (Del2 r h Hr). rewrite Rm1. exact Hg.
  - intros h x Hx. rewrite T4 in Hx. simpl in Hx. apply Sub2 in Hx. rewrite T1 in Hx. exact Hx.
  - rewrite N4. simpl. rewrite N2. exact N1.
  - exact Cl.
Qed.

End SweepFacts.

Lemma broadcast_leaves_the_rest_witness :
  sockets (fst (broadcast send_none "filetree-42" hi_frame 0 tree_room)) = sockets tree_room.
Proof.
  pose proof (broadcast_leaves_the_rest send_none "filetree-42" hi_frame 0%nat tree_room) as H.
  cbv zeta in H. destruct H as [H _]. exact H.
Defined.

(** Both members of the code-editor room of [pinged_room] have a ping
    unanswered: the sweep counts two, and the room stays, empty, with a
    grace entry.  The file-tree room of [tree_room], its three members
    pinged, is destroyed. *)
Lemma cleanupInactiveClients_keeps_active_witness :
  snd (cleanupInactiveClients ["repo-7-src/main.ts"] pinged_room) = 2
  ∧ ((∃ room', room_of (fst (cleanupInactiveClients ["repo-7-src/main.ts"] pinged_room))
                 "repo-7-src/main.ts" = Some room'
               ∧ clients room' = [])
     ∧ is_Some (gracePeriods
                  (roomManager (fst (cleanupInactiveClients ["repo-7-src/main.ts"] pinged_room)))
                !! "repo-7-src/main.ts"))
  ∧ room_of (fst (cleanupInactiveClients ["filetree-42"]
                    (fst (heartbeat (fun _ => true) [0; 1; 2]%nat tree_room))))
      "filetree-42" = None.
Proof.
  split; [|split].
  - pose proof (cleanupInactiveClients_keeps_active ["repo-7-src/main.ts"] pinged_room) as H.
    cbv zeta in H. destruct H as (_ & _ & _ & _ & _ & _ & H).
    rewrite H; [vm_compute; reflexivity | apply NoDup_singleton].
  - pose proof (cleanupInactiveClients_keeps_active ["repo-7-src/main.ts"] pinged_room) as H.
    cbv zeta in H. destruct H as (_ & _ & _ & _ & H & _).
    specialize (H "repo-7-src/main.ts"
                  (room_add 1 0 (room_add 0 0 (newRoom "repo-7-src/main.ts" 0)))).
    assert (Hk : SaveManager.isCodeEditorRoom "repo-7-src/main.ts" = true)
      by (vm_compute; reflexivity).
    rewrite Hk in H. apply H.
    + left. reflexivity.
    + vm_compute. reflexivity.
    + discriminate.
    + vm_compute. reflexivity.
  - pose proof (cleanupInactiveClients_keeps_active ["filetree-42"]
                  (fst (heartbeat (fun _ => true) [0; 1; 2]%nat tree_room))) as H.
    cbv zeta in H. destruct H as (_ & _ & _ & _ & H & _).
    specialize (H "filetree-42"
                  (room_add 2 0 (room_add 1 0 (room_add 0 0 (newRoom "filetree-42" 0))))).
    assert (Hk : SaveManager.isCodeEditorRoom "filetree-42" = false)
      by (vm_compute; reflexivity).
    rewrite Hk in H. apply H.
    + left. reflexivity.
    + vm_compute. reflexivity.
    + discriminate.
    + vm_compute. reflexivity.
Defined.

Lemma cleanupEmptyRooms_destroys_idle_rooms_witness :
  room_of (fst (cleanupEmptyRooms ["repo-7-src/main.ts"] pinged_room)) "repo-7-src/main.ts"
  = None.
Proof.
  pose proof (cleanupEmptyRooms_destroys_idle_rooms ["repo-7-src/main.ts"] pinged_room) as H.
  cbv zeta in H. destruct H as (H & _). rewrite H. vm_compute. reflexivity.
Defined.

Lemma heartbeat_flags_every_socket_witness :
  isActive (socket_of (fst (heartbeat (fun _ => true) [0; 1]%nat editor_room)) 0%nat) = false.
Proof.
  pose proof (heartbeat_flags_every_socket (fun _ => true) [0; 1]%nat editor_room) as H.
  cbv zeta in H. destruct H as (_ & _ & _ & _ & H & _). apply H. left. reflexivity.
Defined.

Lemma heartbeat_needs_a_pong_witness :
  isActive (socket_of
    (handlePong 0 (fst (heartbeat (fun _ => true) [0; 1]%nat editor_room))) 0%nat) = true.
Proof.
  pose proof (heartbeat_needs_a_pong (fun _ => true) [0; 1]%nat editor_room 0%nat) as H.
  cbv zeta in H. destruct H as [H _].
  - left. reflexivity.
  - apply NoDup_cons. split; [|apply NoDup_singleton].
    intros Hin. apply list_elem_of_singleton in Hin. discriminate Hin.
  - destruct H as (_ & H & _); [vm_compute; reflexivity | reflexivity | exact H].
Defined.

Lemma handleClientConnection_outcome_witness :
  listening 0
    (handleClientConnection 50 "r" 0 (request_for "/repo-7-foo.ts" "203.0.113.9")
       (accept 0 world0)).
Proof.
  pose proof (handleClientConnection_outcome 50 "r" 0%nat
                (request_for "/repo-7-foo.ts" "203.0.113.9") (accept 0 world0)) as H.
  cbv zeta in H.
  assert (Hp : passes_gates 50 (request_for "/repo-7-foo.ts" "203.0.113.9") (accept 0 world0)
               = true) by (vm_compute; reflexivity).
  rewrite Hp in H. destruct H as (_ & _ & _ & _ & _ & _ & H). exact H.
Defined.

Lemma connect_then_disconnect_witness :
  connectionTracker
    (handleClientDisconnection 0 1000 []
       (handleClientConnection 50 "r" 0 (request_for "/repo-7-foo.ts" "203.0.113.9")
          (accept 0 world0)))
  = connectionTracker (accept 0 world0).
Proof.
  pose proof (connect_then_disconnect 50 "r" 0%nat
                (request_for "/repo-7-foo.ts" "203.0.113.9") 1000 [] (accept 0 world0)) as H.
  cbv zeta in H. destruct H as [H _].
  - vm_compute. reflexivity.
  - apply tracker_wf_empty.
  - vm_compute. reflexivity.
  - exact H.
Defined.

Lemma gracefulShutdown_forgets_everything_witness :
  rooms (roomManager (gracefulShutdown [0; 1]%nat ["repo-7-src/main.ts"] [] editor_room)) = ∅
  ∧ connectionTracker (gracefulShutdown [0; 1]%nat ["repo-7-src/main.ts"] [] editor_room) = ∅.
Proof.
  pose proof (gracefulShutdown_forgets_everything [0; 1]%nat ["repo-7-src/main.ts"] []
                editor_room) as H.
  cbv zeta in H. destruct H as (H1 & _ & _ & _ & H5 & _). split; [exact H1 | exact H5].
Defined.
